(** * Collapse Archetype Quiz: the scoring engine, embedded and verified

    A shallow embedding of [scoring-engine.js].  JavaScript numbers are
    read as exact real numbers ([R]); plain objects used as dictionaries
    are association lists in [Object.entries] order; a thrown [Error] is
    the [Throw] branch of [outcome].  What this reading leaves out, the
    names every object inherits and the rounding of doubles, is in the
    modules [Inherited] and [Doubles]. *)

From Stdlib Require Import Floats.
From Stdlib Require Import Reals Lra Lia List String Ascii Bool Arith.
From Stdlib Require Import Permutation Sorted.
Import ListNotations.
Open Scope string_scope.
Open Scope list_scope.
Open Scope R_scope.

(** ** Numbers: the comparisons of the source as boolean tests *)

Definition Rltb (a b : R) : bool := if Rlt_dec a b then true else false.
Definition Rleb (a b : R) : bool := if Rle_dec a b then true else false.
Definition Rgtb (a b : R) : bool := if Rgt_dec a b then true else false.
Definition Rgeb (a b : R) : bool := if Rge_dec a b then true else false.
Definition Reqb (a b : R) : bool := if Req_dec_T a b then true else false.

(** ** Errors and the result of a call that may throw *)

Inductive error : Type :=
| NoScoresProvided   (* 'No archetype scores provided' *)
| NoValidScores      (* 'No valid scores recorded - all archetypes have zero points' *)
| TotalWeightZero    (* 'Total question weight is zero' *)
| DimensionMismatch  (* 'Vectors must have same dimensionality' *)
| TypeError.         (* raised by the runtime: property read on undefined or null,
                        call of something that is not a function *)

Inductive outcome (A : Type) : Type :=
| Return (a : A)
| Throw (e : error).
Arguments Return {A} a.
Arguments Throw {A} e.

Definition bind {A B : Type} (c : outcome A) (k : A -> outcome B) : outcome B :=
  match c with
  | Return a => k a
  | Throw e => Throw e
  end.

Notation "x <- c ;; k" := (bind c (fun x => k))
  (at level 61, c at next level, right associativity).

(** ** Objects used as dictionaries *)

Section Dictionary.
Context {V : Type}.

Definition object : Type := list (string * V).

  (** [obj[k]]: [None] stands for [undefined]. *)
Fixpoint get (obj : object) (k : string) : option V :=
    match obj with
    | [] => None
    | (k', v) :: rest => if String.eqb k' k then Some v else get rest k
    end.

  (** [obj[k] = v]: an existing key keeps its place, a new key goes last. *)
Fixpoint set (obj : object) (k : string) (v : V) : object :=
    match obj with
    | [] => [(k, v)]
    | (k', v') :: rest =>
        if String.eqb k' k then (k', v) :: rest else (k', v') :: set rest k v
    end.

Definition keys (obj : object) : list string := map fst obj.
Definition values (obj : object) : list V := map snd obj.
End Dictionary.
Arguments object V : clear implicits.

Definition ScoreMap : Type := object R.

(** ** Array.prototype.sort with a numeric comparator

    The sort is stable; [compareFn a b > 0] puts [a] after [b].  It is
    modelled as a stable insertion sort. *)

Section Sort.
Context {A : Type} (compareFn : A -> A -> R).

Fixpoint insertSorted (a : A) (l : list A) : list A :=
    match l with
    | [] => [a]
    | b :: l' =>
        if Rgtb (compareFn a b) 0 then b :: insertSorted a l' else a :: b :: l'
    end.

Definition sort (l : list A) : list A := fold_right insertSorted [] l.
End Sort.

(** [a.localeCompare(b)] on archetype identifiers (lower-case ASCII letters
    and hyphens), read as the lexicographic order of the characters. *)
Definition localeCompare (a b : string) : R :=
  match String.compare a b with
  | Lt => -1
  | Eq => 0
  | Gt => 1
  end.

(** ** Configuration constants *)

Definition TIE_TOLERANCE : R := 0.05.
Definition MINIMUM_VARIANCE : R := 0.1.
Definition CONFIDENCE_THRESHOLDS_STRONG : R := 0.5.
Definition CONFIDENCE_THRESHOLDS_MODERATE : R := 0.2.

(** ** Archetype trait profiles *)

Record TraitProfile : Type := mkProfile {
  awareness : R;
  affect : R;
  agency : R;
  time : R;
  relationality : R;
  posture : R
}.

Definition ARCHETYPE_TRAIT_PROFILES : object TraitProfile :=
  [ ("ostrich",                 mkProfile 0.2 0.0 0.2 0.0 0.0 0.0);
    ("blissed-out-yogi",        mkProfile 0.9 0.8 0.5 0.0 0.0 0.0);
    ("illusionist",             mkProfile 0.5 0.0 0.9 0.0 1.0 1.0);
    ("normalizer",              mkProfile 0.2 0.0 0.5 0.0 1.0 0.0);
    ("prepper",                 mkProfile 0.9 0.0 0.9 1.0 0.0 1.0);
    ("prophet-of-doom",         mkProfile 0.9 (-0.7) 0.5 1.0 0.0 1.0);
    ("alt-right-collapse-bro",  mkProfile 0.5 (-0.7) 0.9 1.0 1.0 1.0);
    ("evangelical-nationalist", mkProfile 0.9 0.8 0.5 1.0 1.0 1.0);
    ("apocaloptimist",          mkProfile 0.9 0.8 0.9 1.0 0.0 1.0);
    ("trickster",               mkProfile 0.5 0.0 0.9 0.0 0.0 1.0);
    ("woke-lefty-socialist",    mkProfile 0.9 (-0.7) 0.9 1.0 1.0 1.0);
    ("salvager",                mkProfile 0.5 0.0 0.9 0.0 0.0 1.0);
    ("sacred-keeper",           mkProfile 0.9 0.8 0.5 (-1.0) 1.0 0.0);
    ("everyday-hustler",        mkProfile 0.5 0.0 0.9 0.0 0.0 1.0);
    ("already-collapsed",       mkProfile 0.9 (-0.7) 0.2 0.0 0.0 0.0);
    ("extracted",               mkProfile 0.2 0.0 0.2 0.0 0.0 0.0);
    ("child-witness",           mkProfile 0.2 0.0 0.2 0.0 0.0 0.0);
    ("opportunist-elite",       mkProfile 0.9 0.0 0.9 1.0 0.0 1.0);
    ("conspiracy-theorist",     mkProfile 0.5 (-0.7) 0.5 0.0 0.0 0.0) ].

(** ** The quiz definition and the response list *)

Record Answer : Type := mkAnswer {
  answer_id : string;
  answer_text : string;
  archetypeScores : option (object R)      (* [None]: the property is absent *)
}.

Record Question : Type := mkQuestion {
  question_id : string;
  question_text : string;
  weight : option R;                       (* [None]: [weight === undefined] *)
  answers : list Answer
}.

Record Response : Type := mkResponse {
  questionId : string;
  answerId : string
}.

(** ** calculateArchetypeScores *)

Definition initialScores : ScoreMap :=
  fold_left (fun scores archetypeId => set scores archetypeId 0)
            (keys ARCHETYPE_TRAIT_PROFILES) [].

Definition buildQuestionMap (questions : list Question) : object Question :=
  fold_left (fun questionMap q => set questionMap (question_id q) q) questions [].

Definition addPoints (w : R) (scores : ScoreMap) (entry : string * R) : ScoreMap :=
  let '(archetypeId, points) := entry in
  match get scores archetypeId with
  | Some s => set scores archetypeId (s + w * points)
  | None => set scores archetypeId (w * points)
  end.

Definition scoreResponse (questionMap : object Question)
    (scores : ScoreMap) (response : Response) : ScoreMap :=
  match get questionMap (questionId response) with
  | None => scores                                   (* warning, skipped *)
  | Some question =>
      match find (fun a => String.eqb (answer_id a) (answerId response))
                 (answers question) with
      | None => scores                               (* warning, skipped *)
      | Some selectedAnswer =>
          let w := match weight question with Some w => w | None => 1.0 end in
          match archetypeScores selectedAnswer with
          | Some points => fold_left (addPoints w) points scores
          | None => scores
          end
      end
  end.

Definition calculateArchetypeScores
    (questions : list Question) (userResponses : list Response) : ScoreMap :=
  fold_left (scoreResponse (buildQuestionMap questions)) userResponses initialScores.

(** ** determineDominantArchetypes *)

Module Dominance.
Record t : Type := mk {
    dominant : list string;
    scores : ScoreMap;
    maxScore : R;
    threshold : R;
    hasTie : bool;
    variance : R
  }.
End Dominance.

Definition compareDominant (a b : string * R) : R :=
  let scoreDiff := snd b - snd a in
  if Rltb (Rabs scoreDiff) 0.0001 then localeCompare (fst a) (fst b) else scoreDiff.

Definition determineDominantArchetypes
    (scores : ScoreMap) (tieTolerance : R) : outcome Dominance.t :=
  match scores with
  | [] => Throw NoScoresProvided
  | first :: rest =>
      let scoreEntries := scores in
      let maxScore := fold_left Rmax (map snd rest) (snd first) in
      let minScore := fold_left Rmin (map snd rest) (snd first) in
      let variance := maxScore - minScore in
      if Rltb variance MINIMUM_VARIANCE && Reqb maxScore 0 then Throw NoValidScores
      else
        let threshold := maxScore * (1 - tieTolerance) in
        let dominantEntries :=
          sort compareDominant
               (filter (fun e => Rgeb (snd e) threshold) scoreEntries) in
        let dominantArchetypeIds := map fst dominantEntries in
        let dominantScores :=
          fold_left (fun acc e => set acc (fst e) (snd e)) dominantEntries [] in
        Return (Dominance.mk dominantArchetypeIds dominantScores maxScore threshold
                             (Nat.ltb 1 (List.length dominantArchetypeIds)) variance)
  end.

(** ** calculateConfidence *)

Inductive ConfidenceLevel : Type := NONE | PERFECT | STRONG | MODERATE | WEAK.

Module Confidence.
Record t : Type := mk {
    score : R;
    level : ConfidenceLevel;
    firstPlace : option string;            (* [None]: [null] *)
    secondPlace : option string
  }.
End Confidence.

Definition compareScoreDescending (a b : string * R) : R := snd b - snd a.

Definition calculateConfidence (scores : ScoreMap) : Confidence.t :=
  let sortedEntries :=
    sort compareScoreDescending (filter (fun e => Rgtb (snd e) 0) scores) in
  match sortedEntries with
  | [] => Confidence.mk 0 NONE None None
  | [only] => Confidence.mk 1.0 PERFECT (Some (fst only)) None
  | (firstPlace, firstScore) :: (secondPlace, secondScore) :: _ =>
      let confidenceScore := (firstScore - secondScore) / firstScore in
      let level :=
        if Rgeb confidenceScore CONFIDENCE_THRESHOLDS_STRONG then STRONG
        else if Rgeb confidenceScore CONFIDENCE_THRESHOLDS_MODERATE then MODERATE
        else WEAK in
      Confidence.mk confidenceScore level (Some firstPlace) (Some secondPlace)
  end.

(** ** normalizeScores *)

Definition questionWeight (q : Question) : R :=
  match weight q with Some w => w | None => 1.0 end.

Definition normalizeScores
    (scores : ScoreMap) (questions : list Question) : outcome ScoreMap :=
  let totalWeight := fold_left (fun sum q => sum + questionWeight q) questions 0 in
  if Reqb totalWeight 0 then Throw TotalWeightZero
  else
    Return (fold_left
              (fun normalizedScores e =>
                 set normalizedScores (fst e) (snd e / totalWeight))
              scores []).

(** ** Vector primitives *)

Definition calculateVectorNorm (vector : list R) : R :=
  sqrt (fold_left (fun sum val => sum + val * val) vector 0).

(** [array.reduce((acc, val, i) => ..., init)] *)
Fixpoint reduceIndexed {A B : Type} (f : B -> A -> nat -> B)
    (l : list A) (i : nat) (acc : B) : B :=
  match l with
  | [] => acc
  | a :: l' => reduceIndexed f l' (S i) (f acc a i)
  end.

Definition calculateCosineSimilarity (vector1 vector2 : list R) : outcome R :=
  if negb (Nat.eqb (List.length vector1) (List.length vector2))
  then Throw DimensionMismatch
  else
    let dotProduct :=
      reduceIndexed (fun sum val i => sum + val * nth i vector2 0) vector1 0%nat 0 in
    let norm1 := calculateVectorNorm vector1 in
    let norm2 := calculateVectorNorm vector2 in
    if Reqb norm1 0 || Reqb norm2 0 then Return 0
    else Return (dotProduct / (norm1 * norm2)).

(** ** inferUserTraitVector *)

Definition zeroTraits : TraitProfile := mkProfile 0 0 0 0 0 0.

Definition profileVector (p : TraitProfile) : list R :=
  [awareness p; affect p; agency p; time p; relationality p; posture p].

(** One round of the [forEach] over [Object.entries(scores)]: the state is
    the pair of the [traits] object and [totalScore]. *)
Definition accumulateTraits (state : TraitProfile * R) (entry : string * R)
    : TraitProfile * R :=
  let '(traits, totalScore) := state in
  let '(archetypeId, score) := entry in
  if Rleb score 0 then state
  else
    match get ARCHETYPE_TRAIT_PROFILES archetypeId with
    | None => state
    | Some profile =>
        (mkProfile (awareness traits + score * awareness profile)
                   (affect traits + score * affect profile)
                   (agency traits + score * agency profile)
                   (time traits + score * time profile)
                   (relationality traits + score * relationality profile)
                   (posture traits + score * posture profile),
         totalScore + score)
    end.

Definition inferUserTraitVector (scores : ScoreMap) : list R :=
  let '(traits, totalScore) := fold_left accumulateTraits scores (zeroTraits, 0) in
  let traits :=
    if Rgtb totalScore 0
    then mkProfile (awareness traits / totalScore) (affect traits / totalScore)
                   (agency traits / totalScore) (time traits / totalScore)
                   (relationality traits / totalScore) (posture traits / totalScore)
    else traits in
  profileVector traits.

(** ** breakTieWithTraits

    The function receives references to the caller's array and object and
    sorts an array in place, so it is modelled over a store of cells. *)

Inductive cell : Type :=
| IdArray (ids : list string)                 (* array of archetype ids *)
| ScoreObject (scores : ScoreMap)             (* a score map *)
| NumberArray (numbers : list R)              (* a vector *)
| SimilarityArray (entries : list (string * R)).
                                              (* array of {archetypeId, similarity} *)

Definition ref : Type := nat.
Definition heap : Type := list cell.

Definition M (A : Type) : Type := heap -> outcome A * heap.

Definition ret {A : Type} (a : A) : M A := fun h => (Return a, h).
Definition raise {A : Type} (e : error) : M A := fun h => (Throw e, h).
Definition mbind {A B : Type} (c : M A) (k : A -> M B) : M B :=
  fun h =>
    match c h with
    | (Return a, h') => k a h'
    | (Throw e, h') => (Throw e, h')
    end.
Definition lift {A : Type} (o : outcome A) : M A := fun h => (o, h).

Notation "x <~ c ;; k" := (mbind c (fun x => k))
  (at level 61, c at next level, right associativity).

Definition alloc (c : cell) : M ref :=
  fun h => (Return (List.length h), h ++ [c]).

Definition deref (r : ref) : M cell :=
  fun h =>
    match nth_error h r with
    | Some c => (Return c, h)
    | None => (Throw TypeError, h)
    end.

Fixpoint replaceNth (r : ref) (c : cell) (h : heap) : heap :=
  match h, r with
  | [], _ => []
  | _ :: rest, O => c :: rest
  | c' :: rest, S r' => c' :: replaceNth r' c rest
  end.

Definition assign (r : ref) (c : cell) : M unit :=
  fun h => (Return tt, replaceNth r c h).

Definition readIds (r : ref) : M (list string) :=
  c <~ deref r ;;
  match c with IdArray ids => ret ids | _ => raise TypeError end.

Definition readScores (r : ref) : M ScoreMap :=
  c <~ deref r ;;
  match c with ScoreObject scores => ret scores | _ => raise TypeError end.

Definition readNumbers (r : ref) : M (list R) :=
  c <~ deref r ;;
  match c with NumberArray v => ret v | _ => raise TypeError end.

Definition readSimilarities (r : ref) : M (list (string * R)) :=
  c <~ deref r ;;
  match c with SimilarityArray l => ret l | _ => raise TypeError end.

(** [similarities.sort(compareFn)]: sorts the array behind [r] in place. *)
Definition sortInPlace (r : ref) (compareFn : string * R -> string * R -> R) : M unit :=
  l <~ readSimilarities r ;;
  assign r (SimilarityArray (sort compareFn l)).

(** The callback of [tiedArchetypeIds.map]. *)
Definition similarityOf (userTraitVector : list R) (archetypeId : string)
    : outcome (string * R) :=
  match get ARCHETYPE_TRAIT_PROFILES archetypeId with
  | None => Return (archetypeId, 0)                  (* warning *)
  | Some archetypeProfile =>
      let archetypeVector := profileVector archetypeProfile in
      similarity <- calculateCosineSimilarity userTraitVector archetypeVector ;;
      Return (archetypeId, similarity)
  end.

Fixpoint mapOutcome {A B : Type} (f : A -> outcome B) (l : list A) : outcome (list B) :=
  match l with
  | [] => Return []
  | a :: l' => b <- f a ;; bs <- mapOutcome f l' ;; Return (b :: bs)
  end.

Definition compareSimilarity (a b : string * R) : R :=
  let simDiff := snd b - snd a in
  if Rltb (Rabs simDiff) 0.0001 then localeCompare (fst a) (fst b) else simDiff.

Definition breakTieWithTraits (tiedArchetypeIds allScores : ref) : M string :=
  scores <~ readScores allScores ;;
  userTraitVector <~ alloc (NumberArray (inferUserTraitVector scores)) ;;
  vector <~ readNumbers userTraitVector ;;
  ids <~ readIds tiedArchetypeIds ;;
  entries <~ lift (mapOutcome (similarityOf vector) ids) ;;
  similarities <~ alloc (SimilarityArray entries) ;;
  _ <~ sortInPlace similarities compareSimilarity ;;
  sorted <~ readSimilarities similarities ;;
  match sorted with
  | [] => raise TypeError                            (* similarities[0] is undefined *)
  | top :: _ => ret (fst top)
  end.

(** A call from code that holds the two values: they are placed in a fresh
    store and the returned identifier is kept. *)
Definition callBreakTieWithTraits (tied : list string) (allScores : ScoreMap)
    : outcome string :=
  fst (breakTieWithTraits 0%nat 1%nat [IdArray tied; ScoreObject allScores]).

(** ** Visualization support *)

Inductive Dimension : Type :=
| DimAwareness | DimAffect | DimAgency | DimTime | DimRelationality | DimPosture.

Definition dimensionName (d : Dimension) : string :=
  match d with
  | DimAwareness => "awareness"
  | DimAffect => "affect"
  | DimAgency => "agency"
  | DimTime => "time"
  | DimRelationality => "relationality"
  | DimPosture => "posture"
  end.

(** [traitProfile[dimension]] *)
Definition traitOf (traitProfile : TraitProfile) (d : Dimension) : R :=
  match d with
  | DimAwareness => awareness traitProfile
  | DimAffect => affect traitProfile
  | DimAgency => agency traitProfile
  | DimTime => time traitProfile
  | DimRelationality => relationality traitProfile
  | DimPosture => posture traitProfile
  end.

Definition dimensions : list Dimension :=
  [DimAwareness; DimAffect; DimAgency; DimTime; DimRelationality; DimPosture].

Module Coordinate.
Record t : Type := mk {
    dimension : string;
    angle : R;
    angleDegrees : R;
    radius : R;
    rawValue : R;
    x : R;
    y : R
  }.
End Coordinate.

(** [array.map((element, index) => ...)] *)
Fixpoint mapIndexedFrom {A B : Type} (f : A -> nat -> B) (l : list A) (i : nat) : list B :=
  match l with
  | [] => []
  | a :: l' => f a i :: mapIndexedFrom f l' (S i)
  end.
Definition mapIndexed {A B : Type} (f : A -> nat -> B) (l : list A) : list B :=
  mapIndexedFrom f l 0.

Definition radarPoint (traitProfile : TraitProfile) (dimension : Dimension) (index : nat)
    : Coordinate.t :=
  let value := traitOf traitProfile dimension in
  let value :=
    match dimension with
    | DimAffect | DimTime => (value + 1) / 2
    | _ => value
    end in
  let angleRadians := INR index / 6 * 2 * PI in
  let radius := value in
  let x := radius * cos angleRadians in
  let y := radius * sin angleRadians in
  Coordinate.mk (dimensionName dimension) angleRadians (angleRadians * 180 / PI)
                radius (traitOf traitProfile dimension) x y.

(** The argument is [None] when the caller passes [undefined]; the first
    property read [traitProfile[dimension]] then raises a TypeError. *)
Definition calculateRadarChartCoordinates (traitProfile : option TraitProfile)
    : outcome (list Coordinate.t) :=
  match traitProfile with
  | None => Throw TypeError
  | Some profile => Return (mapIndexed (radarPoint profile) dimensions)
  end.

Definition originPoint : Coordinate.t := Coordinate.mk "" 0 0 0 0 0 0.

(** The [for] loop reads [coordinates[i]] and [coordinates[(i + 1) % n]]
    with [i < n]; both indices are in range, the default of [nth] is never
    returned. *)
Definition calculateRadarChartArea (coordinates : list Coordinate.t) : R :=
  let n := List.length coordinates in
  let area :=
    fold_left
      (fun area i =>
         let current := nth i coordinates originPoint in
         let next := nth ((i + 1) mod n) coordinates originPoint in
         area + (Coordinate.x current * Coordinate.y next
                 - Coordinate.x next * Coordinate.y current))
      (seq 0 n) 0 in
  Rabs area / 2.

Module Distribution.
Record t : Type := mk {
    archetypeId : string;
    score : R;
    percentage : R
  }.
End Distribution.

Definition calculateScoreDistribution (scores : ScoreMap) : list Distribution.t :=
  let totalScore := fold_left (fun sum score => sum + score) (values scores) 0 in
  if Reqb totalScore 0
  then map (fun id => Distribution.mk id 0 0) (keys scores)
  else
    sort (fun a b => Distribution.score b - Distribution.score a)
         (map (fun e => Distribution.mk (fst e) (snd e) (snd e / totalScore * 100))
              scores).

(** ** scoreQuiz *)

Record Options : Type := mkOptions {
  tieTolerance : option R;
  breakTiesWithTraits : option bool;
  includeVisualizations : option bool
}.

(** [options = {}] *)
Definition defaultOptions : Options := mkOptions None None None.

Module Visualizations.
Record t : Type := mk {
    radarChart_coordinates : list Coordinate.t;
    radarChart_area : R;
    scoreDistribution : list Distribution.t;
    primaryArchetypeRadar_coordinates : list Coordinate.t
  }.
End Visualizations.

Module QuizResult.
Record t : Type := mk {
    primary : option string;               (* [None]: [undefined] *)
    primaryScore : option R;
    dominantArchetypes : list string;
    dominantScores : ScoreMap;
    hasTie : bool;
    tieThreshold : R;
    allScores : ScoreMap;
    normalizedScores : ScoreMap;
    maxScore : R;
    variance : R;
    confidence : Confidence.t;
    userTraitProfile : TraitProfile;
    userTraitVector : list R;
    visualizations : option Visualizations.t;   (* [None]: [null] *)
    questionsAnswered : nat;
    totalQuestions : nat;
    isComplete : bool
  }.
End QuizResult.

Definition orDefault {A : Type} (o : option A) (d : A) : A :=
  match o with Some a => a | None => d end.

(** [obj[key]] where [key] may be [undefined]: no dictionary of the engine
    has a key named "undefined". *)
Definition getAt {V : Type} (obj : object V) (key : option string) : option V :=
  match key with
  | Some k => get obj k
  | None => None
  end.

Definition scoreQuiz (questions : list Question) (userResponses : list Response)
    (options : Options) : outcome QuizResult.t :=
  let tieTolerance := orDefault (tieTolerance options) TIE_TOLERANCE in
  let breakTiesWithTraits := orDefault (breakTiesWithTraits options) true in
  let includeVisualizations := orDefault (includeVisualizations options) true in
  (* Step 1 *)
  let scores := calculateArchetypeScores questions userResponses in
  (* Step 2 *)
  dominantResult <- determineDominantArchetypes scores tieTolerance ;;
  (* Step 3 *)
  let confidence := calculateConfidence scores in
  (* Step 4 *)
  primaryArchetype <-
    (if Dominance.hasTie dominantResult && breakTiesWithTraits
     then winner <- callBreakTieWithTraits (Dominance.dominant dominantResult) scores ;;
          Return (Some winner)
     else Return (nth_error (Dominance.dominant dominantResult) 0)) ;;
  (* Step 5 *)
  normalizedScores <- normalizeScores scores questions ;;
  (* Step 6 *)
  let userTraitVector := inferUserTraitVector scores in
  let userTraitProfile :=
    mkProfile (nth 0 userTraitVector 0) (nth 1 userTraitVector 0)
              (nth 2 userTraitVector 0) (nth 3 userTraitVector 0)
              (nth 4 userTraitVector 0) (nth 5 userTraitVector 0) in
  (* Step 7 *)
  visualizations <-
    (if includeVisualizations
     then
       radarCoordinates <- calculateRadarChartCoordinates (Some userTraitProfile) ;;
       let area := calculateRadarChartArea radarCoordinates in
       let scoreDistribution := calculateScoreDistribution scores in
       primaryCoordinates <-
         calculateRadarChartCoordinates
           (getAt ARCHETYPE_TRAIT_PROFILES primaryArchetype) ;;
       Return (Some (Visualizations.mk radarCoordinates area scoreDistribution
                                       primaryCoordinates))
     else Return None) ;;
  (* Step 8 *)
  Return (QuizResult.mk
            primaryArchetype
            (getAt scores primaryArchetype)
            (Dominance.dominant dominantResult)
            (Dominance.scores dominantResult)
            (Dominance.hasTie dominantResult)
            (Dominance.threshold dominantResult)
            scores
            normalizedScores
            (Dominance.maxScore dominantResult)
            (Dominance.variance dominantResult)
            confidence
            userTraitProfile
            userTraitVector
            visualizations
            (List.length userResponses)
            (List.length questions)
            (Nat.eqb (List.length userResponses) (List.length questions))).

(** ** Validation

    The validators are documented to accept anything, so their inputs are
    untyped JavaScript values. *)

#[local] Set Warnings "-register-all".
Inductive value : Type :=
| Undefined
| Null
| Bool (b : bool)
| Number (n : R)
| Str (s : string)
| Array (items : list value)
| Object (fields : list (string * value)).

(** [!!v] *)
Definition truthy (v : value) : bool :=
  match v with
  | Undefined | Null => false
  | Bool b => b
  | Number n => negb (Reqb n 0)
  | Str s => negb (String.eqb s "")
  | Array _ | Object _ => true
  end.

Definition isArray (v : value) : bool :=
  match v with Array _ => true | _ => false end.

(** [typeof v === 'object'] *)
Definition typeofObject (v : value) : bool :=
  match v with Null | Array _ | Object _ => true | _ => false end.

(** [v.name] for the data properties the validators read (id, text,
    answers, archetypeScores, questionId, answerId): a read on [undefined]
    or [null] raises a TypeError, a primitive or an array has none of them. *)
Definition getProp (v : value) (name : string) : outcome value :=
  match v with
  | Undefined | Null => Throw TypeError
  | Object fields => Return (orDefault (get fields name) Undefined)
  | _ => Return Undefined
  end.

(** [a === b]; two arrays or objects met in the input are distinct
    references. *)
Definition strictEquals (a b : value) : bool :=
  match a, b with
  | Undefined, Undefined => true
  | Null, Null => true
  | Bool x, Bool y => Bool.eqb x y
  | Number x, Number y => Reqb x y
  | Str x, Str y => String.eqb x y
  | _, _ => false
  end.

(** [a || b] in a template literal: the question's id, or its index. *)
Inductive label : Type :=
| LabelValue (v : value)
| LabelIndex (index : nat).

Definition orIndex (v : value) (index : nat) : label :=
  if truthy v then LabelValue v else LabelIndex index.

(** The messages pushed on [errors], with the interpolated values kept as
    arguments. *)
Inductive violation : Type :=
| QuestionsMustBeArray
| QuizMustHaveQuestion
| QuestionMissingId (index : nat)
| QuestionMissingText (question : label)
| QuestionMustHaveAnswer (question : label)
| AnswerMissingId (aIndex : nat) (question : label)
| AnswerMissingArchetypeScores (answer question : label)
| ResponsesMustBeArray
| ResponseMissingQuestionId (index : nat)
| ResponseMissingAnswerId (index : nat)
| UnknownQuestion (questionId : value)
| UnknownAnswer (answerId questionId : value).

Module Validation.
Record t : Type := mk {
    valid : bool;
    errors : list violation
  }.
End Validation.

Definition isEmpty {A : Type} (l : list A) : bool :=
  match l with [] => true | _ => false end.

Definition pushIf (condition : bool) (v : violation) (errors : list violation)
    : list violation :=
  if condition then errors ++ [v] else errors.

(** [array.forEach((element, index) => ...)] with a callback that updates
    [errors] and may throw. *)
Fixpoint forEachFrom {St : Type} (f : St -> value -> nat -> outcome St)
    (l : list value) (i : nat) (s : St) : outcome St :=
  match l with
  | [] => Return s
  | a :: l' => s' <- f s a i ;; forEachFrom f l' (S i) s'
  end.

(** [v.forEach(callback)]: only an array has the method. *)
Definition forEach {St : Type} (v : value) (f : St -> value -> nat -> outcome St)
    (s : St) : outcome St :=
  match v with
  | Array items => forEachFrom f items 0 s
  | _ => Throw TypeError
  end.

Definition validateAnswer (qLabel : label) (errors : list violation)
    (a : value) (aIndex : nat) : outcome (list violation) :=
  aId <- getProp a "id" ;;
  let errors := pushIf (negb (truthy aId)) (AnswerMissingId aIndex qLabel) errors in
  aScores <- getProp a "archetypeScores" ;;
  Return (pushIf (negb (truthy aScores) || negb (typeofObject aScores))
                 (AnswerMissingArchetypeScores (orIndex aId aIndex) qLabel) errors).

Definition validateQuestion (errors : list violation) (q : value) (index : nat)
    : outcome (list violation) :=
  qId <- getProp q "id" ;;
  let errors := pushIf (negb (truthy qId)) (QuestionMissingId index) errors in
  qText <- getProp q "text" ;;
  let qLabel := orIndex qId index in
  let errors := pushIf (negb (truthy qText)) (QuestionMissingText qLabel) errors in
  qAnswers <- getProp q "answers" ;;
  let errors :=
    pushIf (negb (isArray qAnswers)
            || match qAnswers with Array items => isEmpty items | _ => false end)
           (QuestionMustHaveAnswer qLabel) errors in
  if truthy qAnswers
  then forEach qAnswers (validateAnswer qLabel) errors
  else Return errors.

Definition validateQuizData (questions : value) : outcome Validation.t :=
  match questions with
  | Array items =>
      let errors := pushIf (isEmpty items) QuizMustHaveQuestion [] in
      errors <- forEachFrom validateQuestion items 0 errors ;;
      Return (Validation.mk (isEmpty errors) errors)
  | _ => Return (Validation.mk false [QuestionsMustBeArray])
  end.

Section PropertyKeys.
  (** [String(n)] for a number; the validators only use it to build the key
      under which a question with a numeric id is stored. *)
Variable numberToString : R -> string.

Fixpoint joinWith (sep : string) (parts : list string) : string :=
    match parts with
    | [] => ""
    | [p] => p
    | p :: rest => p ++ sep ++ joinWith sep rest
    end.

  (** The property key [obj[v]] uses. *)
Fixpoint toPropertyKey (v : value) : string :=
    match v with
    | Undefined => "undefined"
    | Null => "null"
    | Bool true => "true"
    | Bool false => "false"
    | Number n => numberToString n
    | Str s => s
    | Array items =>
        joinWith ","
          (map (fun item =>
                  match item with
                  | Undefined | Null => ""
                  | _ => toPropertyKey item
                  end) items)
    | Object _ => "[object Object]"
    end.

Definition registerQuestion (questionMap : object value) (q : value) (index : nat)
      : outcome (object value) :=
    qId <- getProp q "id" ;;
    Return (set questionMap (toPropertyKey qId) q).

  (** [answers.find(a => a.id === answerId)]: only an array has the method;
      the callback reads [a.id]. *)
Fixpoint findAnswerFrom (answerId : value) (items : list value) : outcome value :=
    match items with
    | [] => Return Undefined
    | a :: rest =>
        aId <- getProp a "id" ;;
        if strictEquals aId answerId then Return a else findAnswerFrom answerId rest
    end.

Definition findAnswer (answers answerId : value) : outcome value :=
    match answers with
    | Array items => findAnswerFrom answerId items
    | _ => Throw TypeError
    end.

Definition validateResponse (questionMap : object value) (errors : list violation)
      (response : value) (index : nat) : outcome (list violation) :=
    rQuestionId <- getProp response "questionId" ;;
    if negb (truthy rQuestionId)
    then Return (errors ++ [ResponseMissingQuestionId index])
    else
      rAnswerId <- getProp response "answerId" ;;
      if negb (truthy rAnswerId)
      then Return (errors ++ [ResponseMissingAnswerId index])
      else
        let question :=
          orDefault (get questionMap (toPropertyKey rQuestionId)) Undefined in
        if negb (truthy question)
        then Return (errors ++ [UnknownQuestion rQuestionId])
        else
          qAnswers <- getProp question "answers" ;;
          answer <- findAnswer qAnswers rAnswerId ;;
          Return (pushIf (negb (truthy answer))
                         (UnknownAnswer rAnswerId rQuestionId) errors).

Definition validateUserResponses (questions userResponses : value)
      : outcome Validation.t :=
    match userResponses with
    | Array responses =>
        questionMap <- forEach questions registerQuestion [] ;;
        errors <- forEachFrom (validateResponse questionMap) responses 0 [] ;;
        Return (Validation.mk (isEmpty errors) errors)
    | _ => Return (Validation.mk false [ResponsesMustBeArray])
    end.
End PropertyKeys.

(** ** The specification's side of the refinement claims

    These definitions follow the words of the specification; the theorems
    below compare them with the functions embedded from the source. *)

Definition Rsum (l : list R) : R := fold_right Rplus 0 l.

(** Conservation: a response is processed when its questionId resolves to
    a question (with several questions of one id, the one stored last) and
    its answerId resolves to an answer of that question. *)
Definition resolveQuestion (questions : list Question) (id : string) : option Question :=
  find (fun q => String.eqb (question_id q) id) (rev questions).

Definition resolveAnswer (q : Question) (id : string) : option Answer :=
  find (fun a => String.eqb (answer_id a) id) (answers q).

Definition resolve (questions : list Question) (r : Response)
    : option (Question * Answer) :=
  match resolveQuestion questions (questionId r) with
  | None => None
  | Some q =>
      match resolveAnswer q (answerId r) with
      | None => None
      | Some a => Some (q, a)
      end
  end.

Definition processedResponses (questions : list Question) (responses : list Response)
    : list (Question * Answer) :=
  flat_map (fun r => match resolve questions r with Some qa => [qa] | None => [] end)
           responses.

Definition answerPoints (a : Answer) : R :=
  match archetypeScores a with
  | Some points => Rsum (values points)
  | None => 0
  end.

Definition awardedPoints (questions : list Question) (responses : list Response) : R :=
  Rsum (map (fun qa => orDefault (weight (fst qa)) 1 * answerPoints (snd qa))
            (processedResponses questions responses)).

(** Trait inference: the archetypes that contribute are those with a
    strictly positive score and a catalogued profile. *)
Definition contributions (scores : ScoreMap) : list (R * TraitProfile) :=
  flat_map (fun e =>
              match get ARCHETYPE_TRAIT_PROFILES (fst e) with
              | Some profile => if Rltb 0 (snd e) then [(snd e, profile)] else []
              | None => []
              end) scores.

Definition weightedTraitSum (scores : ScoreMap) (d : Dimension) : R :=
  Rsum (map (fun c => fst c * traitOf (snd c) d) (contributions scores)).

Definition contributingScore (scores : ScoreMap) : R :=
  Rsum (map fst (contributions scores)).

(** Confidence: the strictly positive entries of a score map. *)
Definition positiveEntries (scores : ScoreMap) : list (string * R) :=
  filter (fun e => Rltb 0 (snd e)) scores.

Definition levelOf (confidence : R) : ConfidenceLevel :=
  if Rleb 0.5 confidence then STRONG
  else if Rleb 0.2 confidence then MODERATE
  else WEAK.

(** Vector primitives, as the specification writes them. *)
Definition dotProduct (u v : list R) : R :=
  Rsum (map (fun p => fst p * snd p) (combine u v)).

Definition squaredLength (v : list R) : R := Rsum (map (fun x => x * x) v).

Definition euclideanNorm (v : list R) : R := sqrt (squaredLength v).

(** The order [calculateConfidence] sorts into. *)
Definition descending (a b : string * R) : Prop := snd b <= snd a.

(** ** Inputs used in the statements below *)

(** A quiz whose only answer awards points to an archetype that the
    catalogue does not list, and the response that selects it. *)
Definition dynamicQuiz : list Question :=
  [mkQuestion "q1" "Which one?" None
     [mkAnswer "a" "The new one" (Some [("dynamic-archetype", 5)])]].

Definition dynamicResponses : list Response := [mkResponse "q1" "a"].

(** [{id: 'q1', text: 'Which one?', answers: 'none'}]: the answers are a
    string, not an array. *)
Definition quizWithStringAnswers : value :=
  Array [Object [("id", Str "q1"); ("text", Str "Which one?"); ("answers", Str "none")]].

(** [{id: 'q1', text: 'Which one?'}]: a question without answers, and a
    response that refers to it. *)
Definition quizWithoutAnswers : value :=
  Array [Object [("id", Str "q1"); ("text", Str "Which one?")]].

Definition responseToQ1 : value :=
  Array [Object [("questionId", Str "q1"); ("answerId", Str "a")]].

(** The scores of the tie-break test of the test suite. *)
Definition testScores : ScoreMap :=
  [("ostrich", 5); ("prepper", 5); ("apocaloptimist", 10)].

(** A value whose properties can be read. *)
Definition readable (v : value) : bool :=
  match v with Undefined | Null => false | _ => true end.

(** A question validateQuizData can walk: its properties can be read and
    its [answers], when truthy, are an array of readable values. *)
Definition walkable (q : value) : bool :=
  match q with
  | Undefined | Null => false
  | Object fields =>
      match orDefault (get fields "answers") Undefined with
      | Array items => forallb readable items
      | answers => negb (truthy answers)
      end
  | _ => true
  end.

(** ** Identifiers

    A dictionary is read as the list of its own entries in insertion order.
    That is what JavaScript does for every key except the names each object
    inherits from [Object.prototype] and the array indices, which
    [Object.keys] lists first.  The identifiers of a quiz are kebab-case
    words; the properties about arbitrary quizzes are stated for plain
    identifiers. *)
Definition inheritedNames : list string :=
  [ "constructor"; "__proto__"; "hasOwnProperty"; "isPrototypeOf";
    "propertyIsEnumerable"; "toLocaleString"; "toString"; "valueOf";
    "__defineGetter__"; "__defineSetter__"; "__lookupGetter__"; "__lookupSetter__" ].

Definition isDigit (c : ascii) : bool :=
  Nat.leb 48 (nat_of_ascii c) && Nat.leb (nat_of_ascii c) 57.

Definition startsWithDigit (k : string) : bool :=
  match k with
  | String c _ => isDigit c
  | EmptyString => false
  end.

Definition plainKey (k : string) : bool :=
  negb (existsb (String.eqb k) inheritedNames) && negb (startsWithDigit k).

Definition plainScores (scores : ScoreMap) : bool := forallb plainKey (keys scores).

Definition plainAnswer (a : Answer) : bool :=
  match archetypeScores a with
  | Some points => plainScores points
  | None => true
  end.

Definition plainQuestion (q : Question) : bool :=
  plainKey (question_id q) && forallb plainAnswer (answers q).

Definition plainQuiz (questions : list Question) (userResponses : list Response) : bool :=
  forallb plainQuestion questions
  && forallb (fun r => plainKey (questionId r)) userResponses.

(** Whether the catalogue lists an archetype. *)
Definition catalogued (archetypeId : string) : bool :=
  match get ARCHETYPE_TRAIT_PROFILES archetypeId with Some _ => true | None => false end.

(** The points one answer awards to one archetype. *)
Definition pointsFor (archetypeId : string) (a : Answer) : R :=
  match archetypeScores a with
  | Some points =>
      Rsum (map snd (filter (fun e => String.eqb (fst e) archetypeId) points))
  | None => 0
  end.

Definition awardsTo (archetypeId : string) (a : Answer) : bool :=
  match archetypeScores a with
  | Some points => existsb (fun e => String.eqb (fst e) archetypeId) points
  | None => false
  end.

(** S(A) = sum of w_i * p_i(A) over the processed responses. *)
Definition scoreFormula (archetypeId : string)
    (questions : list Question) (responses : list Response) : R :=
  Rsum (map (fun qa => orDefault (weight (fst qa)) 1 * pointsFor archetypeId (snd qa))
            (processedResponses questions responses)).

Definition mentioned (archetypeId : string)
    (questions : list Question) (responses : list Response) : bool :=
  existsb (fun qa => awardsTo archetypeId (snd qa)) (processedResponses questions responses).

(** Whether a response's question and answer ids both resolve. *)
Definition resolves (questions : list Question) (r : Response) : bool :=
  match resolve questions r with Some _ => true | None => false end.

(** The entries of a score map at or above a threshold. *)
Definition entriesAtLeast (threshold : R) (scores : ScoreMap) : list (string * R) :=
  filter (fun e => Rleb threshold (snd e)) scores.

(** The total weight of a quiz, a missing weight counting 1. *)
Definition totalWeight (questions : list Question) : R :=
  Rsum (map (fun q => orDefault (weight q) 1) questions).

Definition scaleVector (c : R) (v : list R) : list R := map (fun x => c * x) v.

(** The documented range of each dimension of a trait profile. *)
Definition inRange (p : TraitProfile) : Prop :=
  0 <= awareness p <= 1 /\ -1 <= affect p <= 1 /\ 0 <= agency p <= 1 /\
  -1 <= time p <= 1 /\ 0 <= relationality p <= 1 /\ 0 <= posture p <= 1.

Definition lowerBound (d : Dimension) : R :=
  match d with DimAffect | DimTime => -1 | _ => 0 end.

(** A score map with every score multiplied by [c]. *)
Definition scaleScores (c : R) (scores : ScoreMap) : ScoreMap :=
  map (fun e => (fst e, c * snd e)) scores.

(** The radius the radar chart gives a dimension: affect and time are
    mapped from [-1, 1] to [0, 1]. *)
Definition radiusOf (p : TraitProfile) (d : Dimension) : R :=
  match d with
  | DimAffect | DimTime => (traitOf p d + 1) / 2
  | _ => traitOf p d
  end.

(** The sum of the products of neighbouring radii around the chart. *)
Definition neighbourProducts (p : TraitProfile) : R :=
  radiusOf p DimAwareness * radiusOf p DimAffect
  + radiusOf p DimAffect * radiusOf p DimAgency
  + radiusOf p DimAgency * radiusOf p DimTime
  + radiusOf p DimTime * radiusOf p DimRelationality
  + radiusOf p DimRelationality * radiusOf p DimPosture
  + radiusOf p DimPosture * radiusOf p DimAwareness.

(** A point of the chart at the centre. *)
Definition atCentre (c : Coordinate.t) : Prop :=
  Coordinate.x c = 0 /\ Coordinate.y c = 0.

(** The bar of one archetype when the scores sum to [total]. *)
Definition barOf (total : R) (e : string * R) : Distribution.t :=
  Distribution.mk (fst e) (snd e) (snd e / total * 100).

Definition byScoreDescending (a b : Distribution.t) : Prop :=
  Distribution.score b <= Distribution.score a.

(** The options with which the application calls scoreQuiz. *)
Definition applicationOptions : Options := mkOptions (Some 0.05) (Some true) (Some false).

(** The same options with the visualizations switched off. *)
Definition withoutVisualizations (options : Options) : Options :=
  mkOptions (tieTolerance options) (breakTiesWithTraits options) (Some false).

(** A result with its visualizations field replaced. *)
Definition withVisualizations (r : QuizResult.t) (v : option Visualizations.t)
    : QuizResult.t :=
  QuizResult.mk (QuizResult.primary r) (QuizResult.primaryScore r)
    (QuizResult.dominantArchetypes r) (QuizResult.dominantScores r)
    (QuizResult.hasTie r) (QuizResult.tieThreshold r) (QuizResult.allScores r)
    (QuizResult.normalizedScores r) (QuizResult.maxScore r) (QuizResult.variance r)
    (QuizResult.confidence r) (QuizResult.userTraitProfile r)
    (QuizResult.userTraitVector r) v (QuizResult.questionsAnswered r)
    (QuizResult.totalQuestions r) (QuizResult.isComplete r).

(** ** Typed quiz data as JavaScript values

    The questions, answers and responses of the scoring functions, as the
    objects the validators receive. *)
Definition scoresToValue (points : ScoreMap) : value :=
  Object (map (fun e => (fst e, Number (snd e))) points).

Definition answerToValue (a : Answer) : value :=
  Object ([("id", Str (answer_id a)); ("text", Str (answer_text a))]
          ++ match archetypeScores a with
             | Some points => [("archetypeScores", scoresToValue points)]
             | None => []
             end).

Definition questionToValue (q : Question) : value :=
  Object ([("id", Str (question_id q)); ("text", Str (question_text q))]
          ++ match weight q with
             | Some w => [("weight", Number w)]
             | None => []
             end
          ++ [("answers", Array (map answerToValue (answers q)))]).

Definition quizToValue (questions : list Question) : value :=
  Array (map questionToValue questions).

Definition responseToValue (r : Response) : value :=
  Object [("questionId", Str (questionId r)); ("answerId", Str (answerId r))].

Definition responsesToValue (userResponses : list Response) : value :=
  Array (map responseToValue userResponses).

(** What the validators ask of typed data. *)
Definition nonEmpty (s : string) : bool := negb (String.eqb s "").

Definition answerWellFormed (a : Answer) : bool :=
  nonEmpty (answer_id a)
  && match archetypeScores a with Some _ => true | None => false end.

Definition questionWellFormed (q : Question) : bool :=
  nonEmpty (question_id q) && nonEmpty (question_text q)
  && negb (isEmpty (answers q)) && forallb answerWellFormed (answers q).

Definition quizWellFormed (questions : list Question) : bool :=
  negb (isEmpty questions) && forallb questionWellFormed questions.

Definition responseWellFormed (questions : list Question) (r : Response) : bool :=
  nonEmpty (questionId r) && nonEmpty (answerId r) && resolves questions r.

(** ** The order breakTieWithTraits sorts by *)

(** The similarity breakTieWithTraits computes for a tied archetype: the
    cosine between the trait vector inferred from the scores and the
    archetype's profile, 0 for an archetype without a profile. *)
Definition similarityTo (allScores : ScoreMap) (archetypeId : string) : R :=
  match similarityOf (inferUserTraitVector allScores) archetypeId with
  | Return entry => snd entry
  | Throw _ => 0
  end.

(** Entry [a] is sorted before entry [b]: its number is higher by 0.0001 or
    more, or the two numbers are closer than that and the identifier of [a]
    is first alphabetically. *)
Definition rankedBefore (a b : string * R) : Prop :=
  snd b + 0.0001 <= snd a
  \/ (Rabs (snd a - snd b) < 0.0001 /\ String.compare (fst a) (fst b) = Lt).

Definition placedBefore (allScores : ScoreMap) (w x : string) : Prop :=
  rankedBefore (w, similarityTo allScores w) (x, similarityTo allScores x).

(** Identifiers written in lower-case letters and hyphens, on which
    [localeCompare] is the order of the characters. *)
Definition isLowerOrHyphen (c : ascii) : bool :=
  (Nat.leb 97 (nat_of_ascii c) && Nat.leb (nat_of_ascii c) 122)
  || Nat.eqb (nat_of_ascii c) 45.

Fixpoint kebabCase (id : string) : bool :=
  match id with
  | EmptyString => true
  | String c rest => isLowerOrHyphen c && kebabCase rest
  end.

(** The identifiers that the processed responses award points to, in the
    order of the awards. *)
Definition awardedIds (questions : list Question) (responses : list Response)
    : list string :=
  flat_map (fun qa =>
              match archetypeScores (snd qa) with
              | Some points => keys points
              | None => []
              end)
           (processedResponses questions responses).

(** A list of identifiers with one more at its end, unless it is there. *)
Definition addKey (ids : list string) (id : string) : list string :=
  if existsb (fun k => String.eqb k id) ids then ids else ids ++ [id].

(** ** Names that every object inherits

    The engine's dictionaries are objects written as literals or created by
    [{}], so a read [obj[k]] that finds no own entry goes on to
    [Object.prototype]: for the names in [inheritedNames] it yields a
    function (the prototype object itself for [__proto__]), which is truthy
    and has none of the properties the engine reads.  The functions below
    follow the reads that take an identifier from the caller. *)

Module Inherited.

Inductive property (V : Type) : Type :=
| Own (v : V)
| FromPrototype
| Missing.                                 (* [undefined] *)
Arguments Own {V} v.
Arguments FromPrototype {V}.
Arguments Missing {V}.

(** [obj[k]] *)
Definition read {V : Type} (obj : object V) (k : string) : property V :=
  match get obj k with
  | Some v => Own v
  | None => if existsb (String.eqb k) inheritedNames then FromPrototype else Missing
  end.

(** calculateArchetypeScores, for a quiz definition with plain identifiers
    and any response list.  A [questionId] that names an inherited member
    passes [if (!question)], and [question.answers.find] raises a TypeError
    because [question.answers] is [undefined]. *)
Definition scoreResponse (questionMap : object Question)
    (scores : ScoreMap) (response : Response) : outcome ScoreMap :=
  match read questionMap (questionId response) with
  | Missing => Return scores                         (* warning, skipped *)
  | FromPrototype => Throw TypeError
  | Own question =>
      match find (fun a => String.eqb (answer_id a) (answerId response))
                 (answers question) with
      | None => Return scores                        (* warning, skipped *)
      | Some selectedAnswer =>
          let w := match weight question with Some w => w | None => 1.0 end in
          match archetypeScores selectedAnswer with
          | Some points => Return (fold_left (addPoints w) points scores)
          | None => Return scores
          end
      end
  end.

(** [userResponses.forEach(...)], left as soon as the callback throws. *)
Fixpoint scoreResponses (questionMap : object Question)
    (userResponses : list Response) (scores : ScoreMap) : outcome ScoreMap :=
  match userResponses with
  | [] => Return scores
  | response :: rest =>
      scores' <- scoreResponse questionMap scores response ;;
      scoreResponses questionMap rest scores'
  end.

Definition calculateArchetypeScores
    (questions : list Question) (userResponses : list Response) : outcome ScoreMap :=
  scoreResponses (buildQuestionMap questions) userResponses initialScores.

(** A number that may be [NaN]. *)
Inductive number : Type :=
| Finite (r : R)
| NaN.

Definition plus (a b : number) : number :=
  match a, b with
  | Finite x, Finite y => Finite (x + y)
  | _, _ => NaN
  end.

Definition dividedBy (a : number) (d : R) : number :=
  match a with
  | Finite x => Finite (x / d)
  | NaN => NaN
  end.

(** [score * profile.awareness], ..., [score * profile.posture]: a number
    for a profile of the catalogue, [NaN] for an inherited member, whose
    [awareness] is [undefined]. *)
Definition weighted (score : R) (profile : property TraitProfile) : list number :=
  match profile with
  | Own p => map (fun x => Finite (score * x)) (profileVector p)
  | _ => [NaN; NaN; NaN; NaN; NaN; NaN]
  end.

Fixpoint addEach (traits terms : list number) : list number :=
  match traits, terms with
  | t :: traits', x :: terms' => plus t x :: addEach traits' terms'
  | _, _ => []
  end.

(** inferUserTraitVector, for any score map: the state of the [forEach] is
    the six [traits], in the order in which they are returned, and
    [totalScore]. *)
Definition accumulateTraits (state : list number * R) (entry : string * R)
    : list number * R :=
  let '(traits, totalScore) := state in
  let '(archetypeId, score) := entry in
  if Rleb score 0 then state
  else
    match read ARCHETYPE_TRAIT_PROFILES archetypeId with
    | Missing => state                               (* [!profile] *)
    | profile => (addEach traits (weighted score profile), totalScore + score)
    end.

Definition inferUserTraitVector (scores : ScoreMap) : list number :=
  let '(traits, totalScore) :=
    fold_left accumulateTraits scores
              (map Finite (profileVector zeroTraits), 0) in
  if Rgtb totalScore 0
  then map (fun t => dividedBy t totalScore) traits
  else traits.

End Inherited.

(** ** Double-precision numbers

    The engine computes with IEEE 754 binary64 numbers.  The functions
    below are the ones above with the arithmetic of doubles in place of the
    real numbers. *)

Module Doubles.
#[local] Set Warnings "-inexact-float".
#[local] Open Scope float_scope.

Definition calculateVectorNorm (vector : list float) : float :=
  PrimFloat.sqrt (fold_left (fun sum val => sum + val * val) vector 0).

Definition calculateCosineSimilarity (vector1 vector2 : list float) : outcome float :=
  if negb (Nat.eqb (List.length vector1) (List.length vector2))
  then Throw DimensionMismatch
  else
    let dotProduct :=
      reduceIndexed (fun sum val i => sum + val * nth i vector2 0) vector1 0%nat 0 in
    let norm1 := calculateVectorNorm vector1 in
    let norm2 := calculateVectorNorm vector2 in
    if PrimFloat.eqb norm1 0 || PrimFloat.eqb norm2 0 then Return 0
    else Return (dotProduct / (norm1 * norm2)).


Record Answer : Type := mkAnswer {
  answer_id : string;
  answer_text : string;
  archetypeScores : option (object float)
}.

Record Question : Type := mkQuestion {
  question_id : string;
  question_text : string;
  weight : option float;
  answers : list Answer
}.

Definition initialScores : object float :=
  fold_left (fun scores archetypeId => set scores archetypeId 0)
            (keys ARCHETYPE_TRAIT_PROFILES) [].

Definition buildQuestionMap (questions : list Question) : object Question :=
  fold_left (fun questionMap q => set questionMap (question_id q) q) questions [].

Definition addPoints (w : float) (scores : object float) (entry : string * float)
    : object float :=
  let '(archetypeId, points) := entry in
  match get scores archetypeId with
  | Some s => set scores archetypeId (s + w * points)
  | None => set scores archetypeId (w * points)
  end.

Definition scoreResponse (questionMap : object Question)
    (scores : object float) (response : Response) : object float :=
  match get questionMap (questionId response) with
  | None => scores
  | Some question =>
      match find (fun a => String.eqb (answer_id a) (answerId response))
                 (answers question) with
      | None => scores
      | Some selectedAnswer =>
          let w := match weight question with Some w => w | None => 1.0 end in
          match archetypeScores selectedAnswer with
          | Some points => fold_left (addPoints w) points scores
          | None => scores
          end
      end
  end.

Definition calculateArchetypeScores
    (questions : list Question) (userResponses : list Response) : object float :=
  fold_left (scoreResponse (buildQuestionMap questions)) userResponses initialScores.

(** The conservation property in doubles: the responses that are
    processed, and the two sums, added up from the left as [reduce] does. *)
Definition processedResponses (questions : list Question)
    (userResponses : list Response) : list (Question * Answer) :=
  flat_map
    (fun response =>
       match get (buildQuestionMap questions) (questionId response) with
       | None => []
       | Some question =>
           match find (fun a => String.eqb (answer_id a) (answerId response))
                      (answers question) with
           | None => []
           | Some selectedAnswer => [(question, selectedAnswer)]
           end
       end)
    userResponses.

Definition total (l : list float) : float := fold_left PrimFloat.add l 0.

Definition answerPoints (a : Answer) : float :=
  match archetypeScores a with
  | Some points => total (values points)
  | None => 0
  end.

Definition awardedPoints (questions : list Question) (userResponses : list Response)
    : float :=
  total
    (map (fun qa =>
            match weight (fst qa) with Some w => w | None => 1.0 end
            * answerPoints (snd qa))
         (processedResponses questions userResponses)).



End Doubles.

(** * Properties *)

(** ** Comparisons *)

Lemma Rltb_true (a b : R) : Rltb a b = true <-> a < b.
Proof. unfold Rltb. destruct (Rlt_dec a b); split; intros; try lra; discriminate. Qed.

Lemma Rltb_false (a b : R) : Rltb a b = false <-> b <= a.
Proof. unfold Rltb. destruct (Rlt_dec a b); split; intros; try lra; discriminate. Qed.

Lemma Rleb_true (a b : R) : Rleb a b = true <-> a <= b.
Proof. unfold Rleb. destruct (Rle_dec a b); split; intros; try lra; discriminate. Qed.

Lemma Rleb_false (a b : R) : Rleb a b = false <-> b < a.
Proof. unfold Rleb. destruct (Rle_dec a b); split; intros; try lra; discriminate. Qed.

Lemma Rgtb_true (a b : R) : Rgtb a b = true <-> b < a.
Proof. unfold Rgtb. destruct (Rgt_dec a b); split; intros; try lra; discriminate. Qed.

Lemma Rgtb_false (a b : R) : Rgtb a b = false <-> a <= b.
Proof. unfold Rgtb. destruct (Rgt_dec a b); split; intros; try lra; discriminate. Qed.

Lemma Rgeb_true (a b : R) : Rgeb a b = true <-> b <= a.
Proof. unfold Rgeb. destruct (Rge_dec a b); split; intros; try lra; discriminate. Qed.

Lemma Rgeb_false (a b : R) : Rgeb a b = false <-> a < b.
Proof. unfold Rgeb. destruct (Rge_dec a b); split; intros; try lra; discriminate. Qed.

Lemma Reqb_true (a b : R) : Reqb a b = true <-> a = b.
Proof. unfold Reqb. destruct (Req_dec_T a b); split; intros; try lra; discriminate. Qed.

Lemma Reqb_false (a b : R) : Reqb a b = false <-> a <> b.
Proof.
  unfold Reqb. destruct (Req_dec_T a b) as [E|E]; split; intros H.
  - discriminate.
  - contradiction.
  - exact E.
  - reflexivity.
Qed.


(** ** Evaluation on concrete inputs *)

Lemma localeCompare_value (a b : string) (c : comparison) :
  String.compare a b = c ->
  localeCompare a b = match c with Lt => -1 | Eq => 0 | Gt => 1 end.
Proof. intros <-. reflexivity. Qed.

(** One comparison of the goal, decided by linear arithmetic. *)
Ltac real_step :=
  match goal with
  | |- context [Rltb ?a ?b] =>
      first [ rewrite (proj2 (Rltb_true a b)) by lra
            | rewrite (proj2 (Rltb_false a b)) by lra ]
  | |- context [Rleb ?a ?b] =>
      first [ rewrite (proj2 (Rleb_true a b)) by lra
            | rewrite (proj2 (Rleb_false a b)) by lra ]
  | |- context [Rgtb ?a ?b] =>
      first [ rewrite (proj2 (Rgtb_true a b)) by lra
            | rewrite (proj2 (Rgtb_false a b)) by lra ]
  | |- context [Rgeb ?a ?b] =>
      first [ rewrite (proj2 (Rgeb_true a b)) by lra
            | rewrite (proj2 (Rgeb_false a b)) by lra ]
  | |- context [Reqb ?a ?b] =>
      first [ rewrite (proj2 (Reqb_true a b)) by lra
            | rewrite (proj2 (Reqb_false a b)) by lra ]
  | |- context [Rmax ?a ?b] =>
      first [ rewrite (Rmax_left a b) by lra | rewrite (Rmax_right a b) by lra ]
  | |- context [Rmin ?a ?b] =>
      first [ rewrite (Rmin_left a b) by lra | rewrite (Rmin_right a b) by lra ]
  | |- context [Rabs ?a] =>
      first [ rewrite (Rabs_pos_eq a) by lra | rewrite (Rabs_left1 a) by lra ]
  | |- context [localeCompare ?a ?b] =>
      let c := eval vm_compute in (String.compare a b) in
      rewrite (localeCompare_value a b c) by (vm_compute; reflexivity)
  end.

(** Runs the list and string computations of a goal and decides its
    comparisons. *)
Ltac evaluate :=
  repeat first
    [ progress cbn [map fold_left fold_right fst snd filter insertSorted sort app
                    List.length Nat.ltb Nat.leb set get keys values
                    String.eqb Ascii.eqb Bool.eqb negb andb orb bind]
    | real_step ].

(** ** Maximum and minimum of the scores *)

Lemma fold_Rmax_init (l : list R) (a : R) : a <= fold_left Rmax l a.
Proof.
  revert a. induction l as [|x l IH]; intros a; simpl; [lra|].
  specialize (IH (Rmax a x)). pose proof (Rmax_l a x). lra.
Qed.

Lemma fold_Rmax_upper (l : list R) (a x : R) : In x l -> x <= fold_left Rmax l a.
Proof.
  revert a. induction l as [|y l IH]; intros a H; simpl in *; [contradiction|].
  destruct H as [->|H].
  - pose proof (fold_Rmax_init l (Rmax a x)). pose proof (Rmax_r a x). lra.
  - apply IH, H.
Qed.

Lemma fold_Rmax_attained (l : list R) (a : R) : In (fold_left Rmax l a) (a :: l).
Proof.
  revert a. induction l as [|y l IH]; intros a; simpl; [now left|].
  destruct (IH (Rmax a y)) as [H|H].
  - rewrite <- H. unfold Rmax. destruct (Rle_dec a y); auto.
  - right; right; exact H.
Qed.

Lemma fold_Rmin_init (l : list R) (a : R) : fold_left Rmin l a <= a.
Proof.
  revert a. induction l as [|x l IH]; intros a; simpl; [lra|].
  specialize (IH (Rmin a x)). pose proof (Rmin_l a x). lra.
Qed.

Lemma fold_Rmin_lower (l : list R) (a x : R) : In x l -> fold_left Rmin l a <= x.
Proof.
  revert a. induction l as [|y l IH]; intros a H; simpl in *; [contradiction|].
  destruct H as [->|H].
  - pose proof (fold_Rmin_init l (Rmin a x)). pose proof (Rmin_r a x). lra.
  - apply IH, H.
Qed.

Lemma fold_Rmin_attained (l : list R) (a : R) : In (fold_left Rmin l a) (a :: l).
Proof.
  revert a. induction l as [|y l IH]; intros a; simpl; [now left|].
  destruct (IH (Rmin a y)) as [H|H].
  - rewrite <- H. unfold Rmin. destruct (Rle_dec a y); auto.
  - right; right; exact H.
Qed.

(** ** The sort keeps the elements *)

Lemma insertSorted_perm {A : Type} (cmp : A -> A -> R) (a : A) (l : list A) :
  Permutation (insertSorted cmp a l) (a :: l).
Proof.
  induction l as [|b l IH]; simpl; [reflexivity|].
  destruct (Rgtb (cmp a b) 0); [|reflexivity].
  rewrite IH. apply perm_swap.
Qed.

Lemma sort_perm {A : Type} (cmp : A -> A -> R) (l : list A) :
  Permutation (sort cmp l) l.
Proof.
  induction l as [|a l IH]; simpl; [reflexivity|].
  rewrite insertSorted_perm. now constructor.
Qed.

Lemma sort_In {A : Type} (cmp : A -> A -> R) (l : list A) (a : A) :
  In a (sort cmp l) <-> In a l.
Proof.
  split; apply Permutation_in; [|symmetry]; apply sort_perm.
Qed.

(** ** determineDominantArchetypes: the maximum and the dominant set *)

Lemma scores_max_is (first : string * R) (rest : ScoreMap) (s : R) :
  (exists id, In (id, s) (first :: rest)) ->
  (forall e, In e (first :: rest) -> snd e <= s) ->
  fold_left Rmax (map snd rest) (snd first) = s.
Proof.
  intros [id Hin] Hub.
  apply Rle_antisym.
  - destruct (fold_Rmax_attained (map snd rest) (snd first)) as [H|H].
    + rewrite <- H. apply Hub. now left.
    + apply in_map_iff in H. destruct H as [e [He Hine]].
      rewrite <- He. apply Hub. now right.
  - destruct Hin as [->|Hin]; [apply fold_Rmax_init|].
    apply fold_Rmax_upper. apply in_map_iff. now exists (id, s).
Qed.

Lemma scores_max_spec (first : string * R) (rest : ScoreMap) :
  (forall e, In e (first :: rest) -> snd e <= fold_left Rmax (map snd rest) (snd first)) /\
  (exists e, In e (first :: rest) /\ snd e = fold_left Rmax (map snd rest) (snd first)).
Proof.
  split.
  - intros e [<-|H]; [apply fold_Rmax_init|].
    apply fold_Rmax_upper, in_map, H.
  - destruct (fold_Rmax_attained (map snd rest) (snd first)) as [H|H].
    + exists first. split; [now left|exact H].
    + apply in_map_iff in H. destruct H as [e [He Hin]].
      exists e. split; [now right|exact He].
Qed.

Lemma scores_min_spec (first : string * R) (rest : ScoreMap) :
  (forall e, In e (first :: rest) -> fold_left Rmin (map snd rest) (snd first) <= snd e) /\
  (exists e, In e (first :: rest) /\ snd e = fold_left Rmin (map snd rest) (snd first)).
Proof.
  split.
  - intros e [<-|H]; [apply fold_Rmin_init|].
    apply fold_Rmin_lower, in_map, H.
  - destruct (fold_Rmin_attained (map snd rest) (snd first)) as [H|H].
    + exists first. split; [now left|exact H].
    + apply in_map_iff in H. destruct H as [e [He Hin]].
      exists e. split; [now right|exact He].
Qed.

(** C1, as the code has it.  When the archetype [id] achieves the maximum
    score [s] of the map and [eps * s] is not negative (in particular for a
    non-negative maximum and a non-negative tolerance), the call either
    raises NoValidScores or returns a result whose [maxScore] is [s] and
    whose dominant set contains [id], so that the set is not empty. *)
Theorem dominant_set_contains_maximum :
  forall (scores : ScoreMap) (eps : R) (id : string) (s : R),
    In (id, s) scores ->
    (forall e, In e scores -> snd e <= s) ->
    0 <= eps * s ->
    determineDominantArchetypes scores eps = Throw NoValidScores \/
    exists r, determineDominantArchetypes scores eps = Return r /\
              Dominance.maxScore r = s /\
              In id (Dominance.dominant r) /\ Dominance.dominant r <> [].
Proof.
  intros scores eps id s Hin Hub Hpos.
  destruct scores as [|first rest]; [destruct Hin|].
  unfold determineDominantArchetypes.
  rewrite (scores_max_is first rest s) by eauto.
  destruct (Rltb _ _ && Reqb s 0); [now left|right].
  eexists; split; [reflexivity|]. cbn [Dominance.maxScore Dominance.dominant].
  assert (In id (map fst (sort compareDominant
             (filter (fun e => Rgeb (snd e) (s * (1 - eps))) (first :: rest))))) as H.
  { apply in_map_iff. exists (id, s). split; [reflexivity|].
    apply sort_In. apply filter_In. split; [exact Hin|].
    apply Rgeb_true. simpl. lra. }
  split; [reflexivity|]. split; [exact H|].
  intros E. rewrite E in H. destruct H.
Qed.

(** The theorem at the map {ostrich: 2, prepper: 10} and the default
    tolerance. *)
Lemma dominant_set_contains_maximum_witness :
  determineDominantArchetypes [("ostrich", 2); ("prepper", 10)] TIE_TOLERANCE
    = Throw NoValidScores \/
  exists r, determineDominantArchetypes [("ostrich", 2); ("prepper", 10)] TIE_TOLERANCE
              = Return r /\
            Dominance.maxScore r = 10 /\
            In "prepper" (Dominance.dominant r) /\ Dominance.dominant r <> [].
Proof.
  apply (dominant_set_contains_maximum
           [("ostrich", 2); ("prepper", 10)] TIE_TOLERANCE "prepper" 10).
  - simpl. right. left. reflexivity.
  - intros e [<-|[<-|[]]]; simpl; lra.
  - unfold TIE_TOLERANCE. lra.
Defined.

(** C1, as stated, fails on a negative maximum: for the one-entry map
    {a: -1} and the default tolerance the threshold is -0.95, above the
    maximum, and the returned dominant set is empty. *)
Lemma negative_maximum_leaves_dominant_set_empty :
  determineDominantArchetypes [("a", -1)] TIE_TOLERANCE
  = Return (Dominance.mk [] [] (-1) (-1 * (1 - TIE_TOLERANCE)) false (-1 - -1)).
Proof.
  unfold determineDominantArchetypes, TIE_TOLERANCE, MINIMUM_VARIANCE.
  evaluate. reflexivity.
Qed.

Lemma filter_nothing {A : Type} (p : A -> bool) (l : list A) :
  (forall a, In a l -> p a = false) -> filter p l = [].
Proof.
  induction l as [|a l IH]; intros H; simpl; [reflexivity|].
  rewrite (H a) by now left. apply IH. intros a' Ha'. apply H. now right.
Qed.

(** Outside the condition of the theorem the threshold lies above every
    score and nothing is dominant. *)
Lemma dominant_set_empty_above_maximum (scores : ScoreMap) (eps : R) (id : string) (s : R) :
  In (id, s) scores ->
  (forall e, In e scores -> snd e <= s) ->
  eps * s < 0 ->
  exists r, determineDominantArchetypes scores eps = Return r /\ Dominance.dominant r = [].
Proof.
  intros Hin Hub Hneg.
  destruct scores as [|first rest]; [destruct Hin|].
  unfold determineDominantArchetypes.
  rewrite (scores_max_is first rest s) by eauto.
  rewrite (proj2 (Reqb_false s 0)) by nra. rewrite andb_false_r.
  rewrite filter_nothing.
  - eexists. split; reflexivity.
  - intros e He. apply Rgeb_false. specialize (Hub e He). nra.
Qed.

(** One archetype strictly above the threshold band of all the others is
    the whole dominant set. *)
Lemma dominant_of_clear_winner (before after : ScoreMap) (id : string) (s eps : R) :
  0 < s -> 0 <= eps ->
  (forall e, In e (before ++ after) -> snd e < s * (1 - eps)) ->
  exists r,
    determineDominantArchetypes (before ++ (id, s) :: after) eps = Return r /\
    Dominance.dominant r = [id] /\ Dominance.hasTie r = false.
Proof.
  intros Hs Heps Hothers.
  assert (forall e, In e (before ++ (id, s) :: after) -> snd e <= s) as Hub.
  { intros e He. apply in_app_or in He. destruct He as [He|[<-|He]].
    - assert (snd e < s * (1 - eps)) by (apply Hothers, in_or_app; now left). nra.
    - simpl. lra.
    - assert (snd e < s * (1 - eps)) by (apply Hothers, in_or_app; now right). nra. }
  assert (In (id, s) (before ++ (id, s) :: after)) as Hin
      by (apply in_or_app; right; now left).
  assert (filter (fun e => Rgeb (snd e) (s * (1 - eps))) (before ++ (id, s) :: after)
          = [(id, s)]) as Hfilter.
  { rewrite filter_app. cbn [filter snd].
    rewrite (proj2 (Rgeb_true s (s * (1 - eps)))) by nra.
    rewrite !filter_nothing; [reflexivity| |];
      intros e He; apply Rgeb_false, Hothers, in_or_app; auto. }
  destruct (before ++ (id, s) :: after) as [|first rest] eqn:E; [destruct Hin|].
  unfold determineDominantArchetypes.
  rewrite (scores_max_is first rest s) by eauto.
  rewrite (proj2 (Reqb_false s 0)) by lra. rewrite andb_false_r.
  rewrite Hfilter. eexists. split; [reflexivity|]. split; reflexivity.
Qed.

(** The guard of determineDominantArchetypes, read on the entries. *)
Lemma NoValidScores_guard (first : string * R) (rest : ScoreMap) :
  let maxScore := fold_left Rmax (map snd rest) (snd first) in
  let minScore := fold_left Rmin (map snd rest) (snd first) in
  Rltb (maxScore - minScore) MINIMUM_VARIANCE && Reqb maxScore 0 = true <->
  (exists e, In e (first :: rest) /\ snd e = 0) /\
  (forall e, In e (first :: rest) -> - MINIMUM_VARIANCE < snd e <= 0).
Proof.
  intros maxScore minScore.
  destruct (scores_max_spec first rest) as [Hmax [emax [Hemax Emax]]].
  destruct (scores_min_spec first rest) as [Hmin [emin [Hemin Emin]]].
  fold maxScore in Hmax, Emax. fold minScore in Hmin, Emin.
  rewrite andb_true_iff, Rltb_true, Reqb_true.
  split.
  - intros [Hvar Hzero]. split.
    + exists emax. split; [exact Hemax|]. lra.
    + intros e He. specialize (Hmax e He). specialize (Hmin e He). lra.
  - intros [[e0 [He0 E0]] Hall].
    assert (maxScore = 0) as Hzero.
    { apply Rle_antisym.
      - rewrite <- Emax. apply Hall, Hemax.
      - rewrite <- E0. apply Hmax, He0. }
    split; [|exact Hzero].
    specialize (Hall emin Hemin). lra.
Qed.

(** C2, as the code has it.  The call raises NoValidScores exactly when
    some score is 0 and every score lies in (-MINIMUM_VARIANCE, 0], that
    is, when the maximum is 0 and the spread is below MINIMUM_VARIANCE.  So
    it raises on every non-empty map whose scores are all zero, and on a
    map whose scores are all equal to one strictly positive number it
    returns, with every archetype in the dominant set when the tolerance
    is not negative.  On a map without negative scores the call raises
    NoValidScores exactly when the map is not empty and every score is
    zero. *)
Theorem NoValidScores_exactly :
  forall (scores : ScoreMap) (eps : R),
    (determineDominantArchetypes scores eps = Throw NoValidScores <->
       (exists e, In e scores /\ snd e = 0) /\
       (forall e, In e scores -> - MINIMUM_VARIANCE < snd e <= 0)) /\
    ((forall e, In e scores -> 0 <= snd e) ->
       (determineDominantArchetypes scores eps = Throw NoValidScores <->
          scores <> [] /\ forall e, In e scores -> snd e = 0)) /\
    (scores <> [] -> (forall e, In e scores -> snd e = 0) ->
       determineDominantArchetypes scores eps = Throw NoValidScores) /\
    (forall c, 0 < c -> scores <> [] -> (forall e, In e scores -> snd e = c) ->
       exists r, determineDominantArchetypes scores eps = Return r /\
                 (0 <= eps -> Permutation (Dominance.dominant r) (keys scores))).
Proof.
  intros scores eps.
  assert (determineDominantArchetypes scores eps = Throw NoValidScores <->
            (exists e, In e scores /\ snd e = 0) /\
            (forall e, In e scores -> - MINIMUM_VARIANCE < snd e <= 0)) as Hiff.
  { destruct scores as [|first rest].
    - simpl. split; [discriminate|]. intros [[e [[] _]] _].
    - rewrite <- NoValidScores_guard. unfold determineDominantArchetypes.
      destruct (Rltb _ _ && Reqb _ _); split; intros H;
        reflexivity || discriminate. }
  split; [exact Hiff|]. split; [|split].
  - intros Hnonneg. rewrite Hiff. split.
    + intros [[e [He _]] Hall]. split.
      * intros ->. destruct He.
      * intros e' He'. specialize (Hall e' He'). specialize (Hnonneg e' He'). lra.
    + intros [Hne Hzero]. split.
      * destruct scores as [|e rest]; [contradiction|].
        exists e. split; [now left|]. apply Hzero. now left.
      * intros e He. rewrite (Hzero e He). unfold MINIMUM_VARIANCE. lra.
  - intros Hne Hzero. apply Hiff. split.
    + destruct scores as [|e rest]; [contradiction|].
      exists e. split; [now left|]. apply Hzero. now left.
    + intros e He. rewrite (Hzero e He). unfold MINIMUM_VARIANCE. lra.
  - intros c Hc Hne Hall.
    destruct scores as [|first rest]; [contradiction|]. clear Hiff.
    unfold determineDominantArchetypes.
    destruct (Rltb _ _ && Reqb _ _) eqn:G.
    + apply NoValidScores_guard in G. destruct G as [[e [He E0]] _].
      rewrite (Hall e He) in E0. lra.
    + eexists. split; [reflexivity|]. intros Heps.
      cbn [Dominance.dominant]. unfold keys.
      apply Permutation_map. rewrite sort_perm.
      rewrite (scores_max_is first rest c).
      * replace (filter _ (first :: rest)) with (first :: rest); [reflexivity|].
        symmetry. apply forallb_filter_id. apply forallb_forall.
        intros e He. apply Rgeb_true. rewrite (Hall e He). nra.
      * exists (fst first). rewrite <- (Hall first) by now left.
        left. now destruct first.
      * intros e He. rewrite (Hall e He). lra.
Qed.

(** The theorem at the map {a: 5, b: 5, c: 5}: a uniform tie. *)
Lemma NoValidScores_exactly_witness :
  exists r,
    determineDominantArchetypes [("a", 5); ("b", 5); ("c", 5)] TIE_TOLERANCE = Return r /\
    Permutation (Dominance.dominant r) ["a"; "b"; "c"].
Proof.
  destruct (proj2 (proj2 (proj2 (NoValidScores_exactly
                                   [("a", 5); ("b", 5); ("c", 5)] TIE_TOLERANCE)))
              5) as [r [Hr Hperm]].
  - lra.
  - discriminate.
  - intros e [<-|[<-|[<-|[]]]]; reflexivity.
  - exists r. split; [exact Hr|]. apply Hperm. unfold TIE_TOLERANCE. lra.
Defined.

(** C2, as stated, fails: the map {a: 0, b: -0.05} does not have every
    score equal to zero, and the call raises NoValidScores on it. *)
Lemma small_negative_scores_raise_NoValidScores :
  determineDominantArchetypes [("a", 0); ("b", -0.05)] TIE_TOLERANCE = Throw NoValidScores.
Proof.
  unfold determineDominantArchetypes, MINIMUM_VARIANCE.
  evaluate. reflexivity.
Qed.

(** ** calculateArchetypeScores: conservation of points *)

Section DictionaryFacts.
Context {V : Type}.

Lemma get_set_same (obj : object V) (k : string) (v : V) :
    get (set obj k v) k = Some v.
Proof.
    induction obj as [|[k' v'] rest IH]; simpl.
    - now rewrite String.eqb_refl.
    - destruct (String.eqb k' k) eqn:E; simpl; rewrite E; auto.
Qed.

Lemma get_set_other (obj : object V) (k k' : string) (v : V) :
    k <> k' -> get (set obj k v) k' = get obj k'.
Proof.
    intros Hne. induction obj as [|[k0 v0] rest IH]; simpl.
    - destruct (String.eqb k k') eqn:E; [|reflexivity].
      apply String.eqb_eq in E. contradiction.
    - destruct (String.eqb k0 k) eqn:E; simpl.
      + apply String.eqb_eq in E. subst k0.
        destruct (String.eqb k k') eqn:E'; [|reflexivity].
        apply String.eqb_eq in E'. contradiction.
      + now rewrite IH.
Qed.
End DictionaryFacts.

Lemma Rsum_app (l1 l2 : list R) : Rsum (l1 ++ l2) = Rsum l1 + Rsum l2.
Proof. induction l1 as [|a l1 IH]; simpl; [|rewrite IH]; lra. Qed.




Lemma find_append {A : Type} (p : A -> bool) (l1 l2 : list A) :
  find p (l1 ++ l2) = match find p l1 with Some a => Some a | None => find p l2 end.
Proof.
  induction l1 as [|a l1 IH]; simpl; [reflexivity|].
  now destruct (p a).
Qed.

(** The lookup table built by the [forEach] resolves an id to the last
    question carrying it. *)
Lemma get_fold_set_questions (questions : list Question) (qm : object Question) (id : string) :
  get (fold_left (fun questionMap q => set questionMap (question_id q) q) questions qm) id
  = match find (fun q => String.eqb (question_id q) id) (rev questions) with
    | Some q => Some q
    | None => get qm id
    end.
Proof.
  revert qm. induction questions as [|q questions IH]; intros qm; simpl; [reflexivity|].
  rewrite IH. rewrite find_append.
  destruct (find _ (rev questions)) as [q'|]; [reflexivity|]. simpl.
  destruct (String.eqb (question_id q) id) eqn:E.
  - apply String.eqb_eq in E. subst id. apply get_set_same.
  - apply get_set_other. intros Heq.
    rewrite Heq, String.eqb_refl in E. discriminate.
Qed.

Lemma get_buildQuestionMap (questions : list Question) (id : string) :
  get (buildQuestionMap questions) id = resolveQuestion questions id.
Proof.
  unfold buildQuestionMap, resolveQuestion. rewrite get_fold_set_questions.
  now destruct (find _ (rev questions)).
Qed.


Lemma processedResponses_cons (questions : list Question) (r : Response) (rs : list Response) :
  processedResponses questions (r :: rs)
  = processedResponses questions [r] ++ processedResponses questions rs.
Proof. unfold processedResponses. simpl. now rewrite app_nil_r. Qed.


Lemma set_zero_keeps_zero (scores : ScoreMap) (k : string) :
  Forall (fun e => snd e = 0) scores -> Forall (fun e => snd e = 0) (set scores k 0).
Proof.
  induction 1 as [|[k' v'] rest Hv Hrest IH]; simpl.
  - repeat constructor.
  - destruct (String.eqb k' k); constructor; auto.
Qed.

Lemma initialScores_zero : Forall (fun e => snd e = 0) initialScores.
Proof.
  unfold initialScores.
  generalize (keys ARCHETYPE_TRAIT_PROFILES).
  assert (Forall (fun e : string * R => snd e = 0) []) as H by constructor.
  revert H. generalize (@nil (string * R)).
  intros acc H l. revert acc H.
  induction l as [|k l IH]; intros acc H; simpl; [exact H|].
  apply IH, set_zero_keeps_zero, H.
Qed.


(** *** Responses that name what every object inherits *)

Lemma read_plain {V : Type} (obj : object V) (k : string) :
  plainKey k = true ->
  Inherited.read obj k
  = match get obj k with
    | Some v => Inherited.Own v
    | None => Inherited.Missing
    end.
Proof.
  unfold plainKey, Inherited.read. intros H. apply andb_prop in H. destruct H as [H _].
  apply negb_true_iff in H. rewrite H. reflexivity.
Qed.






#[local] Set Warnings "-inexact-float".


(** ** calculateConfidence *)

Lemma Rgtb_Rltb (a b : R) : Rgtb a b = Rltb b a.
Proof. unfold Rgtb, Rltb. destruct (Rgt_dec a b), (Rlt_dec b a); auto; lra. Qed.

Lemma Rgeb_Rleb (a b : R) : Rgeb a b = Rleb b a.
Proof. unfold Rgeb, Rleb. destruct (Rge_dec a b), (Rle_dec b a); auto; lra. Qed.

Lemma insertSorted_descending (a : string * R) (l : list (string * R)) :
  StronglySorted descending l ->
  StronglySorted descending (insertSorted compareScoreDescending a l).
Proof.
  induction 1 as [|b l Hl IH Hb]; simpl.
  - repeat constructor.
  - unfold compareScoreDescending at 1.
    destruct (Rgtb (snd b - snd a) 0) eqn:E.
    + apply Rgtb_true in E. constructor; [exact IH|].
      rewrite Forall_forall in *. intros e He.
      apply (Permutation_in _ (insertSorted_perm _ a l)) in He.
      destruct He as [<-|He]; [unfold descending; lra|auto].
    + apply Rgtb_false in E. constructor; [now constructor|].
      constructor; [unfold descending; lra|].
      rewrite Forall_forall in *. intros e He. specialize (Hb e He).
      unfold descending in *. lra.
Qed.

Lemma sort_descending (l : list (string * R)) :
  StronglySorted descending (sort compareScoreDescending l).
Proof.
  induction l as [|a l IH]; simpl; [constructor|].
  now apply insertSorted_descending.
Qed.

(** C4.  calculateConfidence by the number of strictly positive entries:
    none gives confidence 0, level NONE and no places; one gives
    confidence 1, level PERFECT and no second place; two or more give
    (first - second) / first over the two largest positive scores, a value
    in [0, 1], with level STRONG from 0.5, MODERATE from 0.2 and WEAK
    below. *)
Theorem confidence_by_positive_entries :
  forall scores : ScoreMap,
    let c := calculateConfidence scores in
    match positiveEntries scores with
    | [] =>
        Confidence.score c = 0 /\ Confidence.level c = NONE /\
        Confidence.firstPlace c = None /\ Confidence.secondPlace c = None
    | [only] =>
        Confidence.score c = 1 /\ Confidence.level c = PERFECT /\
        Confidence.firstPlace c = Some (fst only) /\ Confidence.secondPlace c = None
    | _ :: _ :: _ =>
        exists first second rest,
          Permutation (positiveEntries scores) (first :: second :: rest) /\
          (forall e, In e (second :: rest) -> snd e <= snd first) /\
          (forall e, In e rest -> snd e <= snd second) /\
          Confidence.score c = (snd first - snd second) / snd first /\
          0 <= Confidence.score c <= 1 /\
          Confidence.level c = levelOf (Confidence.score c) /\
          Confidence.firstPlace c = Some (fst first) /\
          Confidence.secondPlace c = Some (fst second)
    end.
Proof.
  intros scores c. subst c. unfold calculateConfidence.
  replace (filter (fun e => Rgtb (snd e) 0) scores) with (positiveEntries scores)
    by (unfold positiveEntries; apply filter_ext; intros e; symmetry; apply Rgtb_Rltb).
  assert (forall e, In e (positiveEntries scores) -> 0 < snd e) as Hpos.
  { intros e He. apply filter_In in He. now apply Rltb_true. }
  pose proof (sort_perm compareScoreDescending (positiveEntries scores)) as Hperm.
  pose proof (sort_descending (positiveEntries scores)) as Hsorted.
  destruct (positiveEntries scores) as [|e1 [|e2 l]].
  - cbn. auto.
  - change (sort compareScoreDescending [e1]) with [e1]. destruct e1 as [id1 s1].
    cbn [Confidence.score Confidence.level Confidence.firstPlace Confidence.secondPlace].
    repeat split; try reflexivity; lra.
  - destruct (sort compareScoreDescending (e1 :: e2 :: l)) as [|[fp fs] [|[sp ss] rest]].
    + apply Permutation_length in Hperm. discriminate.
    + apply Permutation_length in Hperm. discriminate.
    + exists (fp, fs), (sp, ss), rest.
      apply StronglySorted_inv in Hsorted. destruct Hsorted as [Hsorted Hfirst].
      apply StronglySorted_inv in Hsorted. destruct Hsorted as [_ Hsecond].
      rewrite Forall_forall in Hfirst, Hsecond.
      assert (0 < ss) as Hss.
      { apply (Hpos (sp, ss)), (Permutation_in _ Hperm). right; now left. }
      assert (ss <= fs) as Hle by (apply (Hfirst (sp, ss)); now left).
      cbn [Confidence.score Confidence.level Confidence.firstPlace
           Confidence.secondPlace fst snd].
      split; [now symmetry|].
      split; [exact Hfirst|]. split; [exact Hsecond|].
      split; [reflexivity|]. split.
      { split.
        - apply Rmult_le_pos; [lra|]. left. apply Rinv_0_lt_compat. lra.
        - apply Rmult_le_reg_r with fs; [lra|]. unfold Rdiv.
          rewrite Rmult_assoc, Rinv_l by lra. lra. }
      split; [|split; reflexivity].
      unfold levelOf, CONFIDENCE_THRESHOLDS_STRONG, CONFIDENCE_THRESHOLDS_MODERATE.
      now rewrite !Rgeb_Rleb.
Qed.

(** ** Vector primitives *)

Lemma fold_sum_of_squares (v : list R) (acc : R) :
  fold_left (fun sum val => sum + val * val) v acc = acc + squaredLength v.
Proof.
  revert acc. unfold squaredLength.
  induction v as [|x v IH]; intros acc; simpl; [lra|]. rewrite IH. lra.
Qed.

Lemma calculateVectorNorm_euclidean (v : list R) :
  calculateVectorNorm v = euclideanNorm v.
Proof.
  unfold calculateVectorNorm, euclideanNorm. rewrite fold_sum_of_squares.
  f_equal. lra.
Qed.

Lemma reduceIndexed_dot (u v pre : list R) (acc : R) :
  List.length u = List.length v ->
  reduceIndexed (fun sum val i => sum + val * nth i (pre ++ v) 0) u (List.length pre) acc
  = acc + dotProduct u v.
Proof.
  revert v pre acc. unfold dotProduct.
  induction u as [|a u IH]; intros [|b v] pre acc Hlen; simpl in Hlen; try discriminate.
  - simpl. lra.
  - cbn [reduceIndexed]. rewrite nth_middle.
    replace (pre ++ b :: v) with ((pre ++ [b]) ++ v) by (rewrite <- app_assoc; reflexivity).
    replace (S (List.length pre)) with (List.length (pre ++ [b]))
      by (rewrite length_app; simpl; lia).
    rewrite IH by lia. simpl. lra.
Qed.

Lemma squaredLength_nonneg (v : list R) : 0 <= squaredLength v.
Proof.
  unfold squaredLength. induction v as [|x v IH]; simpl; [lra|]. nra.
Qed.



Lemma calculateCosineSimilarity_equal_length (u v : list R) :
  List.length u = List.length v ->
  calculateCosineSimilarity u v
  = if Reqb (euclideanNorm u) 0 || Reqb (euclideanNorm v) 0
    then Return 0
    else Return (dotProduct u v / (euclideanNorm u * euclideanNorm v)).
Proof.
  intros Hlen. unfold calculateCosineSimilarity.
  rewrite !calculateVectorNorm_euclidean.
  rewrite (proj2 (Nat.eqb_eq _ _) Hlen). cbn [negb].
  pose proof (reduceIndexed_dot u v [] 0 Hlen) as Hdot.
  cbn [app List.length] in Hdot. rewrite Hdot, Rplus_0_l. reflexivity.
Qed.





(** ** inferUserTraitVector *)

Lemma contributions_cons (e : string * R) (scores : ScoreMap) :
  contributions (e :: scores)
  = match get ARCHETYPE_TRAIT_PROFILES (fst e) with
    | Some profile => if Rltb 0 (snd e) then [(snd e, profile)] else []
    | None => []
    end ++ contributions scores.
Proof. reflexivity. Qed.

Lemma fold_accumulateTraits (scores : ScoreMap) (traits : TraitProfile) (totalScore : R) :
  fold_left accumulateTraits scores (traits, totalScore)
  = (mkProfile (awareness traits + weightedTraitSum scores DimAwareness)
               (affect traits + weightedTraitSum scores DimAffect)
               (agency traits + weightedTraitSum scores DimAgency)
               (time traits + weightedTraitSum scores DimTime)
               (relationality traits + weightedTraitSum scores DimRelationality)
               (posture traits + weightedTraitSum scores DimPosture),
     totalScore + contributingScore scores).
Proof.
  revert traits totalScore. unfold weightedTraitSum, contributingScore.
  induction scores as [|[archetypeId score] scores IH]; intros traits totalScore.
  - destruct traits. cbn. f_equal; [f_equal|]; lra.
  - cbn [fold_left]. rewrite contributions_cons. cbn [fst snd].
    unfold accumulateTraits at 2.
    destruct (Rleb score 0) eqn:Hle.
    + apply Rleb_true in Hle.
      assert (Rltb 0 score = false) as -> by (apply Rltb_false; exact Hle).
      rewrite IH. destruct (get ARCHETYPE_TRAIT_PROFILES archetypeId); reflexivity.
    + apply Rleb_false in Hle.
      assert (Rltb 0 score = true) as -> by (apply Rltb_true; exact Hle).
      destruct (get ARCHETYPE_TRAIT_PROFILES archetypeId) as [profile|].
      * rewrite IH. cbn. f_equal; [f_equal|]. all: unfold Rsum; lra.
      * rewrite IH. reflexivity.
Qed.

Lemma contributions_positive (scores : ScoreMap) (c : R * TraitProfile) :
  In c (contributions scores) -> 0 < fst c.
Proof.
  unfold contributions. rewrite in_flat_map. intros [e [_ Hc]].
  destruct (get ARCHETYPE_TRAIT_PROFILES (fst e)); [|destruct Hc].
  destruct (Rltb 0 (snd e)) eqn:E; [|destruct Hc].
  destruct Hc as [<-|[]]. now apply Rltb_true.
Qed.

Lemma contributingScore_positive (scores : ScoreMap) :
  contributions scores <> [] -> 0 < contributingScore scores.
Proof.
  unfold contributingScore. pose proof (contributions_positive scores) as Hpos.
  induction (contributions scores) as [|c l IH]; intros Hne; [contradiction|].
  simpl. assert (0 < fst c) by (apply Hpos; now left).
  destruct l as [|c' l]; [simpl; lra|].
  assert (0 < Rsum (map fst (c' :: l))).
  { apply IH; [|discriminate]. intros x Hx. apply Hpos. now right. }
  lra.
Qed.

(** *** Scores under a name that every object inherits *)

Lemma addEach_finite (t x : list R) :
  List.length t = List.length x ->
  Inherited.addEach (map Inherited.Finite t) (map Inherited.Finite x)
  = map Inherited.Finite (map (fun p => fst p + snd p) (combine t x)).
Proof.
  revert x. induction t as [|a t IH]; intros [|b x] H; cbn in *; try reflexivity;
    try discriminate.
  f_equal. apply IH. now injection H.
Qed.

Lemma accumulateTraits_plain (traits : TraitProfile) (totalScore : R) (entry : string * R) :
  plainKey (fst entry) = true ->
  Inherited.accumulateTraits (map Inherited.Finite (profileVector traits), totalScore) entry
  = (map Inherited.Finite (profileVector (fst (accumulateTraits (traits, totalScore) entry))),
     snd (accumulateTraits (traits, totalScore) entry)).
Proof.
  destruct entry as [archetypeId score]. cbn [fst]. intros H.
  unfold Inherited.accumulateTraits, accumulateTraits.
  destruct (Rleb score 0); [reflexivity|].
  rewrite (read_plain _ _ H).
  destruct (get ARCHETYPE_TRAIT_PROFILES archetypeId) as [profile|]; [|reflexivity].
  cbn [Inherited.weighted fst snd].
  rewrite <- (map_map (fun x => score * x) Inherited.Finite).
  rewrite addEach_finite by reflexivity. reflexivity.
Qed.

Lemma fold_accumulateTraits_plain (scores : ScoreMap) :
  plainScores scores = true ->
  forall (traits : TraitProfile) (totalScore : R),
    fold_left Inherited.accumulateTraits scores
              (map Inherited.Finite (profileVector traits), totalScore)
    = (map Inherited.Finite
           (profileVector (fst (fold_left accumulateTraits scores (traits, totalScore)))),
       snd (fold_left accumulateTraits scores (traits, totalScore))).
Proof.
  unfold plainScores, keys.
  induction scores as [|entry scores IH]; cbn [map forallb fold_left];
    intros H traits totalScore; [reflexivity|].
  apply andb_prop in H. destruct H as [He Hs].
  rewrite (accumulateTraits_plain _ _ _ He).
  destruct (accumulateTraits (traits, totalScore) entry) as [traits' totalScore'].
  cbn [fst snd]. now apply IH.
Qed.

(** On plain identifiers the two readings of inferUserTraitVector agree. *)
Lemma inferUserTraitVector_plain (scores : ScoreMap) :
  plainScores scores = true ->
  Inherited.inferUserTraitVector scores
  = map Inherited.Finite (inferUserTraitVector scores).
Proof.
  intros H. unfold Inherited.inferUserTraitVector, inferUserTraitVector.
  rewrite (fold_accumulateTraits_plain scores H).
  destruct (fold_left accumulateTraits scores (zeroTraits, 0)) as [traits totalScore].
  cbn [fst snd]. destruct (Rgtb totalScore 0); reflexivity.
Qed.

(** C6, at an input where the code departs from it.  In the score map
    {constructor: 1} no archetype has a catalogued profile, so the claim
    gives the zero vector; inferUserTraitVector reads
    [ARCHETYPE_TRAIT_PROFILES["constructor"]], finds the function every
    object inherits, passes [if (!profile)] and returns six NaN. *)
Theorem inferUserTraitVector_is_NaN_on_inherited_name :
  contributions [("constructor", 1)] = []
  /\ Inherited.inferUserTraitVector [("constructor", 1)]
     = [Inherited.NaN; Inherited.NaN; Inherited.NaN;
        Inherited.NaN; Inherited.NaN; Inherited.NaN].
Proof.
  split; [reflexivity|].
  unfold Inherited.inferUserTraitVector. cbn [fold_left Inherited.accumulateTraits].
  rewrite (proj2 (Rleb_false 1 0)) by lra.
  assert (Inherited.read ARCHETYPE_TRAIT_PROFILES "constructor" = Inherited.FromPrototype)
    as -> by reflexivity.
  rewrite (proj2 (Rgtb_true (0 + 1) 0)) by lra.
  reflexivity.
Qed.

(** X27.  On a score map with plain identifiers, and with numbers read as
    exact reals, inferUserTraitVector returns, dimension by dimension, the
    sum of score * profile[d] over the archetypes with a strictly positive
    score and a catalogued profile, divided by the sum of their scores
    (which is then positive); the other archetypes do not occur in either
    sum; with no such archetype it returns the zero vector. *)
Theorem inferred_trait_vector_is_weighted_average :
  forall scores : ScoreMap,
    plainScores scores = true ->
    Inherited.inferUserTraitVector scores
    = map Inherited.Finite (inferUserTraitVector scores)
    /\ (contributions scores = [] ->
          inferUserTraitVector scores = [0; 0; 0; 0; 0; 0])
    /\ (contributions scores <> [] ->
          0 < contributingScore scores /\
          inferUserTraitVector scores
          = map (fun d => weightedTraitSum scores d / contributingScore scores) dimensions).
Proof.
  intros scores Hplain. split; [now apply inferUserTraitVector_plain|].
  unfold inferUserTraitVector, zeroTraits.
  rewrite fold_accumulateTraits. cbn [awareness affect agency time relationality posture].
  split.
  - intros Hnone. unfold weightedTraitSum, contributingScore. rewrite Hnone.
    cbn [map Rsum fold_right].
    assert (Rgtb (0 + 0) 0 = false) as -> by (apply Rgtb_false; lra).
    cbn [profileVector awareness affect agency time relationality posture].
    rewrite !Rplus_0_l. reflexivity.
  - intros Hsome. pose proof (contributingScore_positive scores Hsome) as Hpos.
    split; [exact Hpos|].
    assert (Rgtb (0 + contributingScore scores) 0 = true) as ->
        by (apply Rgtb_true; lra).
    cbn [profileVector awareness affect agency time relationality posture map dimensions].
    rewrite !Rplus_0_l. reflexivity.
Qed.

(** The theorem at the score map {prepper: 10, unlisted: 4, ostrich: 0}. *)
Lemma inferred_trait_vector_is_weighted_average_witness :
  plainScores [("prepper", 10); ("unlisted", 4); ("ostrich", 0)] = true /\
  0 < contributingScore [("prepper", 10); ("unlisted", 4); ("ostrich", 0)] /\
  inferUserTraitVector [("prepper", 10); ("unlisted", 4); ("ostrich", 0)]
  = map (fun d =>
           weightedTraitSum [("prepper", 10); ("unlisted", 4); ("ostrich", 0)] d
           / contributingScore [("prepper", 10); ("unlisted", 4); ("ostrich", 0)])
        dimensions.
Proof.
  split; [reflexivity|].
  apply (proj2 (proj2 (inferred_trait_vector_is_weighted_average
                         [("prepper", 10); ("unlisted", 4); ("ostrich", 0)] eq_refl))).
  unfold contributions. cbn [flat_map fst snd get ARCHETYPE_TRAIT_PROFILES
                             String.eqb Ascii.eqb Bool.eqb app].
  rewrite (proj2 (Rltb_true 0 10)) by lra. discriminate.
Defined.

(** ** Radar chart geometry *)

(** The shoelace loop on six points, unrolled. *)
Lemma calculateRadarChartArea_six (c0 c1 c2 c3 c4 c5 : Coordinate.t) :
  calculateRadarChartArea [c0; c1; c2; c3; c4; c5]
  = Rabs (0
          + (Coordinate.x c0 * Coordinate.y c1 - Coordinate.x c1 * Coordinate.y c0)
          + (Coordinate.x c1 * Coordinate.y c2 - Coordinate.x c2 * Coordinate.y c1)
          + (Coordinate.x c2 * Coordinate.y c3 - Coordinate.x c3 * Coordinate.y c2)
          + (Coordinate.x c3 * Coordinate.y c4 - Coordinate.x c4 * Coordinate.y c3)
          + (Coordinate.x c4 * Coordinate.y c5 - Coordinate.x c5 * Coordinate.y c4)
          + (Coordinate.x c5 * Coordinate.y c0 - Coordinate.x c0 * Coordinate.y c5)) / 2.
Proof. reflexivity. Qed.

Lemma hexagon_angles :
  INR 0 / 6 * 2 * PI = 0 /\
  INR 1 / 6 * 2 * PI = PI / 3 /\
  INR 2 / 6 * 2 * PI = 2 * (PI / 3) /\
  INR 3 / 6 * 2 * PI = PI /\
  INR 4 / 6 * 2 * PI = PI / 3 + PI /\
  INR 5 / 6 * 2 * PI = 2 * (PI / 3) + PI.
Proof.
  change (INR 0) with 0. change (INR 1) with 1.
  replace (INR 2) with 2 by (simpl; lra). replace (INR 3) with 3 by (simpl; lra).
  replace (INR 4) with 4 by (simpl; lra). replace (INR 5) with 5 by (simpl; lra).
  repeat split; lra.
Qed.

(** C10.  For the trait profile whose six dimensions are all 1.0,
    calculateRadarChartCoordinates returns six points of radius 1 (affect
    and time rescaled to (1 + 1) / 2) at the angles i/6 * 2 PI, and
    calculateRadarChartArea of these points is 3 sqrt(3) / 2. *)
Theorem unit_hexagon_area :
  exists coordinates : list Coordinate.t,
    calculateRadarChartCoordinates (Some (mkProfile 1.0 1.0 1.0 1.0 1.0 1.0))
      = Return coordinates /\
    Forall (fun c => Coordinate.radius c = 1) coordinates /\
    map Coordinate.angle coordinates
      = map (fun i => INR i / 6 * 2 * PI) [0; 1; 2; 3; 4; 5]%nat /\
    calculateRadarChartArea coordinates = 3 * sqrt 3 / 2.
Proof.
  eexists. split; [reflexivity|].
  unfold mapIndexed, dimensions. cbn [mapIndexedFrom].
  split.
  { repeat constructor;
      cbn [radarPoint Coordinate.radius traitOf awareness affect agency time
           relationality posture]; lra. }
  split; [reflexivity|].
  rewrite calculateRadarChartArea_six.
  unfold radarPoint. cbn [Coordinate.x Coordinate.y traitOf awareness affect agency time
                          relationality posture].
  destruct hexagon_angles as (-> & -> & -> & -> & -> & ->).
  rewrite !neg_cos, !neg_sin, cos_0, sin_0, cos_PI, sin_PI,
    cos_PI3, sin_PI3, cos_2PI3, sin_2PI3.
  pose proof (sqrt_pos 3) as Hs.
  replace (0 + _ + _ + _ + _ + _ + _) with (3 * sqrt 3) by lra.
  rewrite Rabs_pos_eq by lra. reflexivity.
Qed.

(** ** breakTieWithTraits *)

Lemma inferUserTraitVector_length (scores : ScoreMap) :
  List.length (inferUserTraitVector scores) = 6%nat.
Proof.
  unfold inferUserTraitVector.
  destruct (fold_left accumulateTraits scores (zeroTraits, 0)) as [traits totalScore].
  reflexivity.
Qed.

Lemma similarityOf_returns (vector : list R) (archetypeId : string) :
  List.length vector = 6%nat ->
  exists similarity, similarityOf vector archetypeId = Return (archetypeId, similarity).
Proof.
  intros Hlen. unfold similarityOf.
  destruct (get ARCHETYPE_TRAIT_PROFILES archetypeId) as [profile|]; [|eauto].
  unfold calculateCosineSimilarity. rewrite Hlen. cbn [profileVector List.length Nat.eqb negb].
  destruct (Reqb _ 0 || Reqb _ 0); cbn [bind]; eauto.
Qed.

Lemma mapOutcome_similarityOf (vector : list R) (ids : list string) :
  List.length vector = 6%nat ->
  exists entries,
    mapOutcome (similarityOf vector) ids = Return entries /\ map fst entries = ids.
Proof.
  intros Hlen. induction ids as [|id ids [entries [E Hfst]]].
  - exists []. split; reflexivity.
  - destruct (similarityOf_returns vector id Hlen) as [similarity Hs].
    exists ((id, similarity) :: entries). cbn [mapOutcome]. rewrite Hs, E. cbn [bind].
    split; [reflexivity|]. cbn [map fst]. now rewrite Hfst.
Qed.

(** ** The store *)

Lemma nth_error_extended (h : heap) (c : cell) (r : ref) (c' : cell) :
  nth_error h r = Some c' -> nth_error (h ++ [c]) r = Some c'.
Proof.
  intros H. rewrite nth_error_app1; [exact H|].
  apply nth_error_Some. rewrite H. discriminate.
Qed.

Lemma nth_error_fresh (h : heap) (c : cell) :
  nth_error (h ++ [c]) (List.length h) = Some c.
Proof. rewrite nth_error_app2, Nat.sub_diag by lia. reflexivity. Qed.

Lemma replaceNth_fresh (h : heap) (c c' : cell) :
  replaceNth (List.length h) c' (h ++ [c]) = h ++ [c'].
Proof. induction h as [|c0 h IH]; simpl; [reflexivity|]. now rewrite IH. Qed.

(** What a call does to the store: the two cells it allocates are added
    after the cells that were there, which are all left as they were. *)
Lemma breakTieWithTraits_run (h : heap) (tiedRef scoresRef : ref)
    (tied : list string) (allScores : ScoreMap) :
  nth_error h tiedRef = Some (IdArray tied) ->
  nth_error h scoresRef = Some (ScoreObject allScores) ->
  exists entries,
    mapOutcome (similarityOf (inferUserTraitVector allScores)) tied = Return entries /\
    map fst entries = tied /\
    breakTieWithTraits tiedRef scoresRef h
    = (match sort compareSimilarity entries with
       | [] => Throw TypeError
       | top :: _ => Return (fst top)
       end,
       h ++ [NumberArray (inferUserTraitVector allScores);
             SimilarityArray (sort compareSimilarity entries)]).
Proof.
  intros Htied Hscores.
  destruct (mapOutcome_similarityOf (inferUserTraitVector allScores) tied
              (inferUserTraitVector_length allScores)) as [entries [E Hfst]].
  exists entries. split; [exact E|]. split; [exact Hfst|].
  unfold breakTieWithTraits, readScores, readNumbers, readIds, readSimilarities,
    sortInPlace, readSimilarities, alloc, assign, deref, lift, ret, raise, mbind.
  rewrite Hscores.
  rewrite nth_error_fresh.
  rewrite (nth_error_extended h _ tiedRef _ Htied).
  rewrite E.
  rewrite nth_error_fresh.
  rewrite replaceNth_fresh.
  rewrite nth_error_fresh.
  rewrite <- app_assoc. cbn [app].
  destruct (sort compareSimilarity entries); reflexivity.
Qed.

(** C8.  A call of breakTieWithTraits on references to a dominant set of
    at least two identifiers and to a score map returns one of the tied
    identifiers and leaves both inputs as they were: the array still holds
    the same identifiers in the same order and the score map the same
    entries.  Every other cell that was in the store is unchanged too. *)
Theorem breakTieWithTraits_leaves_inputs_unchanged :
  forall (h : heap) (tiedRef scoresRef : ref) (tied : list string) (allScores : ScoreMap),
    nth_error h tiedRef = Some (IdArray tied) ->
    nth_error h scoresRef = Some (ScoreObject allScores) ->
    (2 <= List.length tied)%nat ->
    exists winner h',
      breakTieWithTraits tiedRef scoresRef h = (Return winner, h') /\
      In winner tied /\
      nth_error h' tiedRef = Some (IdArray tied) /\
      nth_error h' scoresRef = Some (ScoreObject allScores) /\
      (forall r c, nth_error h r = Some c -> nth_error h' r = Some c).
Proof.
  intros h tiedRef scoresRef tied allScores Htied Hscores Hlen.
  destruct (breakTieWithTraits_run h tiedRef scoresRef tied allScores Htied Hscores)
    as [entries [E [Hfst Hrun]]].
  assert (forall r c, nth_error h r = Some c ->
            nth_error (h ++ [NumberArray (inferUserTraitVector allScores);
                             SimilarityArray (sort compareSimilarity entries)]) r
            = Some c) as Hframe.
  { intros r c Hr. rewrite nth_error_app1; [exact Hr|].
    apply nth_error_Some. rewrite Hr. discriminate. }
  pose proof (sort_perm compareSimilarity entries) as Hperm.
  destruct (sort compareSimilarity entries) as [|top sorted] eqn:Hsorted.
  - apply Permutation_length in Hperm. rewrite <- Hfst, length_map in Hlen.
    simpl in Hperm. lia.
  - exists (fst top), (h ++ [NumberArray (inferUserTraitVector allScores);
                             SimilarityArray (top :: sorted)]).
    split; [exact Hrun|]. split.
    + rewrite <- Hfst. apply in_map. apply (Permutation_in _ Hperm). now left.
    + repeat split; auto.
Qed.

(** The theorem at the tie of the test suite: the store holds the array
    ['ostrich', 'prepper'] and the score map of the test. *)
Lemma breakTieWithTraits_leaves_inputs_unchanged_witness :
  exists winner h',
    breakTieWithTraits 0%nat 1%nat
      [IdArray ["ostrich"; "prepper"];
       ScoreObject [("ostrich", 5); ("prepper", 5); ("apocaloptimist", 10)]]
    = (Return winner, h') /\
    In winner ["ostrich"; "prepper"] /\
    nth_error h' 0%nat = Some (IdArray ["ostrich"; "prepper"]) /\
    nth_error h' 1%nat
    = Some (ScoreObject [("ostrich", 5); ("prepper", 5); ("apocaloptimist", 10)]) /\
    (forall r c,
        nth_error [IdArray ["ostrich"; "prepper"];
                   ScoreObject [("ostrich", 5); ("prepper", 5); ("apocaloptimist", 10)]] r
        = Some c ->
        nth_error h' r = Some c).
Proof.
  apply (breakTieWithTraits_leaves_inputs_unchanged
           [IdArray ["ostrich"; "prepper"];
            ScoreObject [("ostrich", 5); ("prepper", 5); ("apocaloptimist", 10)]]
           0%nat 1%nat ["ostrich"; "prepper"]
           [("ostrich", 5); ("prepper", 5); ("apocaloptimist", 10)]).
  - reflexivity.
  - reflexivity.
  - simpl. lia.
Defined.

(** ** The documented examples *)

Example exact_tie_is_ordered_by_id :
  determineDominantArchetypes [("zebra", 5); ("aardvark", 5); ("monkey", 5)] 0.05
  = Return (Dominance.mk ["aardvark"; "monkey"; "zebra"]
              [("aardvark", 5); ("monkey", 5); ("zebra", 5)]
              5 (5 * (1 - 0.05)) true (5 - 5)).
Proof.
  unfold determineDominantArchetypes, compareDominant, MINIMUM_VARIANCE.
  evaluate. reflexivity.
Qed.

Example tie_detection_determinism :
  determineDominantArchetypes [("a", 5); ("b", 5); ("c", 2)] 0.05
  = Return (Dominance.mk ["a"; "b"] [("a", 5); ("b", 5)] 5 (5 * (1 - 0.05)) true (5 - 2)).
Proof.
  unfold determineDominantArchetypes, compareDominant, MINIMUM_VARIANCE.
  evaluate. reflexivity.
Qed.

Example near_tie_inclusion :
  determineDominantArchetypes
    [("ostrich", 10); ("prepper", 9.6); ("apocaloptimist", 8)] 0.05
  = Return (Dominance.mk ["ostrich"; "prepper"] [("ostrich", 10); ("prepper", 9.6)]
              10 (10 * (1 - 0.05)) true (10 - 8)).
Proof.
  unfold determineDominantArchetypes, compareDominant, MINIMUM_VARIANCE.
  evaluate. reflexivity.
Qed.

Example zero_score_failure :
  determineDominantArchetypes [("a", 0); ("b", 0)] 0.05 = Throw NoValidScores.
Proof.
  unfold determineDominantArchetypes, MINIMUM_VARIANCE. evaluate. reflexivity.
Qed.

Example confidence_of_documented_scores :
  calculateConfidence [("ostrich", 2); ("prepper", 10); ("trickster", 5)]
  = Confidence.mk ((10 - 5) / 10) STRONG (Some "prepper") (Some "trickster").
Proof.
  unfold calculateConfidence, compareScoreDescending,
    CONFIDENCE_THRESHOLDS_STRONG, CONFIDENCE_THRESHOLDS_MODERATE.
  evaluate. reflexivity.
Qed.

Example confidence_of_worked_example :
  calculateConfidence [("ostrich", 2); ("prepper", 3); ("trickster", 0)]
  = Confidence.mk ((3 - 2) / 3) MODERATE (Some "prepper") (Some "ostrich").
Proof.
  unfold calculateConfidence, compareScoreDescending,
    CONFIDENCE_THRESHOLDS_STRONG, CONFIDENCE_THRESHOLDS_MODERATE.
  evaluate. reflexivity.
Qed.

(** ** The tie break of the test suite *)

Lemma cosine_at_least (u v : list R) (c : R) :
  0 <= c -> 0 < squaredLength u -> 0 < squaredLength v -> 0 <= dotProduct u v ->
  c * c * (squaredLength u * squaredLength v) <= dotProduct u v * dotProduct u v ->
  c <= dotProduct u v / (euclideanNorm u * euclideanNorm v).
Proof.
  intros Hc Hu Hv Hd Hsq. unfold euclideanNorm.
  pose proof (sqrt_lt_R0 _ Hu) as Hnu. pose proof (sqrt_lt_R0 _ Hv) as Hnv.
  pose proof (sqrt_sqrt (squaredLength u) (Rlt_le _ _ Hu)) as Eu.
  pose proof (sqrt_sqrt (squaredLength v) (Rlt_le _ _ Hv)) as Ev.
  set (nu := sqrt (squaredLength u)) in *. set (nv := sqrt (squaredLength v)) in *.
  assert (0 < nu * nv) as Hpos by nra.
  apply Rmult_le_reg_r with (nu * nv); [exact Hpos|].
  unfold Rdiv. rewrite Rmult_assoc, Rinv_l, Rmult_1_r by lra.
  destruct (Rle_dec (c * (nu * nv)) (dotProduct u v)) as [Hok|Hno]; [exact Hok|].
  exfalso. apply Rnot_le_lt in Hno.
  assert (dotProduct u v * dotProduct u v < (c * (nu * nv)) * (c * (nu * nv))) by nra.
  assert ((c * (nu * nv)) * (c * (nu * nv)) = c * c * (squaredLength u * squaredLength v)).
  { rewrite <- Eu, <- Ev. ring. }
  lra.
Qed.

Lemma cosine_at_most (u v : list R) (c : R) :
  0 <= c -> 0 < squaredLength u -> 0 < squaredLength v -> 0 <= dotProduct u v ->
  dotProduct u v * dotProduct u v <= c * c * (squaredLength u * squaredLength v) ->
  dotProduct u v / (euclideanNorm u * euclideanNorm v) <= c.
Proof.
  intros Hc Hu Hv Hd Hsq. unfold euclideanNorm.
  pose proof (sqrt_lt_R0 _ Hu) as Hnu. pose proof (sqrt_lt_R0 _ Hv) as Hnv.
  pose proof (sqrt_sqrt (squaredLength u) (Rlt_le _ _ Hu)) as Eu.
  pose proof (sqrt_sqrt (squaredLength v) (Rlt_le _ _ Hv)) as Ev.
  set (nu := sqrt (squaredLength u)) in *. set (nv := sqrt (squaredLength v)) in *.
  assert (0 < nu * nv) as Hpos by nra.
  apply Rmult_le_reg_r with (nu * nv); [exact Hpos|].
  unfold Rdiv. rewrite Rmult_assoc, Rinv_l, Rmult_1_r by lra.
  destruct (Rle_dec (dotProduct u v) (c * (nu * nv))) as [Hok|Hno]; [exact Hok|].
  exfalso. apply Rnot_le_lt in Hno.
  assert (0 <= c * (nu * nv)) as Hcn by (apply Rmult_le_pos; lra).
  assert ((c * (nu * nv)) * (c * (nu * nv)) < dotProduct u v * dotProduct u v) by nra.
  assert ((c * (nu * nv)) * (c * (nu * nv)) = c * c * (squaredLength u * squaredLength v)).
  { rewrite <- Eu, <- Ev. ring. }
  lra.
Qed.


Lemma testScores_vector :
  inferUserTraitVector testScores
  = [14.5 / 20; 8 / 20; 14.5 / 20; 15 / 20; 0 / 20; 15 / 20].
Proof.
  unfold inferUserTraitVector, testScores, accumulateTraits, zeroTraits.
  cbn [fold_left]. 
  repeat first
    [ progress cbn [get ARCHETYPE_TRAIT_PROFILES String.eqb Ascii.eqb Bool.eqb
                    awareness affect agency time relationality posture profileVector]
    | real_step ].
  unfold profileVector.
  cbn [awareness affect agency time relationality posture].
  repeat (apply (f_equal2 (@cons R)); [lra|]). reflexivity.
Qed.

Lemma profile_of (id : string) (p : TraitProfile) :
  get ARCHETYPE_TRAIT_PROFILES id = Some p ->
  similarityOf (inferUserTraitVector testScores) id
  = (similarity <- calculateCosineSimilarity (inferUserTraitVector testScores)
                     (profileVector p) ;;
     Return (id, similarity)).
Proof. intros H. unfold similarityOf. now rewrite H. Qed.

Lemma squaredLength_testVector :
  squaredLength (inferUserTraitVector testScores) = 2.33625.
Proof.
  rewrite testScores_vector. unfold squaredLength. cbn [map Rsum fold_right]. lra.
Qed.

Example documented_tie_break :
  callBreakTieWithTraits ["ostrich"; "prepper"] testScores = Return "prepper".
Proof.
  unfold callBreakTieWithTraits.
  destruct (breakTieWithTraits_run
              [IdArray ["ostrich"; "prepper"]; ScoreObject testScores] 0%nat 1%nat
              ["ostrich"; "prepper"] testScores eq_refl eq_refl)
    as [entries [Hentries [_ ->]]].
  cbn [fst].
  cbn [mapOutcome] in Hentries.
  rewrite (profile_of "ostrich" (mkProfile 0.2 0.0 0.2 0.0 0.0 0.0) eq_refl) in Hentries.
  rewrite (profile_of "prepper" (mkProfile 0.9 0.0 0.9 1.0 0.0 1.0) eq_refl) in Hentries.
  set (u := inferUserTraitVector testScores) in *.
  set (ostrich := profileVector (mkProfile 0.2 0.0 0.2 0.0 0.0 0.0)) in *.
  set (prepper := profileVector (mkProfile 0.9 0.0 0.9 1.0 0.0 1.0)) in *.
  assert (squaredLength u = 2.33625) as Hu by apply squaredLength_testVector.
  assert (squaredLength ostrich = 0.08) as Ho
      by (unfold squaredLength; cbn; lra).
  assert (squaredLength prepper = 3.62) as Hp
      by (unfold squaredLength; cbn; lra).
  assert (dotProduct u ostrich = 0.29) as Hdo.
  { unfold u. rewrite testScores_vector. unfold dotProduct. cbn. lra. }
  assert (dotProduct u prepper = 2.805) as Hdp.
  { unfold u. rewrite testScores_vector. unfold dotProduct. cbn. lra. }
  assert (List.length u = List.length ostrich) as Hlo
      by (unfold u; rewrite inferUserTraitVector_length; reflexivity).
  assert (List.length u = List.length prepper) as Hlp
      by (unfold u; rewrite inferUserTraitVector_length; reflexivity).
  assert (euclideanNorm u <> 0) as Hnu
      by (apply Rgt_not_eq, sqrt_lt_R0; lra).
  assert (euclideanNorm ostrich <> 0) as Hno
      by (apply Rgt_not_eq, sqrt_lt_R0; lra).
  assert (euclideanNorm prepper <> 0) as Hnp
      by (apply Rgt_not_eq, sqrt_lt_R0; lra).
  rewrite !calculateCosineSimilarity_equal_length in Hentries by assumption.
  rewrite (proj2 (Reqb_false _ _) Hnu), (proj2 (Reqb_false _ _) Hno),
    (proj2 (Reqb_false _ _) Hnp) in Hentries.
  cbn [orb bind] in Hentries.
  injection Hentries as <-.
  assert (dotProduct u ostrich / (euclideanNorm u * euclideanNorm ostrich) <= 0.7) as Bo
      by (apply cosine_at_most; rewrite ?Hu, ?Ho, ?Hdo; lra).
  assert (0.9 <= dotProduct u prepper / (euclideanNorm u * euclideanNorm prepper)) as Bp
      by (apply cosine_at_least; rewrite ?Hu, ?Hp, ?Hdp; lra).
  set (so := dotProduct u ostrich / (euclideanNorm u * euclideanNorm ostrich)) in *.
  set (sp := dotProduct u prepper / (euclideanNorm u * euclideanNorm prepper)) in *.
  unfold compareSimilarity. evaluate. reflexivity.
Qed.

(** ** scoreQuiz *)


Lemma scoreQuiz_needs_primary_profile
    (questions : list Question) (userResponses : list Response) (options : Options)
    (dominantResult : Dominance.t) (normalized : ScoreMap) :
  orDefault (includeVisualizations options) true = true ->
  determineDominantArchetypes (calculateArchetypeScores questions userResponses)
    (orDefault (tieTolerance options) TIE_TOLERANCE) = Return dominantResult ->
  Dominance.hasTie dominantResult = false ->
  normalizeScores (calculateArchetypeScores questions userResponses) questions
    = Return normalized ->
  getAt ARCHETYPE_TRAIT_PROFILES (nth_error (Dominance.dominant dominantResult) 0) = None ->
  scoreQuiz questions userResponses options = Throw TypeError.
Proof.
  intros Hvis Hdom Htie Hnorm Hprofile. unfold scoreQuiz.
  rewrite Hdom. cbn [bind]. rewrite Htie. cbn [andb bind].
  rewrite Hnorm. cbn [bind]. rewrite Hvis.
  cbn [calculateRadarChartCoordinates bind]. rewrite Hprofile. reflexivity.
Qed.

Lemma dynamicQuiz_scores :
  calculateArchetypeScores dynamicQuiz dynamicResponses
  = initialScores ++ [("dynamic-archetype", 1.0 * 5)].
Proof. reflexivity. Qed.



Lemma dynamicQuiz_dominant :
  exists r,
    determineDominantArchetypes (calculateArchetypeScores dynamicQuiz dynamicResponses)
      TIE_TOLERANCE = Return r /\
    Dominance.dominant r = ["dynamic-archetype"] /\ Dominance.hasTie r = false.
Proof.
  rewrite dynamicQuiz_scores.
  apply dominant_of_clear_winner; unfold TIE_TOLERANCE; try lra.
  intros e He. rewrite app_nil_r in He.
  pose proof initialScores_zero as Hzero. rewrite Forall_forall in Hzero.
  rewrite (Hzero e He). lra.
Qed.

(** C7, at an input where the code departs from it.  For the quiz whose
    only answer awards 5 points to an archetype outside the catalogue, the
    Dominance Resolver succeeds with that archetype as the one dominant
    archetype, and scoreQuiz with default options raises a TypeError
    instead of returning a result. *)
Theorem scoreQuiz_raises_on_uncatalogued_primary :
  (exists dominantResult,
     determineDominantArchetypes
       (calculateArchetypeScores dynamicQuiz dynamicResponses) TIE_TOLERANCE
     = Return dominantResult /\
     Dominance.dominant dominantResult = ["dynamic-archetype"]) /\
  get ARCHETYPE_TRAIT_PROFILES "dynamic-archetype" = None /\
  scoreQuiz dynamicQuiz dynamicResponses defaultOptions = Throw TypeError.
Proof.
  destruct dynamicQuiz_dominant as [r [Hr [Hdominant Htie]]].
  split; [|split].
  - exists r. split; assumption.
  - reflexivity.
  - assert (exists normalized,
              normalizeScores (calculateArchetypeScores dynamicQuiz dynamicResponses)
                dynamicQuiz = Return normalized) as [normalized Hnorm].
    { unfold normalizeScores, dynamicQuiz. cbn [fold_left questionWeight weight].
      rewrite (proj2 (Reqb_false (0 + 1.0) 0)) by lra.
      eexists. reflexivity. }
    apply (scoreQuiz_needs_primary_profile dynamicQuiz dynamicResponses defaultOptions
             r normalized).
    + reflexivity.
    + exact Hr.
    + exact Htie.
    + exact Hnorm.
    + rewrite Hdominant. reflexivity.
Qed.

(** ** Validators *)


Lemma isEmpty_nil {A : Type} (l : list A) : isEmpty l = true <-> l = [].
Proof. destruct l; simpl; split; intros; congruence. Qed.

(** When a validator returns, the flag says whether the list is empty. *)
Lemma validateQuizData_flag (questions : value) (result : Validation.t) :
  validateQuizData questions = Return result ->
  (Validation.valid result = true <-> Validation.errors result = []).
Proof.
  unfold validateQuizData. intros H.
  destruct questions;
    try (injection H as <-; simpl; split; intros; discriminate).
  destruct (forEachFrom validateQuestion items 0 _) as [errors|e]; [|discriminate].
  injection H as <-. apply isEmpty_nil.
Qed.

Lemma validateUserResponses_flag (numberToString : R -> string)
    (questions userResponses : value) (result : Validation.t) :
  validateUserResponses numberToString questions userResponses = Return result ->
  (Validation.valid result = true <-> Validation.errors result = []).
Proof.
  unfold validateUserResponses. intros H.
  destruct userResponses;
    try (injection H as <-; simpl; split; intros; discriminate).
  destruct (forEach questions _ _) as [questionMap|e]; [|discriminate].
  cbn [bind] in H.
  destruct (forEachFrom _ items 0 _) as [errors|e]; [|discriminate].
  injection H as <-. apply isEmpty_nil.
Qed.

Lemma getProp_readable (v : value) (name : string) :
  readable v = true -> exists w, getProp v name = Return w.
Proof. destruct v; simpl; intros H; try discriminate; eauto. Qed.

Lemma getProp_unreadable (v : value) (name : string) :
  readable v = false -> getProp v name = Throw TypeError.
Proof. destruct v; simpl; intros H; try discriminate; reflexivity. Qed.

Lemma validateAnswer_outcome (qLabel : label) (errors : list violation)
    (a : value) (aIndex : nat) :
  if readable a
  then exists errors', validateAnswer qLabel errors a aIndex = Return errors'
  else validateAnswer qLabel errors a aIndex = Throw TypeError.
Proof.
  unfold validateAnswer. destruct (readable a) eqn:E.
  - destruct (getProp_readable a "id" E) as [aId ->].
    destruct (getProp_readable a "archetypeScores" E) as [aScores ->].
    cbn [bind]. eauto.
  - now rewrite (getProp_unreadable a "id" E).
Qed.

Lemma forEach_answers_outcome (qLabel : label) (items : list value)
    (i : nat) (errors : list violation) :
  if forallb readable items
  then exists errors', forEachFrom (validateAnswer qLabel) items i errors = Return errors'
  else forEachFrom (validateAnswer qLabel) items i errors = Throw TypeError.
Proof.
  revert i errors. induction items as [|a items IH]; intros i errors; cbn [forallb forEachFrom].
  - eauto.
  - pose proof (validateAnswer_outcome qLabel errors a i) as Ha.
    destruct (readable a); cbn [andb].
    + destruct Ha as [errors' ->]. cbn [bind]. apply IH.
    + rewrite Ha. reflexivity.
Qed.

Lemma validateQuestion_outcome (errors : list violation) (q : value) (index : nat) :
  if walkable q
  then exists errors', validateQuestion errors q index = Return errors'
  else validateQuestion errors q index = Throw TypeError.
Proof.
  unfold validateQuestion.
  destruct q as [| |b|n|s|items|fields]; cbn [walkable getProp bind];
    try reflexivity; try (cbn; eauto; fail).
  destruct (orDefault (get fields "answers") Undefined) as [| |b|n|s|items|fields'] eqn:E;
    cbn [truthy negb isArray forEach];
    try (eexists; reflexivity).
  - destruct b; cbn [negb]; [reflexivity|eexists; reflexivity].
  - destruct (negb (Reqb n 0)); cbn [negb]; [reflexivity|eexists; reflexivity].
  - destruct (negb (String.eqb s "")); cbn [negb]; [reflexivity|eexists; reflexivity].
  - apply forEach_answers_outcome.
Qed.

Lemma forEach_questions_outcome (items : list value) (i : nat) (errors : list violation) :
  if forallb walkable items
  then exists errors', forEachFrom validateQuestion items i errors = Return errors'
  else forEachFrom validateQuestion items i errors = Throw TypeError.
Proof.
  revert i errors. induction items as [|q items IH]; intros i errors; cbn [forallb forEachFrom].
  - eauto.
  - pose proof (validateQuestion_outcome errors q i) as Hq.
    destruct (walkable q); cbn [andb].
    + destruct Hq as [errors' ->]. cbn [bind]. apply IH.
    + rewrite Hq. reflexivity.
Qed.

(** validateQuizData raises exactly on an array with a question it cannot
    walk, and then the error is a TypeError. *)
Lemma validateQuizData_raises_iff (questions : value) :
  (exists e, validateQuizData questions = Throw e) <->
  (exists items, questions = Array items /\ forallb walkable items = false).
Proof.
  unfold validateQuizData. split.
  - intros [e H]. destruct questions; try discriminate.
    exists items. split; [reflexivity|].
    pose proof (forEach_questions_outcome items 0
                  (pushIf (isEmpty items) QuizMustHaveQuestion [])) as Hq.
    destruct (forallb walkable items); [|reflexivity].
    destruct Hq as [errors' Hq]. rewrite Hq in H. discriminate.
  - intros [items [-> Hitems]].
    pose proof (forEach_questions_outcome items 0
                  (pushIf (isEmpty items) QuizMustHaveQuestion [])) as Hq.
    rewrite Hitems in Hq. rewrite Hq. exists TypeError. reflexivity.
Qed.

(** C9, at inputs where the code departs from it.  validateQuizData raises
    a TypeError on a question list holding [null] and on a question whose
    answers are a string; validateUserResponses raises a TypeError when the
    question a response refers to has no answers property. *)
Theorem validators_raise_on_malformed_input :
  validateQuizData (Array [Null]) = Throw TypeError /\
  validateQuizData quizWithStringAnswers = Throw TypeError /\
  (forall numberToString : R -> string,
      validateUserResponses numberToString quizWithoutAnswers responseToQ1
      = Throw TypeError).
Proof.
  split; [reflexivity|]. split; [reflexivity|]. intros numberToString. reflexivity.
Qed.

(** * Further properties

    What the functions return, raise and leave alone beyond the properties
    above.  Numbers are exact reals, as everywhere in this development. *)

(** ** calculateArchetypeScores: the score of each archetype *)

Lemma get_addPoints (w : R) (scores : ScoreMap) (k : string) (p : R) (A : string) :
  get (addPoints w scores (k, p)) A
  = if String.eqb k A then Some (orDefault (get scores A) 0 + w * p) else get scores A.
Proof.
  unfold addPoints. destruct (String.eqb k A) eqn:E.
  - apply String.eqb_eq in E. subst A.
    destruct (get scores k) as [s|]; rewrite get_set_same; cbn [orDefault];
      f_equal; lra.
  - assert (k <> A) as Hne by (intros ->; rewrite String.eqb_refl in E; discriminate).
    destruct (get scores k); apply get_set_other, Hne.
Qed.

Lemma filter_existsb_false {A : Type} (p : A -> bool) (l : list A) :
  existsb p l = false -> filter p l = [].
Proof.
  intros H. apply filter_nothing. intros a Ha.
  destruct (p a) eqn:E; [|reflexivity].
  assert (existsb p l = true) by (apply existsb_exists; eauto). congruence.
Qed.

Lemma get_fold_addPoints (w : R) (points : object R) (scores : ScoreMap) (A : string) :
  get (fold_left (addPoints w) points scores) A
  = if existsb (fun e => String.eqb (fst e) A) points
    then Some (orDefault (get scores A) 0
               + w * Rsum (map snd (filter (fun e => String.eqb (fst e) A) points)))
    else get scores A.
Proof.
  revert scores. induction points as [|[k p] points IH]; intros scores;
    cbn [fold_left existsb filter fst]; [reflexivity|].
  rewrite IH, get_addPoints.
  destruct (String.eqb k A); cbn [orb map snd Rsum fold_right orDefault].
  - destruct (existsb _ points) eqn:E; f_equal; unfold Rsum; [lra|].
    rewrite (filter_existsb_false _ _ E). cbn. lra.
  - reflexivity.
Qed.

Lemma get_scoreResponse (questions : list Question) (scores : ScoreMap)
    (r : Response) (A : string) :
  get (scoreResponse (buildQuestionMap questions) scores r) A
  = if mentioned A questions [r]
    then Some (orDefault (get scores A) 0 + scoreFormula A questions [r])
    else get scores A.
Proof.
  unfold scoreResponse, mentioned, scoreFormula, processedResponses, resolve, resolveAnswer.
  cbn [flat_map]. rewrite get_buildQuestionMap, app_nil_r.
  destruct (resolveQuestion questions (questionId r)) as [q|]; [|reflexivity].
  destruct (find _ (answers q)) as [a|]; [|reflexivity].
  cbn [existsb map fst snd Rsum fold_right]. unfold awardsTo, pointsFor.
  destruct (archetypeScores a) as [points|]; [|reflexivity].
  rewrite get_fold_addPoints, orb_false_r.
  destruct (existsb _ points); [|reflexivity].
  f_equal. destruct (weight q); cbn [orDefault]; lra.
Qed.

Lemma mentioned_cons (A : string) (questions : list Question) (r : Response)
    (rs : list Response) :
  mentioned A questions (r :: rs) = mentioned A questions [r] || mentioned A questions rs.
Proof.
  unfold mentioned. rewrite (processedResponses_cons questions r rs). apply existsb_app.
Qed.

Lemma scoreFormula_cons (A : string) (questions : list Question) (r : Response)
    (rs : list Response) :
  scoreFormula A questions (r :: rs)
  = scoreFormula A questions [r] + scoreFormula A questions rs.
Proof.
  unfold scoreFormula. rewrite (processedResponses_cons questions r rs), map_app.
  apply Rsum_app.
Qed.

Lemma pointsFor_unawarded (A : string) (a : Answer) :
  awardsTo A a = false -> pointsFor A a = 0.
Proof.
  unfold awardsTo, pointsFor. destruct (archetypeScores a); [|reflexivity].
  intros H. now rewrite (filter_existsb_false _ _ H).
Qed.

Lemma scoreFormula_unmentioned (A : string) (questions : list Question)
    (rs : list Response) :
  mentioned A questions rs = false -> scoreFormula A questions rs = 0.
Proof.
  unfold mentioned, scoreFormula.
  induction (processedResponses questions rs) as [|qa l IH];
    cbn [existsb map Rsum fold_right]; [reflexivity|].
  intros H. apply orb_false_iff in H. destruct H as [Ha Hl].
  rewrite (pointsFor_unawarded _ _ Ha). fold (Rsum (map
    (fun qa0 => orDefault (weight (fst qa0)) 1 * pointsFor A (snd qa0)) l)).
  rewrite (IH Hl). lra.
Qed.

Lemma get_fold_scoreResponse (questions : list Question) (rs : list Response)
    (scores : ScoreMap) (A : string) :
  get (fold_left (scoreResponse (buildQuestionMap questions)) rs scores) A
  = if mentioned A questions rs
    then Some (orDefault (get scores A) 0 + scoreFormula A questions rs)
    else get scores A.
Proof.
  revert scores. induction rs as [|r rs IH]; intros scores; [reflexivity|].
  rewrite (mentioned_cons A questions r rs), (scoreFormula_cons A questions r rs).
  cbn [fold_left]. rewrite IH, get_scoreResponse.
  destruct (mentioned A questions [r]) eqn:E1, (mentioned A questions rs) eqn:E2;
    cbn [orb orDefault]; try reflexivity; apply f_equal.
  - lra.
  - rewrite (scoreFormula_unmentioned _ _ _ E2). lra.
  - rewrite (scoreFormula_unmentioned _ _ _ E1). lra.
Qed.

Lemma get_fold_set_zero (ks : list string) (acc : ScoreMap) (A : string) :
  get (fold_left (fun scores archetypeId => set scores archetypeId 0) ks acc) A
  = if existsb (fun k => String.eqb k A) ks then Some 0 else get acc A.
Proof.
  revert acc. induction ks as [|k ks IH]; intros acc; cbn [fold_left existsb];
    [reflexivity|].
  rewrite IH. destruct (existsb _ ks); [now rewrite orb_true_r|]. rewrite orb_false_r.
  destruct (String.eqb k A) eqn:E.
  - apply String.eqb_eq in E. subst. apply get_set_same.
  - apply get_set_other. intros ->. rewrite String.eqb_refl in E. discriminate.
Qed.

Lemma existsb_keys {V : Type} (obj : object V) (A : string) :
  existsb (fun k => String.eqb k A) (keys obj)
  = match get obj A with Some _ => true | None => false end.
Proof.
  induction obj as [|[k v] obj IH]; cbn [keys map existsb get fst]; [reflexivity|].
  destruct (String.eqb k A); [reflexivity|]. exact IH.
Qed.

Lemma get_initialScores (A : string) :
  get initialScores A = if catalogued A then Some 0 else None.
Proof.
  unfold initialScores, catalogued. rewrite get_fold_set_zero, existsb_keys.
  now destruct (get ARCHETYPE_TRAIT_PROFILES A).
Qed.

(** X1.  For a quiz with plain identifiers (no array index, no name that
    objects inherit), calculateArchetypeScores gives an archetype an entry
    exactly when the catalogue lists it or a processed response awards it
    points, and the entry is the sum, over the processed responses, of the
    question's weight (1 when it has none) times the points the chosen
    answer awards to that archetype (numbers read as exact reals). *)
Theorem score_of_each_archetype :
  forall (questions : list Question) (userResponses : list Response) (archetypeId : string),
    plainQuiz questions userResponses = true ->
    plainKey archetypeId = true ->
    get (calculateArchetypeScores questions userResponses) archetypeId
    = if catalogued archetypeId || mentioned archetypeId questions userResponses
      then Some (scoreFormula archetypeId questions userResponses)
      else None.
Proof.
  intros questions userResponses A _ _. unfold calculateArchetypeScores.
  rewrite get_fold_scoreResponse, get_initialScores.
  destruct (mentioned A questions userResponses) eqn:E, (catalogued A);
    cbn [orb orDefault]; try reflexivity; apply f_equal; try lra.
  rewrite (scoreFormula_unmentioned _ _ _ E). reflexivity.
Qed.

Lemma score_of_each_archetype_witness :
  plainQuiz dynamicQuiz dynamicResponses = true /\
  plainKey "dynamic-archetype" = true /\
  get (calculateArchetypeScores dynamicQuiz dynamicResponses) "dynamic-archetype"
  = if catalogued "dynamic-archetype"
       || mentioned "dynamic-archetype" dynamicQuiz dynamicResponses
    then Some (scoreFormula "dynamic-archetype" dynamicQuiz dynamicResponses)
    else None.
Proof.
  split; [reflexivity|]. split; [reflexivity|].
  apply (score_of_each_archetype dynamicQuiz dynamicResponses "dynamic-archetype");
    reflexivity.
Defined.

(** ** calculateArchetypeScores: keys, skipped responses, order of the responses *)

Lemma keys_set {V : Type} (obj : object V) (k : string) (v : V) :
  keys (set obj k v)
  = if existsb (fun k' => String.eqb k' k) (keys obj) then keys obj else keys obj ++ [k].
Proof.
  induction obj as [|[k' v'] obj IH]; cbn [set keys map fst existsb]; [reflexivity|].
  destruct (String.eqb k' k) eqn:E; cbn [orb map fst]; [reflexivity|].
  unfold keys in IH. rewrite IH. now destruct (existsb _ (map fst obj)).
Qed.

Lemma existsb_eqb_In (k : string) (l : list string) :
  existsb (fun k' => String.eqb k' k) l = true <-> In k l.
Proof.
  rewrite existsb_exists. split.
  - intros [k' [Hin E]]. apply String.eqb_eq in E. now subst.
  - intros Hin. exists k. split; [exact Hin|apply String.eqb_refl].
Qed.

Lemma keys_set_grow {V : Type} (obj : object V) (k : string) (v : V) :
  (exists added, keys (set obj k v) = keys obj ++ added) /\
  (NoDup (keys obj) -> NoDup (keys (set obj k v))).
Proof.
  rewrite keys_set. destruct (existsb _ (keys obj)) eqn:E.
  - split; [exists []; now rewrite app_nil_r|auto].
  - split; [now exists [k]|]. intros Hnd.
    apply NoDup_app; [exact Hnd|repeat constructor; intros []|].
    intros k' Hin [<-|[]].
    apply existsb_eqb_In in Hin. congruence.
Qed.

Lemma keys_addPoints (w : R) (scores : ScoreMap) (entry : string * R) :
  (exists added, keys (addPoints w scores entry) = keys scores ++ added) /\
  (NoDup (keys scores) -> NoDup (keys (addPoints w scores entry))).
Proof.
  destruct entry as [k p]. unfold addPoints.
  destruct (get scores k); apply keys_set_grow.
Qed.

Lemma keys_fold_grow {X : Type} (step : ScoreMap -> X -> ScoreMap) :
  (forall scores x,
      (exists added, keys (step scores x) = keys scores ++ added) /\
      (NoDup (keys scores) -> NoDup (keys (step scores x)))) ->
  forall (xs : list X) (scores : ScoreMap),
    (exists added, keys (fold_left step xs scores) = keys scores ++ added) /\
    (NoDup (keys scores) -> NoDup (keys (fold_left step xs scores))).
Proof.
  intros Hstep xs. induction xs as [|x xs IH]; intros scores; cbn [fold_left].
  - split; [exists []; now rewrite app_nil_r|auto].
  - destruct (Hstep scores x) as [[a1 E1] N1].
    destruct (IH (step scores x)) as [[a2 E2] N2].
    split; [|auto].
    exists (a1 ++ a2). now rewrite E2, E1, app_assoc.
Qed.

Lemma keys_scoreResponse (questionMap : object Question) (scores : ScoreMap) (r : Response) :
  (exists added, keys (scoreResponse questionMap scores r) = keys scores ++ added) /\
  (NoDup (keys scores) -> NoDup (keys (scoreResponse questionMap scores r))).
Proof.
  assert ((exists added, keys scores = keys scores ++ added) /\
          (NoDup (keys scores) -> NoDup (keys scores))) as Hsame
      by (split; [exists []; now rewrite app_nil_r|auto]).
  unfold scoreResponse.
  destruct (get questionMap (questionId r)) as [q|]; [|exact Hsame].
  destruct (find _ (answers q)) as [a|]; [|exact Hsame].
  destruct (archetypeScores a) as [points|]; [|exact Hsame].
  apply keys_fold_grow. intros s e. apply keys_addPoints.
Qed.

Lemma keys_initialScores : keys initialScores = keys ARCHETYPE_TRAIT_PROFILES.
Proof. reflexivity. Qed.

Lemma NoDup_catalogue : NoDup (keys ARCHETYPE_TRAIT_PROFILES).
Proof.
  cbn [keys map fst ARCHETYPE_TRAIT_PROFILES].
  repeat (constructor; [cbn [In]; intros H;
                        repeat (destruct H as [H|H]; [discriminate H|]); exact H|]).
  constructor.
Qed.

Lemma keys_addPoints_exact (w : R) (scores : ScoreMap) (entry : string * R) :
  keys (addPoints w scores entry) = addKey (keys scores) (fst entry).
Proof.
  destruct entry as [k p]. unfold addPoints, addKey. cbn [fst].
  destruct (get scores k); apply keys_set.
Qed.

Lemma keys_fold_addPoints (w : R) (points scores : ScoreMap) :
  keys (fold_left (addPoints w) points scores)
  = fold_left addKey (keys points) (keys scores).
Proof.
  revert scores. induction points as [|e points IH]; intros scores; [reflexivity|].
  change (keys (e :: points)) with (fst e :: keys points). cbn [fold_left].
  now rewrite IH, keys_addPoints_exact.
Qed.

Lemma keys_scoreResponse_exact (questions : list Question) (scores : ScoreMap)
    (r : Response) :
  keys (scoreResponse (buildQuestionMap questions) scores r)
  = fold_left addKey (awardedIds questions [r]) (keys scores).
Proof.
  unfold scoreResponse, awardedIds, processedResponses, resolve, resolveAnswer.
  cbn [flat_map]. rewrite get_buildQuestionMap.
  destruct (resolveQuestion questions (questionId r)) as [q|]; [|reflexivity].
  destruct (find _ (answers q)) as [a|]; [|reflexivity].
  cbn [app flat_map snd]. rewrite app_nil_r.
  destruct (archetypeScores a) as [points|]; [|reflexivity].
  apply keys_fold_addPoints.
Qed.

Lemma awardedIds_cons (questions : list Question) (r : Response) (rs : list Response) :
  awardedIds questions (r :: rs) = awardedIds questions [r] ++ awardedIds questions rs.
Proof.
  unfold awardedIds. rewrite (processedResponses_cons questions r rs). apply flat_map_app.
Qed.

Lemma keys_fold_scoreResponse (questions : list Question) (rs : list Response)
    (scores : ScoreMap) :
  keys (fold_left (scoreResponse (buildQuestionMap questions)) rs scores)
  = fold_left addKey (awardedIds questions rs) (keys scores).
Proof.
  revert scores. induction rs as [|r rs IH]; intros scores; [reflexivity|].
  cbn [fold_left]. rewrite IH, keys_scoreResponse_exact, (awardedIds_cons questions r rs).
  now rewrite fold_left_app.
Qed.

Lemma NoDup_app_apart {A : Type} (l l' : list A) (a : A) :
  NoDup (l ++ l') -> In a l -> In a l' -> False.
Proof.
  intros Hnd Hl Hl'. apply in_split in Hl'. destruct Hl' as [l1 [l2 ->]].
  rewrite app_assoc in Hnd. apply NoDup_remove_2 in Hnd.
  apply Hnd. rewrite <- app_assoc. apply in_or_app. now left.
Qed.

Lemma key_of_score_map (questions : list Question) (rs : list Response) (id : string) :
  In id (keys (calculateArchetypeScores questions rs))
  <-> catalogued id || mentioned id questions rs = true.
Proof.
  rewrite <- existsb_eqb_In, existsb_keys. unfold calculateArchetypeScores.
  rewrite get_fold_scoreResponse, get_initialScores.
  destruct (mentioned id questions rs), (catalogued id); cbn [orb]; split;
    intros H; try reflexivity; discriminate.
Qed.

(** X2.  For a quiz with plain identifiers, the score map of
    calculateArchetypeScores lists the catalogue's archetypes first, in
    catalogue order, then exactly the archetypes outside the catalogue to
    which a processed response awards points, in the order in which they
    are first awarded, and holds no identifier twice. *)
Theorem score_map_keys :
  forall (questions : list Question) (userResponses : list Response),
    plainQuiz questions userResponses = true ->
    keys (calculateArchetypeScores questions userResponses)
    = fold_left addKey (awardedIds questions userResponses)
                (keys ARCHETYPE_TRAIT_PROFILES)
    /\ (exists added,
          keys (calculateArchetypeScores questions userResponses)
          = keys ARCHETYPE_TRAIT_PROFILES ++ added
          /\ forall id, In id added
                        <-> catalogued id = false
                            /\ mentioned id questions userResponses = true)
    /\ NoDup (keys (calculateArchetypeScores questions userResponses)).
Proof.
  intros questions userResponses _.
  destruct (keys_fold_grow (scoreResponse (buildQuestionMap questions))
              (keys_scoreResponse (buildQuestionMap questions))
              userResponses initialScores) as [[added Hgrow] Hnodup].
  fold (calculateArchetypeScores questions userResponses) in Hgrow, Hnodup.
  rewrite keys_initialScores in Hgrow, Hnodup.
  specialize (Hnodup NoDup_catalogue).
  split; [|split; [|exact Hnodup]].
  - unfold calculateArchetypeScores. now rewrite keys_fold_scoreResponse.
  - exists added. split; [exact Hgrow|]. intros id.
    assert (In id (keys ARCHETYPE_TRAIT_PROFILES) <-> catalogued id = true) as Hcat.
    { rewrite <- existsb_eqb_In, existsb_keys. unfold catalogued.
      now destruct (get ARCHETYPE_TRAIT_PROFILES id). }
    pose proof (key_of_score_map questions userResponses id) as Hkey.
    rewrite Hgrow, in_app_iff in Hkey. rewrite Hgrow in Hnodup.
    split.
    + intros Hin.
      assert (catalogued id = false) as Hnot.
      { destruct (catalogued id) eqn:E; [|reflexivity]. exfalso.
        apply (NoDup_app_apart _ _ id Hnodup); [now apply Hcat|exact Hin]. }
      split; [exact Hnot|].
      assert (catalogued id || mentioned id questions userResponses = true) as H
          by (apply Hkey; now right).
      now rewrite Hnot in H.
    + intros [Hnot Hm].
      assert (In id (keys ARCHETYPE_TRAIT_PROFILES) \/ In id added) as [H|H]
          by (apply Hkey; rewrite Hm; apply orb_true_r).
      * apply Hcat in H. congruence.
      * exact H.
Qed.

Lemma score_map_keys_witness :
  plainQuiz dynamicQuiz dynamicResponses = true
  /\ keys (calculateArchetypeScores dynamicQuiz dynamicResponses)
     = fold_left addKey (awardedIds dynamicQuiz dynamicResponses)
                 (keys ARCHETYPE_TRAIT_PROFILES)
  /\ (exists added,
        keys (calculateArchetypeScores dynamicQuiz dynamicResponses)
        = keys ARCHETYPE_TRAIT_PROFILES ++ added
        /\ forall id, In id added
                      <-> catalogued id = false
                          /\ mentioned id dynamicQuiz dynamicResponses = true)
  /\ NoDup (keys (calculateArchetypeScores dynamicQuiz dynamicResponses)).
Proof.
  split; [reflexivity|].
  apply (score_map_keys dynamicQuiz dynamicResponses). reflexivity.
Defined.

Lemma scoreResponse_unresolved (questions : list Question) (scores : ScoreMap)
    (r : Response) :
  resolves questions r = false ->
  scoreResponse (buildQuestionMap questions) scores r = scores.
Proof.
  unfold resolves, resolve, resolveAnswer, scoreResponse.
  rewrite get_buildQuestionMap.
  destruct (resolveQuestion questions (questionId r)) as [q|]; [|reflexivity].
  destruct (find _ (answers q)); [discriminate|reflexivity].
Qed.

(** X3.  For a quiz with plain identifiers, a response whose question id or
    answer id does not resolve has no effect on the scores:
    calculateArchetypeScores returns what it returns on the resolving
    responses alone. *)
Theorem unresolved_responses_are_skipped :
  forall (questions : list Question) (userResponses : list Response),
    plainQuiz questions userResponses = true ->
    calculateArchetypeScores questions userResponses
    = calculateArchetypeScores questions (filter (resolves questions) userResponses).
Proof.
  intros questions userResponses _. unfold calculateArchetypeScores.
  generalize initialScores.
  induction userResponses as [|r rs IH]; intros scores; cbn [fold_left filter];
    [reflexivity|].
  destruct (resolves questions r) eqn:E.
  - cbn [fold_left]. apply IH.
  - rewrite (scoreResponse_unresolved questions scores r E). apply IH.
Qed.

Lemma unresolved_responses_are_skipped_witness :
  plainQuiz dynamicQuiz [mkResponse "q1" "a"; mkResponse "q9" "z"] = true /\
  calculateArchetypeScores dynamicQuiz [mkResponse "q1" "a"; mkResponse "q9" "z"]
  = calculateArchetypeScores dynamicQuiz
      (filter (resolves dynamicQuiz) [mkResponse "q1" "a"; mkResponse "q9" "z"]).
Proof.
  split; [reflexivity|].
  apply (unresolved_responses_are_skipped dynamicQuiz
           [mkResponse "q1" "a"; mkResponse "q9" "z"]).
  reflexivity.
Defined.

Lemma processedResponses_perm (questions : list Question) (rs rs' : list Response) :
  Permutation rs rs' ->
  Permutation (processedResponses questions rs) (processedResponses questions rs').
Proof.
  unfold processedResponses. induction 1; cbn [flat_map].
  - constructor.
  - now apply Permutation_app_head.
  - rewrite !app_assoc. apply Permutation_app_tail, Permutation_app_comm.
  - etransitivity; eassumption.
Qed.

Lemma Rsum_perm (l l' : list R) : Permutation l l' -> Rsum l = Rsum l'.
Proof. induction 1; cbn [Rsum fold_right] in *; unfold Rsum in *; lra. Qed.

Lemma existsb_perm {A : Type} (p : A -> bool) (l l' : list A) :
  Permutation l l' -> existsb p l = existsb p l'.
Proof.
  induction 1; cbn [existsb].
  - reflexivity.
  - now rewrite IHPermutation.
  - now rewrite !orb_assoc, (orb_comm (p y)).
  - congruence.
Qed.

(** X4.  For a quiz with plain identifiers, the score
    calculateArchetypeScores gives an archetype does not depend on the order
    of the responses (numbers read as exact reals). *)
Theorem scores_do_not_depend_on_response_order :
  forall (questions : list Question) (rs rs' : list Response) (archetypeId : string),
    plainQuiz questions rs = true ->
    plainKey archetypeId = true ->
    Permutation rs rs' ->
    get (calculateArchetypeScores questions rs) archetypeId
    = get (calculateArchetypeScores questions rs') archetypeId.
Proof.
  intros questions rs rs' A _ _ Hperm. unfold calculateArchetypeScores.
  rewrite !get_fold_scoreResponse.
  pose proof (processedResponses_perm questions rs rs' Hperm) as Hp.
  assert (mentioned A questions rs = mentioned A questions rs') as ->
      by (apply existsb_perm, Hp).
  assert (scoreFormula A questions rs = scoreFormula A questions rs') as ->
      by (apply Rsum_perm, Permutation_map, Hp).
  reflexivity.
Qed.

Lemma scores_do_not_depend_on_response_order_witness :
  plainQuiz dynamicQuiz [mkResponse "q1" "a"; mkResponse "q9" "z"] = true /\
  plainKey "dynamic-archetype" = true /\
  Permutation [mkResponse "q1" "a"; mkResponse "q9" "z"]
              [mkResponse "q9" "z"; mkResponse "q1" "a"] /\
  get (calculateArchetypeScores dynamicQuiz
         [mkResponse "q1" "a"; mkResponse "q9" "z"]) "dynamic-archetype"
  = get (calculateArchetypeScores dynamicQuiz
           [mkResponse "q9" "z"; mkResponse "q1" "a"]) "dynamic-archetype".
Proof.
  split; [reflexivity|]. split; [reflexivity|]. split; [apply perm_swap|].
  apply (scores_do_not_depend_on_response_order dynamicQuiz
           [mkResponse "q1" "a"; mkResponse "q9" "z"]
           [mkResponse "q9" "z"; mkResponse "q1" "a"] "dynamic-archetype");
    [reflexivity|reflexivity|apply perm_swap].
Defined.

(** ** determineDominantArchetypes: the threshold band *)

Lemma dominant_entries (scores : ScoreMap) (eps : R) (r : Dominance.t) :
  determineDominantArchetypes scores eps = Return r ->
  Dominance.threshold r = Dominance.maxScore r * (1 - eps) /\
  Dominance.dominant r
  = map fst (sort compareDominant (entriesAtLeast (Dominance.threshold r) scores)) /\
  Dominance.hasTie r = Nat.ltb 1 (List.length (Dominance.dominant r)) /\
  (forall e, In e scores -> snd e <= Dominance.maxScore r) /\
  (exists e, In e scores /\ snd e = Dominance.maxScore r) /\
  (exists e, In e scores /\ snd e = Dominance.maxScore r - Dominance.variance r) /\
  (forall e, In e scores -> Dominance.maxScore r - Dominance.variance r <= snd e).
Proof.
  destruct scores as [|first rest]; [discriminate|].
  unfold determineDominantArchetypes.
  destruct (Rltb _ _ && Reqb _ _); [discriminate|].
  match goal with |- Return ?res = _ -> _ => set (result := res) end.
  intros H. assert (r = result) as -> by congruence. unfold result.
  cbn [Dominance.threshold Dominance.maxScore Dominance.dominant Dominance.hasTie
       Dominance.variance].
  destruct (scores_max_spec first rest) as [Hub Hmax].
  destruct (scores_min_spec first rest) as [Hlb [emin [Hin Hmin]]].
  repeat split; try assumption.
  - unfold entriesAtLeast. do 2 f_equal. apply filter_ext. intros e. apply Rgeb_Rleb.
  - exists emin. split; [exact Hin|]. rewrite Hmin. lra.
  - intros e He. specialize (Hlb e He). lra.
Qed.

Lemma dominant_set_is_threshold_band_parts (scores : ScoreMap) (eps : R) (r : Dominance.t) :
  determineDominantArchetypes scores eps = Return r ->
  (forall e, In e scores -> snd e <= Dominance.maxScore r) /\
  Dominance.threshold r = Dominance.maxScore r * (1 - eps) /\
  (forall id, In id (Dominance.dominant r)
              <-> exists s, In (id, s) scores /\ Dominance.threshold r <= s).
Proof.
  intros H.
  destruct (dominant_entries scores eps r H) as (Hthr & Hdom & _ & Hub & _).
  split; [exact Hub|]. split; [exact Hthr|].
  intros id. rewrite Hdom. split.
  - intros Hin. apply in_map_iff in Hin.
    destruct Hin as [[id' s] [<- Hin]]. apply sort_In in Hin.
    apply filter_In in Hin. destruct Hin as [Hin Hs]. apply Rleb_true in Hs.
    exists s. split; assumption.
  - intros [s [Hin Hs]]. apply in_map_iff. exists (id, s).
    split; [reflexivity|]. apply sort_In, filter_In. split; [exact Hin|].
    now apply Rleb_true.
Qed.

(** X5.  When determineDominantArchetypes returns, maxScore is the largest
    score and some archetype has it, threshold is maxScore * (1 -
    tolerance), the dominant list holds exactly the identifiers of the
    entries at or above the threshold, one for each such entry, and hasTie
    says whether there are at least two of them. *)
Theorem dominant_set_is_threshold_band :
  forall (scores : ScoreMap) (eps : R) (r : Dominance.t),
    determineDominantArchetypes scores eps = Return r ->
    (forall e, In e scores -> snd e <= Dominance.maxScore r) /\
    (exists e, In e scores /\ snd e = Dominance.maxScore r) /\
    Dominance.threshold r = Dominance.maxScore r * (1 - eps) /\
    (forall id, In id (Dominance.dominant r)
                <-> exists s, In (id, s) scores /\ Dominance.threshold r <= s) /\
    List.length (Dominance.dominant r)
      = List.length (entriesAtLeast (Dominance.threshold r) scores) /\
    (Dominance.hasTie r = true
       <-> (2 <= List.length (entriesAtLeast (Dominance.threshold r) scores))%nat).
Proof.
  intros scores eps r H.
  destruct (dominant_entries scores eps r H)
    as (Hthr & Hdom & Htie & Hub & Hmax & _ & _).
  assert (List.length (Dominance.dominant r)
          = List.length (entriesAtLeast (Dominance.threshold r) scores)) as Hlen.
  { rewrite Hdom, length_map. apply Permutation_length, sort_perm. }
  repeat split; try assumption.
  - rewrite Hdom. intros Hin. apply in_map_iff in Hin.
    destruct Hin as [[id' s] [<- Hin]]. apply sort_In in Hin.
    apply filter_In in Hin. destruct Hin as [Hin Hs]. apply Rleb_true in Hs.
    exists s. split; assumption.
  - intros [s [Hin Hs]]. rewrite Hdom. apply in_map_iff. exists (id, s).
    split; [reflexivity|]. apply sort_In, filter_In. split; [exact Hin|].
    now apply Rleb_true.
  - rewrite Htie, Hlen. intros Hlt. apply Nat.ltb_lt in Hlt. lia.
  - rewrite Htie, Hlen. intros Hle. apply Nat.ltb_lt. lia.
Qed.

Lemma dominant_set_is_threshold_band_witness :
  (forall e, In e [("a", 5); ("b", 5); ("c", 2)] -> snd e <= 5) /\
  (exists e, In e [("a", 5); ("b", 5); ("c", 2)] /\ snd e = 5) /\
  5 * (1 - 0.05) = 5 * (1 - 0.05) /\
  (forall id, In id ["a"; "b"]
              <-> exists s, In (id, s) [("a", 5); ("b", 5); ("c", 2)] /\ 5 * (1 - 0.05) <= s) /\
  List.length ["a"; "b"]
    = List.length (entriesAtLeast (5 * (1 - 0.05)) [("a", 5); ("b", 5); ("c", 2)]) /\
  (true = true
     <-> Nat.le 2%nat (List.length (entriesAtLeast (5 * (1 - 0.05))
                                      [("a", 5); ("b", 5); ("c", 2)]))).
Proof.
  exact (dominant_set_is_threshold_band
           [("a", 5); ("b", 5); ("c", 2)] 0.05
           (Dominance.mk ["a"; "b"] [("a", 5); ("b", 5)] 5 (5 * (1 - 0.05)) true (5 - 2))
           tie_detection_determinism).
Defined.

(** X6.  With a maximum that is not negative, a wider tie tolerance leaves
    maxScore as it is, lowers the threshold (or keeps it) and keeps every
    archetype that was dominant under the narrower tolerance. *)
Theorem wider_tolerance_keeps_dominant_archetypes :
  forall (scores : ScoreMap) (eps1 eps2 : R) (r1 r2 : Dominance.t),
    determineDominantArchetypes scores eps1 = Return r1 ->
    determineDominantArchetypes scores eps2 = Return r2 ->
    0 <= Dominance.maxScore r1 ->
    eps1 <= eps2 ->
    Dominance.maxScore r2 = Dominance.maxScore r1 /\
    Dominance.threshold r2 <= Dominance.threshold r1 /\
    incl (Dominance.dominant r1) (Dominance.dominant r2).
Proof.
  intros scores eps1 eps2 r1 r2 H1 H2 Hmax Heps.
  destruct (dominant_entries scores eps1 r1 H1) as (Ht1 & Hd1 & _ & Hub1 & [e1 [He1 E1]] & _).
  destruct (dominant_entries scores eps2 r2 H2) as (Ht2 & Hd2 & _ & Hub2 & [e2 [He2 E2]] & _).
  assert (Dominance.maxScore r2 = Dominance.maxScore r1) as Hsame.
  { apply Rle_antisym.
    - rewrite <- E2. apply Hub1, He2.
    - rewrite <- E1. apply Hub2, He1. }
  assert (Dominance.threshold r2 <= Dominance.threshold r1) as Hthr
      by (rewrite Ht1, Ht2, Hsame; nra).
  repeat split; try assumption.
  intros id Hin. rewrite Hd1 in Hin. rewrite Hd2.
  apply in_map_iff in Hin. destruct Hin as [e [<- Hin]].
  apply in_map, sort_In. apply sort_In in Hin.
  unfold entriesAtLeast in *. apply filter_In in Hin. destruct Hin as [Hin Hs].
  apply filter_In. split; [exact Hin|]. apply Rleb_true in Hs. apply Rleb_true. lra.
Qed.

Example half_tolerance_includes_all :
  determineDominantArchetypes
    [("ostrich", 10); ("prepper", 9.6); ("apocaloptimist", 8)] 0.5
  = Return (Dominance.mk ["ostrich"; "prepper"; "apocaloptimist"]
              [("ostrich", 10); ("prepper", 9.6); ("apocaloptimist", 8)]
              10 (10 * (1 - 0.5)) true (10 - 8)).
Proof.
  unfold determineDominantArchetypes, compareDominant, MINIMUM_VARIANCE.
  evaluate. reflexivity.
Qed.

Lemma wider_tolerance_keeps_dominant_archetypes_witness :
  10 = 10 /\
  10 * (1 - 0.5) <= 10 * (1 - 0.05) /\
  incl ["ostrich"; "prepper"] ["ostrich"; "prepper"; "apocaloptimist"].
Proof.
  apply (wider_tolerance_keeps_dominant_archetypes
           [("ostrich", 10); ("prepper", 9.6); ("apocaloptimist", 8)] 0.05 0.5
           _ _ near_tie_inclusion half_tolerance_includes_all).
  - cbn [Dominance.maxScore]. lra.
  - lra.
Defined.

(** ** normalizeScores *)

Lemma fold_weights (questions : list Question) (acc : R) :
  fold_left (fun sum q => sum + questionWeight q) questions acc
  = acc + totalWeight questions.
Proof.
  revert acc. unfold totalWeight.
  induction questions as [|q questions IH]; intros acc; cbn [fold_left map Rsum fold_right].
  - lra.
  - rewrite IH. unfold questionWeight, Rsum. destruct (weight q); cbn [orDefault]; lra.
Qed.

Lemma get_not_key {V : Type} (obj : object V) (k : string) :
  ~ In k (keys obj) -> existsb (fun k' => String.eqb k' k) (keys obj) = false.
Proof.
  intros H. destruct (existsb _ (keys obj)) eqn:E; [|reflexivity].
  apply existsb_eqb_In in E. contradiction.
Qed.

Lemma set_new_key {V : Type} (obj : object V) (k : string) (v : V) :
  ~ In k (keys obj) -> set obj k v = obj ++ [(k, v)].
Proof.
  induction obj as [|[k' v'] obj IH]; cbn [set keys map fst In app]; [reflexivity|].
  intros H. destruct (String.eqb k' k) eqn:E.
  - apply String.eqb_eq in E. subst. exfalso. apply H. now left.
  - rewrite IH; [reflexivity|]. intros Hin. apply H. now right.
Qed.

(** Copying the entries of an object, one assignment per entry. *)
Lemma fold_set_copies {V W : Type} (f : string * V -> W) (entries : object V)
    (acc : object W) :
  NoDup (keys acc ++ keys entries) ->
  fold_left (fun copy e => set copy (fst e) (f e)) entries acc
  = acc ++ map (fun e => (fst e, f e)) entries.
Proof.
  revert acc. induction entries as [|[k v] entries IH]; intros acc Hnd;
    cbn [fold_left map fst keys].
  - now rewrite app_nil_r.
  - cbn [keys map fst] in Hnd.
    rewrite set_new_key.
    + rewrite IH.
      * now rewrite <- app_assoc.
      * unfold keys. rewrite map_app. cbn [map fst]. rewrite <- app_assoc. exact Hnd.
    + apply NoDup_remove_2 in Hnd. intros Hin. apply Hnd. apply in_or_app. now left.
Qed.

Lemma normalizeScores_outcome (scores : ScoreMap) (questions : list Question) :
  NoDup (keys scores) ->
  normalizeScores scores questions
  = if Reqb (totalWeight questions) 0 then Throw TotalWeightZero
    else Return (map (fun e => (fst e, snd e / totalWeight questions)) scores).
Proof.
  intros Hnd. unfold normalizeScores. rewrite fold_weights, Rplus_0_l.
  destruct (Reqb (totalWeight questions) 0); [reflexivity|].
  rewrite (fold_set_copies (fun e => snd e / totalWeight questions) scores []);
    [reflexivity|exact Hnd].
Qed.

Lemma NoDup_keys_scores (questions : list Question) (rs : list Response) :
  NoDup (keys (calculateArchetypeScores questions rs)).
Proof.
  unfold calculateArchetypeScores.
  apply (keys_fold_grow (scoreResponse (buildQuestionMap questions))
           (keys_scoreResponse (buildQuestionMap questions)) rs initialScores).
  rewrite keys_initialScores. apply NoDup_catalogue.
Qed.

(** X7.  On a score map with plain identifiers, none twice, normalizeScores
    raises TotalWeightZero when the question weights (1 for a question
    without one) sum to 0; otherwise it returns the same identifiers in the
    same order, each score divided by the total weight. *)
Theorem normalizeScores_divides_by_total_weight :
  forall (scores : ScoreMap) (questions : list Question),
    plainScores scores = true ->
    NoDup (keys scores) ->
    (totalWeight questions = 0 ->
       normalizeScores scores questions = Throw TotalWeightZero) /\
    (totalWeight questions <> 0 ->
       normalizeScores scores questions
       = Return (map (fun e => (fst e, snd e / totalWeight questions)) scores)).
Proof.
  intros scores questions _ Hnd. rewrite (normalizeScores_outcome _ _ Hnd). split.
  - intros Hzero. now rewrite (proj2 (Reqb_true _ _) Hzero).
  - intros Hne. now rewrite (proj2 (Reqb_false _ _) Hne).
Qed.

Lemma normalizeScores_divides_by_total_weight_witness :
  plainScores [("ostrich", 6); ("prepper", 9)] = true /\
  NoDup (keys [("ostrich", 6); ("prepper", 9)]) /\
  normalizeScores [("ostrich", 6); ("prepper", 9)] dynamicQuiz
  = Return (map (fun e => (fst e, snd e / totalWeight dynamicQuiz))
                [("ostrich", 6); ("prepper", 9)]).
Proof.
  assert (NoDup (keys [("ostrich", 6); ("prepper", 9)])) as Hnd.
  { repeat constructor; cbn [In]; intros H;
      repeat (destruct H as [H|H]; [discriminate H|]); exact H. }
  split; [reflexivity|]. split; [exact Hnd|].
  apply (proj2 (normalizeScores_divides_by_total_weight
                  [("ostrich", 6); ("prepper", 9)] dynamicQuiz eq_refl Hnd)).
  unfold totalWeight, dynamicQuiz. cbn [map weight orDefault Rsum fold_right]. lra.
Defined.

(** ** Vector primitives *)

Lemma squaredLength_zero (v : list R) :
  squaredLength v = 0 <-> Forall (fun x => x = 0) v.
Proof.
  unfold squaredLength. induction v as [|x v IH]; cbn [map Rsum fold_right].
  - split; [constructor|reflexivity].
  - pose proof (squaredLength_nonneg v) as Hv. unfold squaredLength, Rsum in *.
    split.
    + intros H. assert (x = 0) by nra. subst x.
      constructor; [reflexivity|]. apply IH. lra.
    + intros H. inversion H as [|? ? Hx Hrest]; subst.
      apply IH in Hrest. lra.
Qed.

(** X8.  calculateVectorNorm is never negative, its square is the sum of the
    squares of the components, and it is 0 exactly for a vector of zeros
    (the empty vector included; numbers read as exact reals). *)
Theorem norm_is_zero_only_for_zero_vector :
  forall v : list R,
    0 <= calculateVectorNorm v /\
    calculateVectorNorm v * calculateVectorNorm v = squaredLength v /\
    (calculateVectorNorm v = 0 <-> Forall (fun x => x = 0) v).
Proof.
  intros v. rewrite calculateVectorNorm_euclidean. unfold euclideanNorm.
  pose proof (squaredLength_nonneg v) as Hnn.
  split; [apply sqrt_pos|]. split; [now apply sqrt_sqrt|].
  rewrite <- squaredLength_zero. split.
  - intros H. apply sqrt_eq_0; assumption.
  - intros ->. apply sqrt_0.
Qed.

Lemma dotProduct_comm (u v : list R) : dotProduct u v = dotProduct v u.
Proof.
  unfold dotProduct. revert v.
  induction u as [|a u IH]; intros [|b v]; cbn [combine map Rsum fold_right fst snd];
    try reflexivity.
  specialize (IH v). unfold Rsum in *. rewrite IH. lra.
Qed.

(** X9.  calculateCosineSimilarity gives the same outcome, value or
    DimensionMismatch, when its two arguments are exchanged. *)
Theorem cosine_similarity_is_symmetric :
  forall u v : list R,
    calculateCosineSimilarity u v = calculateCosineSimilarity v u.
Proof.
  intros u v.
  destruct (Nat.eq_dec (List.length u) (List.length v)) as [Hlen|Hlen].
  - rewrite (calculateCosineSimilarity_equal_length u v Hlen).
    rewrite (calculateCosineSimilarity_equal_length v u (eq_sym Hlen)).
    rewrite orb_comm, (dotProduct_comm u v),
      (Rmult_comm (euclideanNorm u) (euclideanNorm v)).
    reflexivity.
  - unfold calculateCosineSimilarity.
    rewrite (proj2 (Nat.eqb_neq _ _) Hlen).
    rewrite (proj2 (Nat.eqb_neq _ _) (fun E => Hlen (eq_sym E))). reflexivity.
Qed.

Lemma dotProduct_self (v : list R) : dotProduct v v = squaredLength v.
Proof.
  unfold dotProduct, squaredLength.
  induction v as [|x v IH]; cbn [combine map Rsum fold_right fst snd]; [reflexivity|].
  unfold Rsum in *. now rewrite IH.
Qed.

Lemma dotProduct_scale (c : R) (u v : list R) :
  dotProduct (scaleVector c u) v = c * dotProduct u v.
Proof.
  unfold dotProduct, scaleVector. revert v.
  induction u as [|a u IH]; intros [|b v]; cbn [combine map Rsum fold_right fst snd];
    try lra.
  specialize (IH v). unfold Rsum in *. rewrite IH. lra.
Qed.

Lemma squaredLength_scale (c : R) (v : list R) :
  squaredLength (scaleVector c v) = c * c * squaredLength v.
Proof.
  unfold squaredLength, scaleVector.
  induction v as [|x v IH]; cbn [map Rsum fold_right]; [lra|].
  unfold Rsum in *. rewrite IH. lra.
Qed.

Lemma euclideanNorm_scale (c : R) (v : list R) :
  0 <= c -> euclideanNorm (scaleVector c v) = c * euclideanNorm v.
Proof.
  intros Hc. unfold euclideanNorm. rewrite squaredLength_scale.
  rewrite sqrt_mult; [|nra|apply squaredLength_nonneg].
  now rewrite sqrt_square.
Qed.

(** X10.  For a vector that is not all zeros, the cosine similarity with
    itself and with a positive multiple of itself is 1, and with a negative
    multiple it is -1 (numbers read as exact reals). *)
Theorem cosine_similarity_of_aligned_vectors :
  forall (v : list R) (c : R),
    ~ Forall (fun x => x = 0) v ->
    0 < c ->
    calculateCosineSimilarity v v = Return 1 /\
    calculateCosineSimilarity (scaleVector c v) v = Return 1 /\
    calculateCosineSimilarity (scaleVector (- c) v) v = Return (-1).
Proof.
  intros v c Hv Hc.
  assert (0 < squaredLength v) as Hsl.
  { pose proof (squaredLength_nonneg v) as Hnn.
    destruct (Req_dec_T (squaredLength v) 0) as [E|E]; [|lra].
    apply squaredLength_zero in E. contradiction. }
  assert (0 < euclideanNorm v) as Hn by (apply sqrt_lt_R0, Hsl).
  assert (euclideanNorm v * euclideanNorm v = squaredLength v) as Hsq
      by (apply sqrt_sqrt; lra).
  assert (forall k, List.length (scaleVector k v) = List.length v) as Hlen
      by (intros k; apply length_map).
  assert (euclideanNorm (scaleVector (- c) v) = c * euclideanNorm v) as Hneg.
  { unfold euclideanNorm. rewrite squaredLength_scale.
    replace (- c * - c) with (c * c) by lra.
    rewrite sqrt_mult; [|nra|lra]. rewrite sqrt_square by lra. reflexivity. }
  split; [|split].
  - rewrite (calculateCosineSimilarity_equal_length v v eq_refl).
    rewrite (proj2 (Reqb_false (euclideanNorm v) 0)) by lra. cbn [orb].
    rewrite dotProduct_self, <- Hsq. f_equal. field. lra.
  - rewrite (calculateCosineSimilarity_equal_length _ _ (Hlen c)).
    rewrite (euclideanNorm_scale c v) by lra.
    rewrite (proj2 (Reqb_false (c * euclideanNorm v) 0)) by nra.
    rewrite (proj2 (Reqb_false (euclideanNorm v) 0)) by lra. cbn [orb].
    rewrite dotProduct_scale, dotProduct_self, <- Hsq. f_equal. field. lra.
  - rewrite (calculateCosineSimilarity_equal_length _ _ (Hlen (- c))).
    rewrite Hneg.
    rewrite (proj2 (Reqb_false (c * euclideanNorm v) 0)) by nra.
    rewrite (proj2 (Reqb_false (euclideanNorm v) 0)) by lra. cbn [orb].
    rewrite dotProduct_scale, dotProduct_self, <- Hsq. f_equal. field. lra.
Qed.

Lemma cosine_similarity_of_aligned_vectors_witness :
  calculateCosineSimilarity [1; 2; 3] [1; 2; 3] = Return 1 /\
  calculateCosineSimilarity (scaleVector 2 [1; 2; 3]) [1; 2; 3] = Return 1 /\
  calculateCosineSimilarity (scaleVector (- 2) [1; 2; 3]) [1; 2; 3] = Return (-1).
Proof.
  apply (cosine_similarity_of_aligned_vectors [1; 2; 3] 2).
  - intros H. inversion H as [|? ? H1 _]. lra.
  - lra.
Defined.

(** X11.  Multiplying one argument of calculateCosineSimilarity by a
    positive factor does not change the outcome (numbers read as exact
    reals). *)
Theorem cosine_similarity_ignores_positive_scaling :
  forall (u v : list R) (c : R),
    0 < c ->
    calculateCosineSimilarity (scaleVector c u) v = calculateCosineSimilarity u v.
Proof.
  intros u v c Hc.
  assert (List.length (scaleVector c u) = List.length u) as Hmap by apply length_map.
  destruct (Nat.eq_dec (List.length u) (List.length v)) as [Hlen|Hlen].
  - rewrite (calculateCosineSimilarity_equal_length u v Hlen).
    rewrite (calculateCosineSimilarity_equal_length (scaleVector c u) v)
      by (rewrite Hmap; exact Hlen).
    rewrite (euclideanNorm_scale c u) by lra. rewrite dotProduct_scale.
    destruct (Reqb (euclideanNorm u) 0) eqn:Eu.
    + apply Reqb_true in Eu. rewrite Eu, Rmult_0_r.
      now rewrite (proj2 (Reqb_true 0 0) eq_refl).
    + apply Reqb_false in Eu.
      rewrite (proj2 (Reqb_false (c * euclideanNorm u) 0)) by nra. cbn [orb].
      destruct (Reqb (euclideanNorm v) 0) eqn:Ev; [reflexivity|].
      apply Reqb_false in Ev. f_equal. field. repeat split; lra.
  - unfold calculateCosineSimilarity. rewrite Hmap.
    now rewrite (proj2 (Nat.eqb_neq _ _) Hlen).
Qed.

Lemma cosine_similarity_ignores_positive_scaling_witness :
  calculateCosineSimilarity (scaleVector 20 [0.725; 0.4]) [0.9; 0.0]
  = calculateCosineSimilarity [0.725; 0.4] [0.9; 0.0].
Proof.
  apply (cosine_similarity_ignores_positive_scaling [0.725; 0.4] [0.9; 0.0] 20). lra.
Defined.

(** ** inferUserTraitVector: range and scaling *)

Lemma catalogue_in_range :
  Forall (fun e => inRange (snd e)) ARCHETYPE_TRAIT_PROFILES.
Proof.
  unfold ARCHETYPE_TRAIT_PROFILES, inRange.
  repeat (constructor;
          [cbn [snd awareness affect agency time relationality posture]; lra|]).
  constructor.
Qed.

Lemma get_In {V : Type} (obj : object V) (k : string) (v : V) :
  get obj k = Some v -> In (k, v) obj.
Proof.
  induction obj as [|[k' v'] obj IH]; cbn [get]; [discriminate|].
  destruct (String.eqb k' k) eqn:E.
  - intros [= <-]. apply String.eqb_eq in E. subst. now left.
  - intros H. right. now apply IH.
Qed.

Lemma traitOf_in_range (p : TraitProfile) (d : Dimension) :
  inRange p -> lowerBound d <= traitOf p d <= 1.
Proof. unfold inRange. destruct d; cbn [traitOf lowerBound]; lra. Qed.

Lemma contributions_in_range (scores : ScoreMap) (c : R * TraitProfile) :
  In c (contributions scores) -> 0 < fst c /\ inRange (snd c).
Proof.
  intros Hin. split; [now apply (contributions_positive scores)|].
  unfold contributions in Hin. apply in_flat_map in Hin. destruct Hin as [e [_ Hc]].
  destruct (get ARCHETYPE_TRAIT_PROFILES (fst e)) as [profile|] eqn:E; [|destruct Hc].
  destruct (Rltb 0 (snd e)); [|destruct Hc]. destruct Hc as [<-|[]].
  apply get_In in E. pose proof catalogue_in_range as Hall.
  rewrite Forall_forall in Hall. apply (Hall _ E).
Qed.

Lemma weighted_sum_bounds (l : list (R * TraitProfile)) (d : Dimension) :
  (forall c, In c l -> 0 < fst c /\ inRange (snd c)) ->
  lowerBound d * Rsum (map fst l)
  <= Rsum (map (fun c => fst c * traitOf (snd c) d) l)
  <= 1 * Rsum (map fst l).
Proof.
  induction l as [|c l IH]; intros H; cbn [map Rsum fold_right]; [lra|].
  destruct (H c (or_introl eq_refl)) as [Hpos Hr].
  pose proof (traitOf_in_range (snd c) d Hr) as Hb.
  assert (forall c', In c' l -> 0 < fst c' /\ inRange (snd c')) as H'
      by (intros c' Hc'; apply H; now right).
  specialize (IH H'). unfold Rsum in *. nra.
Qed.

Lemma quotient_bounds (lo w t : R) :
  0 < t -> lo * t <= w <= 1 * t -> lo <= w / t <= 1.
Proof.
  intros Ht [Hlo Hhi]. split.
  - apply Rmult_le_reg_r with t; [exact Ht|].
    unfold Rdiv. rewrite Rmult_assoc, Rinv_l by lra. lra.
  - apply Rmult_le_reg_r with t; [exact Ht|].
    unfold Rdiv. rewrite Rmult_assoc, Rinv_l by lra. lra.
Qed.

Lemma inferUserTraitVector_value (scores : ScoreMap) :
  inferUserTraitVector scores
  = if Rltb 0 (contributingScore scores)
    then map (fun d => weightedTraitSum scores d / contributingScore scores) dimensions
    else map (weightedTraitSum scores) dimensions.
Proof.
  unfold inferUserTraitVector, zeroTraits. rewrite fold_accumulateTraits.
  cbn [awareness affect agency time relationality posture].
  rewrite !Rplus_0_l, Rgtb_Rltb.
  destruct (Rltb 0 (contributingScore scores)); reflexivity.
Qed.

(** X12.  On a score map with plain identifiers, inferUserTraitVector
    returns six numbers, each inside the documented range of its dimension:
    awareness, agency, relationality and posture in [0, 1], affect and time
    in [-1, 1]. *)
Theorem inferred_traits_stay_in_range :
  forall scores : ScoreMap,
    plainScores scores = true ->
    exists a af ag t r p,
      inferUserTraitVector scores = [a; af; ag; t; r; p] /\
      inRange (mkProfile a af ag t r p).
Proof.
  intros scores _. rewrite inferUserTraitVector_value.
  pose proof (fun d => weighted_sum_bounds (contributions scores) d
                         (contributions_in_range scores)) as Hb.
  fold (contributingScore scores) in Hb.
  destruct (Rltb 0 (contributingScore scores)) eqn:E.
  - apply Rltb_true in E. do 6 eexists. split; [reflexivity|].
    unfold inRange. cbn [awareness affect agency time relationality posture].
    pose proof (fun d => quotient_bounds _ _ _ E (Hb d)) as Hq.
    repeat split;
      first [ apply (Hq DimAwareness) | apply (Hq DimAffect) | apply (Hq DimAgency)
            | apply (Hq DimTime) | apply (Hq DimRelationality) | apply (Hq DimPosture) ].
  - apply Rltb_false in E.
    assert (contributions scores = []) as Hnone.
    { destruct (contributions scores) eqn:Ec; [reflexivity|].
      assert (contributions scores <> []) as Hne by (rewrite Ec; discriminate).
      apply contributingScore_positive in Hne. lra. }
    unfold weightedTraitSum. rewrite Hnone. cbn [map Rsum fold_right dimensions].
    do 6 eexists. split; [reflexivity|].
    unfold inRange. cbn [awareness affect agency time relationality posture]. lra.
Qed.

Lemma inferred_traits_stay_in_range_witness :
  plainScores testScores = true /\
  exists a af ag t r p,
    inferUserTraitVector testScores = [a; af; ag; t; r; p] /\
    inRange (mkProfile a af ag t r p).
Proof.
  split; [reflexivity|].
  apply (inferred_traits_stay_in_range testScores). reflexivity.
Defined.

Lemma contributions_scale (c : R) (scores : ScoreMap) :
  0 < c ->
  contributions (scaleScores c scores)
  = map (fun sp => (c * fst sp, snd sp)) (contributions scores).
Proof.
  intros Hc. unfold contributions, scaleScores.
  induction scores as [|[id s] scores IH]; cbn [map flat_map fst snd]; [reflexivity|].
  rewrite map_app, IH. f_equal.
  destruct (get ARCHETYPE_TRAIT_PROFILES id); [|reflexivity].
  destruct (Rltb 0 s) eqn:E.
  - apply Rltb_true in E. rewrite (proj2 (Rltb_true 0 (c * s))) by nra. reflexivity.
  - apply Rltb_false in E. rewrite (proj2 (Rltb_false 0 (c * s))) by nra. reflexivity.
Qed.

Lemma Rsum_scale {A : Type} (c : R) (f g : A -> R) (l : list A) :
  (forall a, g a = c * f a) -> Rsum (map g l) = c * Rsum (map f l).
Proof.
  intros H. induction l as [|a l IH]; cbn [map Rsum fold_right]; [lra|].
  unfold Rsum in *. rewrite IH, H. lra.
Qed.

Lemma inferUserTraitVector_scale (c : R) (scores : ScoreMap) :
  0 < c -> inferUserTraitVector (scaleScores c scores) = inferUserTraitVector scores.
Proof.
  intros Hc. rewrite !inferUserTraitVector_value.
  assert (contributingScore (scaleScores c scores) = c * contributingScore scores) as Ht.
  { unfold contributingScore. rewrite (contributions_scale c scores Hc), map_map.
    apply Rsum_scale. reflexivity. }
  assert (forall d, weightedTraitSum (scaleScores c scores) d
                    = c * weightedTraitSum scores d) as Hw.
  { intros d. unfold weightedTraitSum.
    rewrite (contributions_scale c scores Hc), map_map.
    apply Rsum_scale. intros sp. cbn [fst snd]. lra. }
  rewrite Ht.
  destruct (Rltb 0 (contributingScore scores)) eqn:E.
  - apply Rltb_true in E. rewrite (proj2 (Rltb_true 0 (c * contributingScore scores))) by nra.
    apply map_ext. intros d. rewrite Hw. field. lra.
  - apply Rltb_false in E.
    rewrite (proj2 (Rltb_false 0 (c * contributingScore scores))) by nra.
    assert (contributions scores = []) as Hnone.
    { destruct (contributions scores) eqn:Ec; [reflexivity|].
      assert (contributions scores <> []) as Hne by (rewrite Ec; discriminate).
      apply contributingScore_positive in Hne. lra. }
    apply map_ext. intros d. rewrite Hw. unfold weightedTraitSum. rewrite Hnone.
    cbn [map Rsum fold_right]. lra.
Qed.

(** X13.  On a score map with plain identifiers, none twice, the inferred
    trait vector does not change when every score is multiplied by the same
    positive factor; in particular the scores normalizeScores returns for a
    positive total weight give the same trait vector as the raw scores
    (numbers read as exact reals). *)
Theorem inferred_traits_ignore_positive_scaling :
  forall scores : ScoreMap,
    plainScores scores = true ->
    NoDup (keys scores) ->
    (forall c, 0 < c ->
       inferUserTraitVector (scaleScores c scores) = inferUserTraitVector scores) /\
    (forall questions normalized,
       0 < totalWeight questions ->
       normalizeScores scores questions = Return normalized ->
       inferUserTraitVector normalized = inferUserTraitVector scores).
Proof.
  intros scores _ Hnd. split.
  - intros c Hc. now apply inferUserTraitVector_scale.
  - intros questions normalized Hw Hnorm.
    rewrite (normalizeScores_outcome scores questions Hnd) in Hnorm.
    rewrite (proj2 (Reqb_false (totalWeight questions) 0)) in Hnorm by lra.
    assert (normalized = scaleScores (/ totalWeight questions) scores) as ->.
    { injection Hnorm as <-. unfold scaleScores. apply map_ext.
      intros e. f_equal. unfold Rdiv. apply Rmult_comm. }
    apply inferUserTraitVector_scale. now apply Rinv_0_lt_compat.
Qed.

Lemma inferred_traits_ignore_positive_scaling_witness :
  plainScores [("ostrich", 6); ("prepper", 9)] = true /\
  NoDup (keys [("ostrich", 6); ("prepper", 9)]) /\
  inferUserTraitVector (scaleScores 2 [("ostrich", 6); ("prepper", 9)])
  = inferUserTraitVector [("ostrich", 6); ("prepper", 9)].
Proof.
  assert (NoDup (keys [("ostrich", 6); ("prepper", 9)])) as Hnd.
  { repeat constructor; cbn [In]; intros H;
      repeat (destruct H as [H|H]; [discriminate H|]); exact H. }
  split; [reflexivity|]. split; [exact Hnd|].
  apply (proj1 (inferred_traits_ignore_positive_scaling
                  [("ostrich", 6); ("prepper", 9)] eq_refl Hnd) 2).
  lra.
Defined.

(** ** Radar chart of a profile *)

Lemma radiusOf_in_range (p : TraitProfile) (d : Dimension) :
  inRange p -> 0 <= radiusOf p d <= 1.
Proof. unfold inRange. destruct d; cbn [radiusOf traitOf]; lra. Qed.

Lemma radarPoint_fields (p : TraitProfile) (d : Dimension) (i : nat) :
  Coordinate.dimension (radarPoint p d i) = dimensionName d /\
  Coordinate.rawValue (radarPoint p d i) = traitOf p d /\
  Coordinate.radius (radarPoint p d i) = radiusOf p d /\
  Coordinate.angle (radarPoint p d i) = INR i / 6 * 2 * PI /\
  Coordinate.angleDegrees (radarPoint p d i) = 60 * INR i /\
  Coordinate.x (radarPoint p d i) = radiusOf p d * cos (INR i / 6 * 2 * PI) /\
  Coordinate.y (radarPoint p d i) = radiusOf p d * sin (INR i / 6 * 2 * PI).
Proof.
  unfold radarPoint.
  cbn [Coordinate.dimension Coordinate.rawValue Coordinate.radius Coordinate.angle
       Coordinate.angleDegrees Coordinate.x Coordinate.y].
  repeat split; try (destruct d; reflexivity).
  field. apply PI_neq0.
Qed.

Lemma radarPoint_on_circle (p : TraitProfile) (d : Dimension) (i : nat) :
  Coordinate.x (radarPoint p d i) * Coordinate.x (radarPoint p d i)
  + Coordinate.y (radarPoint p d i) * Coordinate.y (radarPoint p d i)
  = Coordinate.radius (radarPoint p d i) * Coordinate.radius (radarPoint p d i).
Proof.
  destruct (radarPoint_fields p d i) as (_ & _ & -> & _ & _ & -> & ->).
  pose proof (sin2_cos2 (INR i / 6 * 2 * PI)) as H. unfold Rsqr in H. nra.
Qed.

(** X14.  calculateRadarChartCoordinates on a profile returns one point per
    dimension, in the order awareness, affect, agency, time, relationality,
    posture, with the profile's value as rawValue, the value itself as
    radius except that affect and time are mapped to (v + 1) / 2, the angles
    0, 60, ..., 300 degrees, and (x, y) at distance radius from the centre;
    for a profile within the documented ranges every radius is in [0, 1]
    (numbers read as exact reals). *)
Theorem radar_coordinates_of_a_profile :
  forall p : TraitProfile,
    exists coordinates,
      calculateRadarChartCoordinates (Some p) = Return coordinates /\
      map Coordinate.dimension coordinates = map dimensionName dimensions /\
      map Coordinate.rawValue coordinates = profileVector p /\
      map Coordinate.radius coordinates = map (radiusOf p) dimensions /\
      map Coordinate.angleDegrees coordinates = [0; 60; 120; 180; 240; 300] /\
      Forall (fun c => Coordinate.x c * Coordinate.x c + Coordinate.y c * Coordinate.y c
                       = Coordinate.radius c * Coordinate.radius c) coordinates /\
      (inRange p -> Forall (fun c => 0 <= Coordinate.radius c <= 1) coordinates).
Proof.
  intros p. eexists. split; [reflexivity|].
  unfold mapIndexed, dimensions. cbn [mapIndexedFrom map].
  split; [reflexivity|]. split; [reflexivity|].
  split; [repeat (apply (f_equal2 (@cons R));
                  [apply (radarPoint_fields p)|]); reflexivity|].
  split.
  { repeat (apply (f_equal2 (@cons R));
            [rewrite (proj1 (proj2 (proj2 (proj2 (proj2 (radarPoint_fields p _ _))))));
             cbn [INR]; lra|]).
    reflexivity. }
  split.
  - repeat (constructor; [apply radarPoint_on_circle|]). constructor.
  - intros Hr.
    repeat (constructor;
            [rewrite (proj1 (proj2 (proj2 (radarPoint_fields p _ _))));
             apply radiusOf_in_range, Hr|]).
    constructor.
Qed.

Lemma radar_area_sum (p : TraitProfile) :
  calculateRadarChartArea (mapIndexed (radarPoint p) dimensions)
  = Rabs (sqrt 3 / 2 * neighbourProducts p) / 2.
Proof.
  unfold mapIndexed, dimensions. cbn [mapIndexedFrom].
  rewrite calculateRadarChartArea_six.
  repeat match goal with
         | |- context [Coordinate.x (radarPoint p ?d ?i)] =>
             rewrite (proj1 (proj2 (proj2 (proj2 (proj2 (proj2
                        (radarPoint_fields p d i)))))))
         | |- context [Coordinate.y (radarPoint p ?d ?i)] =>
             rewrite (proj2 (proj2 (proj2 (proj2 (proj2 (proj2
                        (radarPoint_fields p d i)))))))
         end.
  destruct hexagon_angles as (-> & -> & -> & -> & -> & ->).
  rewrite !neg_cos, !neg_sin, cos_0, sin_0, cos_PI, sin_PI,
    cos_PI3, sin_PI3, cos_2PI3, sin_2PI3.
  unfold neighbourProducts. f_equal. f_equal. field.
Qed.

(** X15.  The area calculateRadarChartArea gives the radar polygon of a
    profile is |sqrt 3 / 2 * P| / 2, where P is the sum of the products of
    neighbouring radii; for a profile within the documented ranges it is
    sqrt 3 / 4 * P and lies between 0 and 3 * sqrt 3 / 2, the area of the
    unit hexagon (numbers read as exact reals). *)
Theorem radar_area_of_a_profile :
  forall p : TraitProfile,
    exists coordinates,
      calculateRadarChartCoordinates (Some p) = Return coordinates /\
      calculateRadarChartArea coordinates = Rabs (sqrt 3 / 2 * neighbourProducts p) / 2 /\
      (inRange p ->
         calculateRadarChartArea coordinates = sqrt 3 / 4 * neighbourProducts p /\
         0 <= calculateRadarChartArea coordinates <= 3 * sqrt 3 / 2).
Proof.
  intros p. eexists. split; [reflexivity|]. split; [apply radar_area_sum|].
  intros Hr. rewrite radar_area_sum.
  pose proof (sqrt_pos 3) as Hs.
  pose proof (radiusOf_in_range p DimAwareness Hr).
  pose proof (radiusOf_in_range p DimAffect Hr).
  pose proof (radiusOf_in_range p DimAgency Hr).
  pose proof (radiusOf_in_range p DimTime Hr).
  pose proof (radiusOf_in_range p DimRelationality Hr).
  pose proof (radiusOf_in_range p DimPosture Hr).
  assert (0 <= neighbourProducts p <= 6) as Hn by (unfold neighbourProducts; nra).
  rewrite Rabs_pos_eq by nra.
  split; [lra|]. nra.
Qed.

Lemma radar_area_of_a_profile_witness :
  exists coordinates,
    calculateRadarChartCoordinates (Some (mkProfile 0.9 0.0 0.9 1.0 0.0 1.0))
      = Return coordinates /\
    calculateRadarChartArea coordinates
      = sqrt 3 / 4 * neighbourProducts (mkProfile 0.9 0.0 0.9 1.0 0.0 1.0) /\
    0 <= calculateRadarChartArea coordinates <= 3 * sqrt 3 / 2.
Proof.
  destruct (radar_area_of_a_profile (mkProfile 0.9 0.0 0.9 1.0 0.0 1.0))
    as [coordinates [Hc [_ Harea]]].
  exists coordinates. split; [exact Hc|]. apply Harea.
  unfold inRange. cbn [awareness affect agency time relationality posture]. lra.
Defined.

(** ** Degenerate polygons and the score distribution *)

Lemma shoelace_fold_zero (terms : nat -> R) (indices : list nat) (acc : R) :
  (forall i, terms i = 0) ->
  fold_left (fun area i => area + terms i) indices acc = acc.
Proof.
  intros H. revert acc. induction indices as [|i l IH]; intros acc; cbn [fold_left];
    [reflexivity|].
  rewrite IH, H. lra.
Qed.

Lemma nth_atCentre (coordinates : list Coordinate.t) (i : nat) :
  Forall atCentre coordinates -> atCentre (nth i coordinates originPoint).
Proof.
  intros H. revert i. induction H as [|c l Hc _ IH]; intros [|i]; cbn [nth];
    try (split; reflexivity); auto.
Qed.

(** X16.  calculateRadarChartArea is never negative, and it is 0 for fewer
    than three points and for points that are all at the centre. *)
Theorem radar_area_of_degenerate_polygons :
  forall coordinates : list Coordinate.t,
    0 <= calculateRadarChartArea coordinates /\
    ((List.length coordinates <= 2)%nat -> calculateRadarChartArea coordinates = 0) /\
    (Forall atCentre coordinates -> calculateRadarChartArea coordinates = 0).
Proof.
  intros coordinates. split; [|split].
  - unfold calculateRadarChartArea.
    match goal with |- 0 <= Rabs ?a / 2 => pose proof (Rabs_pos a) end. lra.
  - intros Hlen. destruct coordinates as [|a [|b [|c l]]];
      [| | |cbn [List.length] in Hlen; lia];
      unfold calculateRadarChartArea;
      cbn [List.length seq fold_left nth Nat.add Nat.modulo Nat.divmod fst snd Nat.sub].
    + rewrite Rabs_R0. lra.
    + replace (0 + _) with 0 by lra. rewrite Rabs_R0. lra.
    + replace (0 + _ + _) with 0 by lra. rewrite Rabs_R0. lra.
  - intros Hall. unfold calculateRadarChartArea.
    rewrite (shoelace_fold_zero
               (fun i =>
                  Coordinate.x (nth i coordinates originPoint)
                  * Coordinate.y (nth ((i + 1) mod List.length coordinates)
                                      coordinates originPoint)
                  - Coordinate.x (nth ((i + 1) mod List.length coordinates)
                                      coordinates originPoint)
                    * Coordinate.y (nth i coordinates originPoint))).
    + rewrite Rabs_R0. lra.
    + intros i. destruct (nth_atCentre coordinates i Hall) as [-> ->]. lra.
Qed.

Lemma fold_sum (l : list R) (acc : R) :
  fold_left (fun sum score => sum + score) l acc = acc + Rsum l.
Proof.
  revert acc. induction l as [|x l IH]; intros acc; cbn [fold_left Rsum fold_right];
    [lra|]. rewrite IH. unfold Rsum. lra.
Qed.

Section SortByKey.
Context {A : Type} (key : A -> R).

Lemma insertSorted_by_key (a : A) (l : list A) :
  StronglySorted (fun x y => key y <= key x) l ->
  StronglySorted (fun x y => key y <= key x)
                 (insertSorted (fun x y => key y - key x) a l).
Proof.
  induction 1 as [|b l Hl IH Hb]; cbn [insertSorted].
  - repeat constructor.
  - destruct (Rgtb (key b - key a) 0) eqn:E.
    + apply Rgtb_true in E. constructor; [exact IH|].
      rewrite Forall_forall in *. intros e He.
      apply (Permutation_in _ (insertSorted_perm _ a l)) in He.
      destruct He as [<-|He]; [lra|auto].
    + apply Rgtb_false in E. constructor; [now constructor|].
      constructor; [lra|].
      rewrite Forall_forall in *. intros e He. specialize (Hb e He). lra.
Qed.

Lemma sort_by_key (l : list A) :
  StronglySorted (fun x y => key y <= key x) (sort (fun x y => key y - key x) l).
Proof.
  induction l as [|a l IH]; cbn [sort fold_right]; [constructor|].
  now apply insertSorted_by_key.
Qed.
End SortByKey.

Lemma percentages_total (total : R) (scores : ScoreMap) :
  Rsum (map (fun e => Distribution.percentage (barOf total e)) scores)
  = Rsum (values scores) / total * 100.
Proof.
  unfold values. induction scores as [|e scores IH]; cbn [map Rsum fold_right].
  - unfold Rdiv. lra.
  - unfold Rsum in *. rewrite IH. cbn [barOf Distribution.percentage]. unfold Rdiv. lra.
Qed.

(** X17.  calculateScoreDistribution: when the scores sum to 0 it returns
    one bar per archetype, in the order of the score map, with score 0 and
    percentage 0; otherwise it returns one bar per entry holding the score
    and score / total * 100, sorted by score from high to low, and the
    percentages sum to 100 (numbers read as exact reals). *)
Theorem score_distribution_shape :
  forall scores : ScoreMap,
    (Rsum (values scores) = 0 ->
       calculateScoreDistribution scores
       = map (fun id => Distribution.mk id 0 0) (keys scores)) /\
    (Rsum (values scores) <> 0 ->
       Permutation (calculateScoreDistribution scores)
                   (map (barOf (Rsum (values scores))) scores) /\
       StronglySorted byScoreDescending (calculateScoreDistribution scores) /\
       Rsum (map Distribution.percentage (calculateScoreDistribution scores)) = 100).
Proof.
  intros scores. unfold calculateScoreDistribution. rewrite fold_sum, Rplus_0_l.
  split.
  - intros Hzero. now rewrite (proj2 (Reqb_true _ _) Hzero).
  - intros Hne. rewrite (proj2 (Reqb_false _ _) Hne).
    fold (barOf (Rsum (values scores))).
    assert (Permutation
              (sort (fun a b => Distribution.score b - Distribution.score a)
                    (map (barOf (Rsum (values scores))) scores))
              (map (barOf (Rsum (values scores))) scores)) as Hperm
        by apply sort_perm.
    split; [exact Hperm|]. split.
    + apply (sort_by_key Distribution.score).
    + rewrite (Rsum_perm _ _ (Permutation_map Distribution.percentage Hperm)).
      rewrite map_map, percentages_total. field. exact Hne.
Qed.

Lemma score_distribution_shape_witness :
  calculateScoreDistribution [("ostrich", 5); ("prepper", -5)]
  = map (fun id => Distribution.mk id 0 0) (keys [("ostrich", 5); ("prepper", -5)]).
Proof.
  apply (proj1 (score_distribution_shape [("ostrich", 5); ("prepper", -5)])).
  cbn [values map snd Rsum fold_right]. lra.
Defined.

(** ** scoreQuiz: the errors it raises *)

Lemma callBreakTieWithTraits_member (tied : list string) (allScores : ScoreMap) :
  tied <> [] ->
  exists winner, callBreakTieWithTraits tied allScores = Return winner /\ In winner tied.
Proof.
  intros Hne. unfold callBreakTieWithTraits.
  destruct (breakTieWithTraits_run [IdArray tied; ScoreObject allScores] 0%nat 1%nat
              tied allScores eq_refl eq_refl) as [entries [_ [Hfst ->]]].
  cbn [fst].
  pose proof (sort_perm compareSimilarity entries) as Hperm.
  destruct (sort compareSimilarity entries) as [|top sorted].
  - apply Permutation_nil in Hperm. subst entries.
    cbn [map] in Hfst. congruence.
  - exists (fst top). split; [reflexivity|].
    rewrite <- Hfst. apply in_map, (Permutation_in _ Hperm). now left.
Qed.

Lemma hasTie_nonempty (scores : ScoreMap) (eps : R) (d : Dominance.t) :
  determineDominantArchetypes scores eps = Return d ->
  Dominance.hasTie d = true -> Dominance.dominant d <> [].
Proof.
  intros H Htie. destruct (dominant_entries scores eps d H) as (_ & _ & E & _).
  rewrite E in Htie. apply Nat.ltb_lt in Htie.
  intros Hnil. rewrite Hnil in Htie. cbn in Htie. lia.
Qed.

(** The primary archetype scoreQuiz settles on in step 4. *)
Lemma scoreQuiz_primary (scores : ScoreMap) (eps : R) (d : Dominance.t) (breakTies : bool) :
  determineDominantArchetypes scores eps = Return d ->
  exists primary,
    (if Dominance.hasTie d && breakTies
     then winner <- callBreakTieWithTraits (Dominance.dominant d) scores ;;
          Return (Some winner)
     else Return (nth_error (Dominance.dominant d) 0)) = Return primary /\
    (forall p, primary = Some p -> In p (Dominance.dominant d)) /\
    (primary = None <-> Dominance.dominant d = []) /\
    (Dominance.hasTie d && breakTies = false ->
       primary = nth_error (Dominance.dominant d) 0).
Proof.
  intros H. destruct (Dominance.hasTie d && breakTies) eqn:E.
  - apply andb_true_iff in E. destruct E as [Htie _].
    pose proof (hasTie_nonempty scores eps d H Htie) as Hne.
    destruct (callBreakTieWithTraits_member (Dominance.dominant d) scores Hne)
      as [winner [-> Hin]].
    exists (Some winner). cbn [bind]. split; [reflexivity|]. split; [|split].
    + intros p [= <-]. exact Hin.
    + split; [discriminate|]. intros Hnil. contradiction.
    + discriminate.
  - exists (nth_error (Dominance.dominant d) 0). split; [reflexivity|].
    split; [|split].
    + intros p Hp. apply nth_error_In in Hp. exact Hp.
    + destruct (Dominance.dominant d); cbn [nth_error]; split; congruence.
    + reflexivity.
Qed.

Lemma scores_not_empty (questions : list Question) (rs : list Response) :
  calculateArchetypeScores questions rs <> [].
Proof.
  intros Hnil.
  destruct (keys_fold_grow (scoreResponse (buildQuestionMap questions))
              (keys_scoreResponse (buildQuestionMap questions)) rs initialScores)
    as [[added Hkeys] _].
  fold (calculateArchetypeScores questions rs) in Hkeys.
  rewrite Hnil, keys_initialScores in Hkeys. discriminate Hkeys.
Qed.

Lemma determine_errors (scores : ScoreMap) (eps : R) (e : error) :
  determineDominantArchetypes scores eps = Throw e ->
  (scores = [] /\ e = NoScoresProvided) \/ (scores <> [] /\ e = NoValidScores).
Proof.
  destruct scores as [|first rest]; cbn [determineDominantArchetypes].
  - intros [= <-]. now left.
  - unfold determineDominantArchetypes.
    destruct (Rltb _ _ && Reqb _ _); [|discriminate].
    intros [= <-]. right. split; [discriminate|reflexivity].
Qed.

(** X18.  On a quiz with plain identifiers and with visualizations switched
    off, as the application calls it, scoreQuiz raises NoValidScores exactly
    when determineDominantArchetypes does on the computed scores, raises
    TotalWeightZero exactly when the dominance step succeeds and the
    question weights sum to 0, and raises nothing else; in every other case
    it returns a result that has no visualizations. *)
Theorem scoreQuiz_without_visualizations :
  forall (questions : list Question) (userResponses : list Response) (options : Options),
    plainQuiz questions userResponses = true ->
    includeVisualizations options = Some false ->
    let scores := calculateArchetypeScores questions userResponses in
    let eps := orDefault (tieTolerance options) TIE_TOLERANCE in
    (scoreQuiz questions userResponses options = Throw NoValidScores
       <-> determineDominantArchetypes scores eps = Throw NoValidScores) /\
    (scoreQuiz questions userResponses options = Throw TotalWeightZero
       <-> (exists d, determineDominantArchetypes scores eps = Return d)
           /\ totalWeight questions = 0) /\
    ((exists result, scoreQuiz questions userResponses options = Return result /\
                     QuizResult.visualizations result = None)
       <-> (exists d, determineDominantArchetypes scores eps = Return d)
           /\ totalWeight questions <> 0) /\
    (forall e, scoreQuiz questions userResponses options = Throw e ->
               e = NoValidScores \/ e = TotalWeightZero).
Proof.
  intros questions userResponses options _ Hvis scores eps.
  unfold scoreQuiz. rewrite Hvis. cbn [orDefault].
  fold scores. fold eps.
  rewrite (normalizeScores_outcome scores questions
             (NoDup_keys_scores questions userResponses)).
  destruct (determineDominantArchetypes scores eps) as [d|e] eqn:Hd; cbn [bind].
  - destruct (scoreQuiz_primary scores eps d
                (orDefault (breakTiesWithTraits options) true) Hd)
      as [primary [-> _]]. cbn [bind].
    destruct (Reqb (totalWeight questions) 0) eqn:Hw; cbn [bind].
    + apply Reqb_true in Hw. split; [|split; [|split]].
      * split; discriminate.
      * split; [intros _; split; [now exists d|exact Hw]|reflexivity].
      * split; [intros [result [Hr _]]; discriminate|intros [_ Hne]; contradiction].
      * intros e [= <-]. now right.
    + apply Reqb_false in Hw. split; [|split; [|split]].
      * split; discriminate.
      * split; [discriminate|intros [_ Hz]; contradiction].
      * split; [intros _; split; [now exists d|exact Hw]|].
        intros _. eexists. split; reflexivity.
      * discriminate.
  - destruct (determine_errors scores eps e Hd) as [[Hnil _]|[_ ->]].
    + exfalso. exact (scores_not_empty questions userResponses Hnil).
    + split; [|split; [|split]].
      * split; reflexivity.
      * split; [discriminate|intros [[d Hr] _]; discriminate].
      * split; [intros [result [Hr _]]; discriminate|intros [[d Hr] _]; discriminate].
      * intros e [= <-]. now left.
Qed.

Lemma scoreQuiz_without_visualizations_witness :
  (scoreQuiz dynamicQuiz dynamicResponses applicationOptions = Throw NoValidScores
     <-> determineDominantArchetypes
           (calculateArchetypeScores dynamicQuiz dynamicResponses) 0.05
         = Throw NoValidScores) /\
  (scoreQuiz dynamicQuiz dynamicResponses applicationOptions = Throw TotalWeightZero
     <-> (exists d, determineDominantArchetypes
                      (calculateArchetypeScores dynamicQuiz dynamicResponses) 0.05
                    = Return d)
         /\ totalWeight dynamicQuiz = 0) /\
  ((exists result, scoreQuiz dynamicQuiz dynamicResponses applicationOptions = Return result /\
                   QuizResult.visualizations result = None)
     <-> (exists d, determineDominantArchetypes
                      (calculateArchetypeScores dynamicQuiz dynamicResponses) 0.05
                    = Return d)
         /\ totalWeight dynamicQuiz <> 0) /\
  (forall e, scoreQuiz dynamicQuiz dynamicResponses applicationOptions = Throw e ->
             e = NoValidScores \/ e = TotalWeightZero).
Proof.
  exact (scoreQuiz_without_visualizations dynamicQuiz dynamicResponses applicationOptions
           eq_refl eq_refl).
Defined.

(** ** scoreQuiz: the result *)

Lemma get_of_entry (scores : ScoreMap) (k : string) (v : R) :
  NoDup (keys scores) -> In (k, v) scores -> get scores k = Some v.
Proof.
  induction scores as [|[k' v'] scores IH]; cbn [keys map fst get In]; [intros _ []|].
  intros Hnd [Heq|Hin].
  - injection Heq as -> ->. now rewrite String.eqb_refl.
  - destruct (String.eqb k' k) eqn:E.
    + apply String.eqb_eq in E. subst k'. exfalso.
      apply NoDup_cons_iff in Hnd. apply (proj1 Hnd).
      change k with (fst (k, v)). now apply in_map.
    + apply IH; [|exact Hin]. now apply NoDup_cons_iff in Hnd.
Qed.

(** X19.  In a result scoreQuiz returns on a quiz with plain identifiers,
    allScores is the score map of calculateArchetypeScores, tieThreshold is
    maxScore * (1 - tolerance), no score is above maxScore, the primary
    archetype is one of the dominant archetypes and its score lies between
    tieThreshold and maxScore, primary is missing only when the dominant
    list is empty, without a tie primary is the first dominant archetype,
    and questionsAnswered and totalQuestions are the numbers of responses
    and of questions. *)
Theorem scoreQuiz_result_is_coherent :
  forall (questions : list Question) (userResponses : list Response) (options : Options)
         (result : QuizResult.t),
    plainQuiz questions userResponses = true ->
    scoreQuiz questions userResponses options = Return result ->
    QuizResult.allScores result = calculateArchetypeScores questions userResponses /\
    QuizResult.tieThreshold result
      = QuizResult.maxScore result * (1 - orDefault (tieTolerance options) TIE_TOLERANCE) /\
    (forall e, In e (QuizResult.allScores result) -> snd e <= QuizResult.maxScore result) /\
    (forall p, QuizResult.primary result = Some p ->
       In p (QuizResult.dominantArchetypes result) /\
       exists s, QuizResult.primaryScore result = Some s /\
                 QuizResult.tieThreshold result <= s <= QuizResult.maxScore result) /\
    (QuizResult.primary result = None <-> QuizResult.dominantArchetypes result = []) /\
    (QuizResult.hasTie result = false ->
       QuizResult.primary result = nth_error (QuizResult.dominantArchetypes result) 0) /\
    QuizResult.questionsAnswered result = List.length userResponses /\
    QuizResult.totalQuestions result = List.length questions.
Proof.
  intros questions userResponses options result _. unfold scoreQuiz.
  set (scores := calculateArchetypeScores questions userResponses).
  set (eps := orDefault (tieTolerance options) TIE_TOLERANCE).
  destruct (determineDominantArchetypes scores eps) as [d|e] eqn:Hd; [|discriminate].
  cbn [bind].
  destruct (scoreQuiz_primary scores eps d
              (orDefault (breakTiesWithTraits options) true) Hd)
    as [primary [-> (Hin & Hnone & Hfirst)]]. cbn [bind].
  destruct (normalizeScores scores questions) as [normalized|e]; [|discriminate].
  cbn [bind].
  match goal with
  | |- bind ?vis _ = _ -> _ => destruct vis as [visualizations|e]; [|discriminate]
  end.
  cbn [bind]. intros [= <-].
  cbn [QuizResult.allScores QuizResult.tieThreshold QuizResult.maxScore
       QuizResult.primary QuizResult.primaryScore QuizResult.dominantArchetypes
       QuizResult.hasTie QuizResult.questionsAnswered QuizResult.totalQuestions].
  destruct (dominant_set_is_threshold_band_parts scores eps d Hd)
    as (Hub & Hthr & Hmem).
  repeat split; try assumption; try reflexivity.
  - now apply Hin.
  - subst primary. cbn [getAt].
    destruct (proj1 (Hmem p) (Hin p eq_refl)) as [s [Hs Ht]].
    exists s. split.
    + apply get_of_entry; [apply NoDup_keys_scores|exact Hs].
    + split; [exact Ht|]. apply (Hub (p, s) Hs).
  - apply Hnone.
  - apply Hnone.
  - intros Htie. apply Hfirst. now rewrite Htie.
Qed.

Lemma dynamicQuiz_application_result :
  exists result, scoreQuiz dynamicQuiz dynamicResponses applicationOptions = Return result.
Proof.
  destruct dynamicQuiz_dominant as [d [Hd _]].
  unfold scoreQuiz, applicationOptions.
  cbn [tieTolerance breakTiesWithTraits includeVisualizations orDefault].
  change 0.05 with TIE_TOLERANCE. rewrite Hd. cbn [bind].
  destruct (scoreQuiz_primary _ _ d true Hd) as [primary [-> _]]. cbn [bind].
  rewrite (normalizeScores_outcome _ dynamicQuiz
             (NoDup_keys_scores dynamicQuiz dynamicResponses)).
  assert (totalWeight dynamicQuiz <> 0) as Hw.
  { unfold totalWeight, dynamicQuiz. cbn [map weight orDefault Rsum fold_right]. lra. }
  rewrite (proj2 (Reqb_false _ _) Hw). cbn [bind]. eexists. reflexivity.
Qed.

Lemma scoreQuiz_result_is_coherent_witness :
  exists result,
    scoreQuiz dynamicQuiz dynamicResponses applicationOptions = Return result /\
    QuizResult.allScores result = calculateArchetypeScores dynamicQuiz dynamicResponses /\
    QuizResult.tieThreshold result
      = QuizResult.maxScore result
        * (1 - orDefault (tieTolerance applicationOptions) TIE_TOLERANCE) /\
    (forall e, In e (QuizResult.allScores result) -> snd e <= QuizResult.maxScore result) /\
    (forall p, QuizResult.primary result = Some p ->
       In p (QuizResult.dominantArchetypes result) /\
       exists s, QuizResult.primaryScore result = Some s /\
                 QuizResult.tieThreshold result <= s <= QuizResult.maxScore result) /\
    (QuizResult.primary result = None <-> QuizResult.dominantArchetypes result = []) /\
    (QuizResult.hasTie result = false ->
       QuizResult.primary result = nth_error (QuizResult.dominantArchetypes result) 0) /\
    QuizResult.questionsAnswered result = List.length dynamicResponses /\
    QuizResult.totalQuestions result = List.length dynamicQuiz.
Proof.
  destruct dynamicQuiz_application_result as [result H].
  exists result. split; [exact H|].
  exact (scoreQuiz_result_is_coherent dynamicQuiz dynamicResponses applicationOptions
           result eq_refl H).
Defined.

(** X20.  On a quiz with plain identifiers, switching the visualizations on
    (the default) changes nothing but the visualizations field. An error
    raised without them is raised with them. When scoreQuiz returns without
    them, then with them it returns the same result plus the radar
    coordinates of the primary archetype's profile, the radar coordinates
    and area of the user's profile and the score distribution, unless the
    primary archetype has no profile in the catalogue, in which case it
    raises a TypeError. *)
Theorem visualizations_only_add_a_field :
  forall (questions : list Question) (userResponses : list Response) (options : Options),
    plainQuiz questions userResponses = true ->
    orDefault (includeVisualizations options) true = true ->
    (forall e,
       scoreQuiz questions userResponses (withoutVisualizations options) = Throw e ->
       scoreQuiz questions userResponses options = Throw e) /\
    (forall r0,
       scoreQuiz questions userResponses (withoutVisualizations options) = Return r0 ->
       match getAt ARCHETYPE_TRAIT_PROFILES (QuizResult.primary r0) with
       | None => scoreQuiz questions userResponses options = Throw TypeError
       | Some profile =>
           exists v,
             scoreQuiz questions userResponses options
               = Return (withVisualizations r0 (Some v)) /\
             Visualizations.primaryArchetypeRadar_coordinates v
               = mapIndexed (radarPoint profile) dimensions /\
             Visualizations.radarChart_coordinates v
               = mapIndexed (radarPoint (QuizResult.userTraitProfile r0)) dimensions /\
             Visualizations.radarChart_area v
               = calculateRadarChartArea (Visualizations.radarChart_coordinates v) /\
             Visualizations.scoreDistribution v
               = calculateScoreDistribution (QuizResult.allScores r0)
       end).
Proof.
  intros questions userResponses options _ Hvis.
  unfold scoreQuiz, withoutVisualizations.
  cbn [tieTolerance breakTiesWithTraits includeVisualizations].
  rewrite Hvis. cbn [orDefault].
  set (scores := calculateArchetypeScores questions userResponses).
  set (eps := orDefault (tieTolerance options) TIE_TOLERANCE).
  destruct (determineDominantArchetypes scores eps) as [d|e0] eqn:Hd; cbn [bind].
  2: { split; [auto|discriminate]. }
  destruct (scoreQuiz_primary scores eps d
              (orDefault (breakTiesWithTraits options) true) Hd)
    as [primary [-> _]]. cbn [bind].
  destruct (normalizeScores scores questions) as [normalized|e0]; cbn [bind].
  2: { split; [auto|discriminate]. }
  cbn [calculateRadarChartCoordinates bind].
  split; [discriminate|].
  intros r0 [= <-]. cbn [QuizResult.primary].
  destruct (getAt ARCHETYPE_TRAIT_PROFILES primary) as [profile|]; cbn [bind];
    [|reflexivity].
  eexists. split; [reflexivity|]. repeat split.
Qed.

Lemma visualizations_only_add_a_field_witness :
  (forall e,
     scoreQuiz dynamicQuiz dynamicResponses (withoutVisualizations defaultOptions) = Throw e ->
     scoreQuiz dynamicQuiz dynamicResponses defaultOptions = Throw e) /\
  (forall r0,
     scoreQuiz dynamicQuiz dynamicResponses (withoutVisualizations defaultOptions)
       = Return r0 ->
     match getAt ARCHETYPE_TRAIT_PROFILES (QuizResult.primary r0) with
     | None => scoreQuiz dynamicQuiz dynamicResponses defaultOptions = Throw TypeError
     | Some profile =>
         exists v,
           scoreQuiz dynamicQuiz dynamicResponses defaultOptions
             = Return (withVisualizations r0 (Some v)) /\
           Visualizations.primaryArchetypeRadar_coordinates v
             = mapIndexed (radarPoint profile) dimensions /\
           Visualizations.radarChart_coordinates v
             = mapIndexed (radarPoint (QuizResult.userTraitProfile r0)) dimensions /\
           Visualizations.radarChart_area v
             = calculateRadarChartArea (Visualizations.radarChart_coordinates v) /\
           Visualizations.scoreDistribution v
             = calculateScoreDistribution (QuizResult.allScores r0)
     end).
Proof.
  exact (visualizations_only_add_a_field dynamicQuiz dynamicResponses defaultOptions
           eq_refl eq_refl).
Defined.

Lemma determine_all_zero (scores : ScoreMap) (eps : R) :
  scores <> [] -> Forall (fun e => snd e = 0) scores ->
  determineDominantArchetypes scores eps = Throw NoValidScores.
Proof.
  intros Hne Hzero. rewrite Forall_forall in Hzero.
  destruct scores as [|first rest]; [contradiction|].
  unfold determineDominantArchetypes.
  assert (Rltb (fold_left Rmax (map snd rest) (snd first)
                - fold_left Rmin (map snd rest) (snd first)) MINIMUM_VARIANCE
          && Reqb (fold_left Rmax (map snd rest) (snd first)) 0 = true) as ->;
    [|reflexivity].
  apply NoValidScores_guard. split.
  - exists first. split; [now left|]. apply Hzero. now left.
  - intros e He. rewrite (Hzero e He). unfold MINIMUM_VARIANCE. lra.
Qed.

Lemma scores_of_unresolved (questions : list Question) (rs : list Response) :
  (forall r, In r rs -> resolves questions r = false) ->
  calculateArchetypeScores questions rs = initialScores.
Proof.
  unfold calculateArchetypeScores. generalize initialScores.
  induction rs as [|r rs IH]; intros scores H; cbn [fold_left]; [reflexivity|].
  rewrite (scoreResponse_unresolved questions scores r) by (apply H; now left).
  apply IH. intros r' Hr'. apply H. now right.
Qed.

(** X21.  On a quiz with plain identifiers, when no response resolves (the
    empty response list included), calculateArchetypeScores returns the
    initial map, every score is 0, and scoreQuiz raises NoValidScores
    whatever the options. *)
Theorem scoreQuiz_without_processed_responses :
  forall (questions : list Question) (userResponses : list Response) (options : Options),
    plainQuiz questions userResponses = true ->
    (forall r, In r userResponses -> resolves questions r = false) ->
    calculateArchetypeScores questions userResponses = initialScores /\
    (forall e, In e (calculateArchetypeScores questions userResponses) -> snd e = 0) /\
    scoreQuiz questions userResponses options = Throw NoValidScores.
Proof.
  intros questions userResponses options _ H.
  pose proof (scores_of_unresolved questions userResponses H) as Hs.
  split; [exact Hs|]. split.
  - rewrite Hs. apply Forall_forall, initialScores_zero.
  - unfold scoreQuiz. rewrite Hs.
    rewrite determine_all_zero; [reflexivity| |apply initialScores_zero].
    intros Hnil. pose proof keys_initialScores as Hk. rewrite Hnil in Hk. discriminate Hk.
Qed.

Lemma scoreQuiz_without_processed_responses_witness :
  calculateArchetypeScores dynamicQuiz [mkResponse "q9" "a"; mkResponse "q1" "z"]
    = initialScores /\
  (forall e, In e (calculateArchetypeScores dynamicQuiz
                     [mkResponse "q9" "a"; mkResponse "q1" "z"]) -> snd e = 0) /\
  scoreQuiz dynamicQuiz [mkResponse "q9" "a"; mkResponse "q1" "z"] defaultOptions
    = Throw NoValidScores.
Proof.
  apply (scoreQuiz_without_processed_responses dynamicQuiz
           [mkResponse "q9" "a"; mkResponse "q1" "z"] defaultOptions eq_refl).
  intros r [<-|[<-|[]]]; reflexivity.
Defined.

(** ** Validators on typed quiz data *)

Lemma pushIf_app (condition : bool) (v : violation) (errors : list violation) :
  pushIf condition v errors = errors ++ (if condition then [v] else []).
Proof. unfold pushIf. destruct condition; [reflexivity|now rewrite app_nil_r]. Qed.

Lemma isEmpty_app {A : Type} (l l' : list A) :
  isEmpty (l ++ l') = isEmpty l && isEmpty l'.
Proof. now destruct l. Qed.

Lemma isEmpty_map {A B : Type} (f : A -> B) (l : list A) :
  isEmpty (map f l) = isEmpty l.
Proof. now destruct l. Qed.

(** A callback that only appends to [errors], run over encoded items. *)
Lemma forEachFrom_appends {X : Type}
    (f : list violation -> value -> nat -> outcome (list violation))
    (enc : X -> value) (ok : X -> bool) :
  (forall errors x i, exists extra,
      f errors (enc x) i = Return (errors ++ extra) /\ isEmpty extra = ok x) ->
  forall xs i errors, exists extra,
    forEachFrom f (map enc xs) i errors = Return (errors ++ extra)
    /\ isEmpty extra = forallb ok xs.
Proof.
  intros Hf xs. induction xs as [|x xs IH]; intros i errors; cbn [map forEachFrom forallb].
  - exists []. now rewrite app_nil_r.
  - destruct (Hf errors x i) as [e1 [-> H1]]. cbn [bind].
    destruct (IH (S i) (errors ++ e1)) as [e2 [-> H2]].
    exists (e1 ++ e2). rewrite app_assoc, isEmpty_app, H1, H2. now split.
Qed.

Lemma validateAnswer_typed (qLabel : label) (errors : list violation) (a : Answer)
    (aIndex : nat) :
  exists extra,
    validateAnswer qLabel errors (answerToValue a) aIndex = Return (errors ++ extra)
    /\ isEmpty extra = answerWellFormed a.
Proof.
  unfold validateAnswer, answerToValue, answerWellFormed, nonEmpty.
  destruct (archetypeScores a) as [points|];
    cbn [app getProp get String.eqb Ascii.eqb Bool.eqb orDefault bind truthy negb
         typeofObject scoresToValue orb];
    rewrite !pushIf_app, <- app_assoc; eexists; (split; [reflexivity|]);
    destruct (String.eqb (answer_id a) ""); reflexivity.
Qed.

Lemma validateQuestion_typed (errors : list violation) (q : Question) (index : nat) :
  exists extra,
    validateQuestion errors (questionToValue q) index = Return (errors ++ extra)
    /\ isEmpty extra = questionWellFormed q.
Proof.
  unfold validateQuestion, questionToValue, questionWellFormed, nonEmpty.
  set (qLabel := orIndex (Str (question_id q)) index).
  assert (forall fields,
             get ([("id", Str (question_id q)); ("text", Str (question_text q))]
                  ++ match weight q with
                     | Some w => [("weight", Number w)]
                     | None => []
                     end ++ fields) "answers"
             = get fields "answers") as Hanswers
      by (intros fields; destruct (weight q); reflexivity).
  cbn [getProp bind]. rewrite Hanswers.
  cbn [app get String.eqb Ascii.eqb Bool.eqb orDefault bind truthy isArray negb forEach].
  fold qLabel. rewrite isEmpty_map, !pushIf_app.
  destruct (forEachFrom_appends (validateAnswer qLabel) answerToValue answerWellFormed
              (validateAnswer_typed qLabel) (answers q) 0%nat
              (((errors ++ (if negb (negb (String.eqb (question_id q) ""))
                            then [QuestionMissingId index] else []))
                ++ (if negb (negb (String.eqb (question_text q) ""))
                    then [QuestionMissingText qLabel] else []))
               ++ (if false || isEmpty (answers q)
                   then [QuestionMustHaveAnswer qLabel] else [])))
    as [extra [-> Hextra]].
  rewrite <- !app_assoc. eexists. split; [reflexivity|].
  rewrite !isEmpty_app, Hextra.
  destruct (String.eqb (question_id q) ""), (String.eqb (question_text q) ""),
    (isEmpty (answers q)); reflexivity.
Qed.

(** X22.  On a quiz of the shape the scoring functions take,
    validateQuizData never raises; it reports the quiz valid exactly when
    there is at least one question, every question has a non-empty id, a
    non-empty text and at least one answer, and every answer has a non-empty
    id and a point mapping; and that is exactly when the list of violations
    is empty. *)
Theorem validateQuizData_on_typed_quiz :
  forall questions : list Question,
    exists errors,
      validateQuizData (quizToValue questions)
      = Return (Validation.mk (quizWellFormed questions) errors)
      /\ (quizWellFormed questions = true <-> errors = []).
Proof.
  intros questions. unfold validateQuizData, quizToValue, quizWellFormed.
  rewrite isEmpty_map, pushIf_app. cbn [app].
  destruct (forEachFrom_appends validateQuestion questionToValue questionWellFormed
              validateQuestion_typed questions 0%nat
              (if isEmpty questions then [QuizMustHaveQuestion] else []))
    as [extra [-> Hextra]].
  cbn [bind]. eexists.
  assert (isEmpty ((if isEmpty questions then [QuizMustHaveQuestion] else []) ++ extra)
          = negb (isEmpty questions) && forallb questionWellFormed questions) as Hflag
      by (rewrite isEmpty_app, Hextra; now destruct (isEmpty questions)).
  split; [now rewrite Hflag|].
  rewrite <- Hflag. apply isEmpty_nil.
Qed.

(** The validators' question table, built from encoded questions, holds the
    encoding of the table the scoring function builds. *)
Lemma get_set_encoded {A : Type} (enc : A -> value) (m : object A) (m' : object value)
    (k : string) (a : A) :
  (forall id, get m' id = option_map enc (get m id)) ->
  forall id, get (set m' k (enc a)) id = option_map enc (get (set m k a) id).
Proof.
  intros H id. destruct (String.eqb k id) eqn:E.
  - apply String.eqb_eq in E. subst id. now rewrite !get_set_same.
  - apply String.eqb_neq in E. rewrite !get_set_other by congruence. apply H.
Qed.

Section TypedResponses.
Variable numberToString : R -> string.

Lemma registerQuestion_typed (questions : list Question) :
  forall (i : nat) (m : object Question) (m' : object value),
    (forall id, get m' id = option_map questionToValue (get m id)) ->
    exists questionMap,
      forEachFrom (registerQuestion numberToString) (map questionToValue questions) i m'
      = Return questionMap
      /\ forall id,
           get questionMap id
           = option_map questionToValue
               (get (fold_left (fun questionMap q => set questionMap (question_id q) q)
                               questions m) id).
Proof.
  induction questions as [|q questions IH]; intros i m m' H;
    cbn [map forEachFrom fold_left].
  - now exists m'.
  - unfold registerQuestion at 1. cbn [questionToValue getProp app get String.eqb
      Ascii.eqb Bool.eqb orDefault bind toPropertyKey].
    apply IH. apply (get_set_encoded questionToValue m m' (question_id q) q H).
Qed.

Lemma findAnswerFrom_typed (aid : string) (answers : list Answer) :
  findAnswerFrom (Str aid) (map answerToValue answers)
  = Return (match find (fun a => String.eqb (answer_id a) aid) answers with
            | Some a => answerToValue a
            | None => Undefined
            end).
Proof.
  induction answers as [|a answers IH]; cbn [map findAnswerFrom find]; [reflexivity|].
  unfold answerToValue at 1. cbn [getProp app get String.eqb Ascii.eqb Bool.eqb
    orDefault bind strictEquals].
  destruct (String.eqb (answer_id a) aid); [reflexivity|exact IH].
Qed.

Lemma answers_of_encoded (q : Question) :
  getProp (questionToValue q) "answers" = Return (Array (map answerToValue (answers q))).
Proof. unfold questionToValue. destruct (weight q); reflexivity. Qed.

Lemma validateResponse_typed (questions : list Question) (questionMap : object value)
    (errors : list violation) (r : Response) (index : nat) :
  (forall id, get questionMap id
              = option_map questionToValue (get (buildQuestionMap questions) id)) ->
  exists extra,
    validateResponse numberToString questionMap errors (responseToValue r) index
    = Return (errors ++ extra)
    /\ isEmpty extra = responseWellFormed questions r.
Proof.
  intros Hmap.
  unfold validateResponse, responseToValue, responseWellFormed, nonEmpty, resolves,
    resolve, resolveAnswer.
  cbn [getProp get String.eqb Ascii.eqb Bool.eqb orDefault bind truthy toPropertyKey].
  destruct (String.eqb (questionId r) ""); cbn [negb andb];
    [eexists; split; reflexivity|].
  destruct (String.eqb (answerId r) ""); cbn [negb andb];
    [eexists; split; reflexivity|].
  rewrite Hmap, get_buildQuestionMap.
  destruct (resolveQuestion questions (questionId r)) as [q|];
    cbn [option_map orDefault truthy negb];
    [|eexists; split; reflexivity].
  assert (truthy (questionToValue q) = true) as -> by reflexivity. cbn [negb].
  rewrite answers_of_encoded. cbn [bind findAnswer].
  rewrite findAnswerFrom_typed. cbn [bind]. rewrite pushIf_app.
  eexists. split; [reflexivity|].
  destruct (find _ (answers q)); reflexivity.
Qed.

Lemma forEachFrom_responses (questions : list Question) (questionMap : object value) :
  (forall id, get questionMap id
              = option_map questionToValue (get (buildQuestionMap questions) id)) ->
  forall (rs : list Response) (i : nat) (errors : list violation),
  exists extra,
    forEachFrom (validateResponse numberToString questionMap) (map responseToValue rs)
                i errors
    = Return (errors ++ extra)
    /\ isEmpty extra = forallb (responseWellFormed questions) rs.
Proof.
  intros Hmap rs. induction rs as [|r rs IH]; intros i errors;
    cbn [map forEachFrom forallb].
  - exists []. now rewrite app_nil_r.
  - destruct (validateResponse_typed questions questionMap errors r i Hmap)
      as [e1 [-> H1]]. cbn [bind].
    destruct (IH (S i) (errors ++ e1)) as [e2 [-> H2]].
    exists (e1 ++ e2). rewrite app_assoc, isEmpty_app, H1, H2. now split.
Qed.
End TypedResponses.

Lemma processed_when_all_resolve (questions : list Question) (rs : list Response) :
  forallb (resolves questions) rs = true ->
  List.length (processedResponses questions rs) = List.length rs.
Proof.
  unfold processedResponses, resolves.
  induction rs as [|r rs IH]; cbn [forallb flat_map List.length]; [reflexivity|].
  intros H. apply andb_prop in H. destruct H as [Hr Hrs].
  destruct (resolve questions r); [|discriminate].
  cbn [app List.length]. now rewrite IH.
Qed.

(** X23.  On a quiz and a response list of the shape the scoring functions
    take, with plain identifiers, validateUserResponses never raises; it
    reports the responses valid exactly when every response has a non-empty
    question id and answer id that resolve, which is exactly when the list
    of violations is empty; and then calculateArchetypeScores processes
    every response. *)
Theorem validateUserResponses_on_typed_input :
  forall (numberToString : R -> string)
         (questions : list Question) (userResponses : list Response),
    plainQuiz questions userResponses = true ->
    exists errors,
      validateUserResponses numberToString (quizToValue questions)
                            (responsesToValue userResponses)
      = Return (Validation.mk (forallb (responseWellFormed questions) userResponses)
                              errors)
      /\ (forallb (responseWellFormed questions) userResponses = true <-> errors = [])
      /\ (errors = [] ->
            List.length (processedResponses questions userResponses)
            = List.length userResponses).
Proof.
  intros numberToString questions userResponses _.
  unfold validateUserResponses, responsesToValue, quizToValue. cbn [forEach].
  destruct (registerQuestion_typed numberToString questions 0%nat [] []
              (fun id => eq_refl)) as [questionMap [-> Hmap]].
  cbn [bind]. fold (buildQuestionMap questions) in Hmap.
  destruct (forEachFrom_responses numberToString questions questionMap Hmap
              userResponses 0%nat []) as [extra [-> Hextra]].
  cbn [bind app]. exists extra. rewrite Hextra.
  assert (forallb (responseWellFormed questions) userResponses = true <-> extra = [])
    as Hiff by (rewrite <- Hextra; apply isEmpty_nil).
  split; [reflexivity|]. split; [exact Hiff|].
  intros Hnil. apply Hiff in Hnil. apply processed_when_all_resolve.
  rewrite forallb_forall in Hnil |- *. intros r Hr. specialize (Hnil r Hr).
  unfold responseWellFormed in Hnil. apply andb_prop in Hnil. apply Hnil.
Qed.

Lemma validateUserResponses_on_typed_input_witness :
  exists errors,
    validateUserResponses (fun _ => "") (quizToValue dynamicQuiz)
                          (responsesToValue dynamicResponses)
    = Return (Validation.mk (forallb (responseWellFormed dynamicQuiz) dynamicResponses)
                            errors)
    /\ (forallb (responseWellFormed dynamicQuiz) dynamicResponses = true <-> errors = [])
    /\ (errors = [] ->
          List.length (processedResponses dynamicQuiz dynamicResponses)
          = List.length dynamicResponses).
Proof.
  exact (validateUserResponses_on_typed_input (fun _ => "") dynamicQuiz dynamicResponses
           eq_refl).
Defined.

(** ** The order of the dominant archetypes and of the tie break *)

Section SortHead.
Context {A : Type} (compareFn : A -> A -> R) (w : A).
Hypothesis w_not_after_itself : Rgtb (compareFn w w) 0 = false.

(** An element that the comparator puts before every other one ends up
    first. *)
Lemma sort_head (l : list A) :
  In w l ->
  (forall x, In x l ->
     x = w \/ (Rgtb (compareFn x w) 0 = true /\ Rgtb (compareFn w x) 0 = false)) ->
  exists rest, sort compareFn l = w :: rest.
Proof.
  induction l as [|a l IH]; intros Hin Hall; [destruct Hin|].
  cbn [sort fold_right]. fold (sort compareFn l).
  assert (Rgtb (compareFn w a) 0 = false /\
          (a = w \/ Rgtb (compareFn a w) 0 = true)) as [Hwa Haw].
  { destruct (Hall a (or_introl eq_refl)) as [->|[H1 H2]]; auto. }
  destruct Hin as [->|Hin].
  - pose proof (sort_perm compareFn l) as Hperm.
    destruct (sort compareFn l) as [|b sorted]; cbn [insertSorted]; [eauto|].
    assert (In b l) as Hb by (apply (Permutation_in _ Hperm); now left).
    destruct (Hall b (or_intror Hb)) as [->|[_ H2]].
    + rewrite w_not_after_itself. eauto.
    + rewrite H2. eauto.
  - destruct (IH Hin (fun x Hx => Hall x (or_intror Hx))) as [rest ->].
    cbn [insertSorted]. destruct Haw as [->|Haw].
    + rewrite w_not_after_itself. eauto.
    + rewrite Haw. eauto.
Qed.
End SortHead.

Lemma mapOutcome_similarityTo (allScores : ScoreMap) (tied : list string) :
  mapOutcome (similarityOf (inferUserTraitVector allScores)) tied
  = Return (map (fun id => (id, similarityTo allScores id)) tied).
Proof.
  induction tied as [|id tied IH]; cbn [mapOutcome map]; [reflexivity|].
  rewrite IH. unfold similarityTo.
  destruct (similarityOf_returns (inferUserTraitVector allScores) id
              (inferUserTraitVector_length allScores)) as [s ->].
  reflexivity.
Qed.

Lemma compareSimilarity_rankedBefore (a b : string * R) :
  rankedBefore a b ->
  Rgtb (compareSimilarity b a) 0 = true /\ Rgtb (compareSimilarity a b) 0 = false.
Proof.
  unfold rankedBefore, compareSimilarity.
  destruct a as [w sw], b as [x sx]. cbn [fst snd].
  intros [Hfar|[Hnear Hlt]].
  - rewrite (proj2 (Rltb_false (Rabs (sw - sx)) 0.0001))
      by (unfold Rabs; destruct (Rcase_abs (sw - sx)); lra).
    rewrite (proj2 (Rltb_false (Rabs (sx - sw)) 0.0001))
      by (unfold Rabs; destruct (Rcase_abs (sx - sw)); lra).
    split; [apply Rgtb_true|apply Rgtb_false]; lra.
  - rewrite (proj2 (Rltb_true (Rabs (sw - sx)) 0.0001)) by exact Hnear.
    rewrite (proj2 (Rltb_true (Rabs (sx - sw)) 0.0001))
      by (rewrite Rabs_minus_sym; exact Hnear).
    rewrite (localeCompare_value w x Lt Hlt).
    assert (String.compare x w = Gt) as Hgt
        by (rewrite String.compare_antisym, Hlt; reflexivity).
    rewrite (localeCompare_value x w Gt Hgt).
    split; [apply Rgtb_true|apply Rgtb_false]; lra.
Qed.

Lemma compareDominant_rankedBefore (a b : string * R) :
  rankedBefore a b ->
  Rgtb (compareDominant b a) 0 = true /\ Rgtb (compareDominant a b) 0 = false.
Proof. exact (compareSimilarity_rankedBefore a b). Qed.

Lemma compareSimilarity_same (e : string * R) : Rgtb (compareSimilarity e e) 0 = false.
Proof.
  unfold compareSimilarity. rewrite Rminus_diag, Rabs_R0.
  rewrite (proj2 (Rltb_true 0 0.0001)) by lra.
  assert (String.compare (fst e) (fst e) = Eq) as H.
  { pose proof (String.compare_antisym (fst e) (fst e)) as H.
    destruct (String.compare (fst e) (fst e)); [reflexivity|discriminate H|discriminate H]. }
  rewrite (localeCompare_value _ _ Eq H). apply Rgtb_false. lra.
Qed.

(** X24.  For plain identifiers in lower-case letters and hyphens,
    breakTieWithTraits returns the tied archetype that its order places
    before every other tied archetype: the one whose cosine similarity to
    the inferred trait vector is higher by 0.0001 or more, or, against an
    archetype closer than 0.0001, the one that comes first alphabetically.
    *)
Theorem tie_break_winner :
  forall (tied : list string) (allScores : ScoreMap) (w : string),
    forallb plainKey tied = true ->
    forallb kebabCase tied = true ->
    plainScores allScores = true ->
    In w tied ->
    (forall x, In x tied -> x <> w -> placedBefore allScores w x) ->
    callBreakTieWithTraits tied allScores = Return w.
Proof.
  intros tied allScores w _ _ _ Hin Hall. unfold callBreakTieWithTraits.
  destruct (breakTieWithTraits_run [IdArray tied; ScoreObject allScores] 0%nat 1%nat
              tied allScores eq_refl eq_refl) as [entries [Hentries [_ ->]]].
  cbn [fst]. rewrite mapOutcome_similarityTo in Hentries. injection Hentries as <-.
  destruct (sort_head compareSimilarity (w, similarityTo allScores w)
              (compareSimilarity_same _)
              (map (fun id => (id, similarityTo allScores id)) tied)) as [rest ->].
  - apply (in_map (fun id => (id, similarityTo allScores id))), Hin.
  - intros e He. apply in_map_iff in He. destruct He as [x [<- Hx]].
    destruct (string_dec x w) as [->|Hne]; [now left|right].
    apply compareSimilarity_rankedBefore, Hall; assumption.
  - reflexivity.
Qed.

Lemma tie_break_winner_witness :
  callBreakTieWithTraits ["zealot"; "drifter"] [("zealot", 3); ("drifter", 3)]
  = Return "drifter".
Proof.
  apply (tie_break_winner ["zealot"; "drifter"] [("zealot", 3); ("drifter", 3)] "drifter");
    try reflexivity.
  - cbn [In]. auto.
  - intros x [<-|[<-|[]]] Hne; [|congruence].
    right. cbn [fst snd]. split; [|reflexivity].
    assert (similarityTo [("zealot", 3); ("drifter", 3)] "drifter" = 0) as -> by reflexivity.
    assert (similarityTo [("zealot", 3); ("drifter", 3)] "zealot" = 0) as -> by reflexivity.
    rewrite Rminus_diag, Rabs_R0. lra.
Defined.

Lemma compareDominant_same (e : string * R) : Rgtb (compareDominant e e) 0 = false.
Proof. exact (compareSimilarity_same e). Qed.

Lemma entry_of_key (scores : ScoreMap) (k : string) (a b : R) :
  NoDup (keys scores) -> In (k, a) scores -> In (k, b) scores -> a = b.
Proof.
  unfold keys. induction scores as [|[k' v] scores IH]; cbn [map fst In]; [tauto|].
  intros Hnd. apply NoDup_cons_iff in Hnd. destruct Hnd as [Hnotin Hnd].
  intros [Ha|Ha] [Hb|Hb].
  - congruence.
  - exfalso. apply Hnotin. injection Ha as -> _.
    apply (in_map fst) in Hb. exact Hb.
  - exfalso. apply Hnotin. injection Hb as -> _.
    apply (in_map fst) in Ha. exact Ha.
  - now apply IH.
Qed.

(** X25.  For identifiers in lower-case letters and hyphens, none twice in
    the score map, the dominant list of determineDominantArchetypes starts
    with the archetype of the threshold band that the order places before
    every other one of the band: its score is higher by 0.0001 or more, or,
    against a score closer than 0.0001, its identifier comes first
    alphabetically. *)
Theorem first_dominant_archetype :
  forall (scores : ScoreMap) (eps : R) (r : Dominance.t) (w : string) (s : R),
    forallb kebabCase (keys scores) = true ->
    NoDup (keys scores) ->
    determineDominantArchetypes scores eps = Return r ->
    In (w, s) scores ->
    Dominance.threshold r <= s ->
    (forall e, In e scores -> Dominance.threshold r <= snd e -> fst e <> w ->
               rankedBefore (w, s) e) ->
    nth_error (Dominance.dominant r) 0 = Some w.
Proof.
  intros scores eps r w s _ Hnd Hr Hin Hband Hall.
  destruct (dominant_entries scores eps r Hr) as (_ & -> & _).
  destruct (sort_head compareDominant (w, s) (compareDominant_same _)
              (entriesAtLeast (Dominance.threshold r) scores)) as [rest ->].
  - unfold entriesAtLeast. apply filter_In. split; [exact Hin|].
    now apply Rleb_true.
  - intros e He. unfold entriesAtLeast in He. apply filter_In in He.
    destruct He as [He Hge]. apply Rleb_true in Hge.
    destruct (string_dec (fst e) w) as [Heq|Hne].
    + left. destruct e as [k v]. cbn [fst] in Heq. subst k. f_equal.
      exact (entry_of_key scores w v s Hnd He Hin).
    + right. apply compareDominant_rankedBefore, Hall; assumption.
  - reflexivity.
Qed.

Lemma first_dominant_archetype_witness :
  exists r,
    determineDominantArchetypes [("a", 5); ("b", 5); ("c", 2)] 0.05 = Return r /\
    nth_error (Dominance.dominant r) 0 = Some "a".
Proof.
  eexists. split; [exact tie_detection_determinism|].
  apply (first_dominant_archetype [("a", 5); ("b", 5); ("c", 2)] 0.05 _ "a" 5).
  - reflexivity.
  - repeat constructor; cbn [In]; intros H;
      repeat (destruct H as [H|H]; [discriminate H|]); exact H.
  - exact tie_detection_determinism.
  - now left.
  - cbn [Dominance.threshold]. lra.
  - cbn [Dominance.threshold]. intros e [<-|[<-|[<-|[]]]] Hge Hne; cbn [fst snd] in *.
    + congruence.
    + right. cbn [fst snd]. split; [|reflexivity]. rewrite Rminus_diag, Rabs_R0. lra.
    + lra.
Defined.

(** ** Ties and confidence *)

Lemma entriesAtLeast_positive (t : R) (scores : ScoreMap) :
  0 < t ->
  entriesAtLeast t (filter (fun e => Rgtb (snd e) 0) scores) = entriesAtLeast t scores.
Proof.
  intros Ht. unfold entriesAtLeast.
  induction scores as [|e scores IH]; cbn [filter]; [reflexivity|].
  destruct (Rgtb (snd e) 0) eqn:E; cbn [filter]; rewrite IH; [reflexivity|].
  apply Rgtb_false in E. rewrite (proj2 (Rleb_false t (snd e))) by lra. reflexivity.
Qed.

Lemma filter_length_perm {A : Type} (p : A -> bool) (l l' : list A) :
  Permutation l l' -> List.length (filter p l) = List.length (filter p l').
Proof.
  induction 1; cbn [filter].
  - reflexivity.
  - destruct (p x); cbn [List.length]; congruence.
  - destruct (p x), (p y); reflexivity.
  - congruence.
Qed.

Lemma two_at_least (t : R) (a b : string * R) (rest : list (string * R)) :
  StronglySorted descending (a :: b :: rest) ->
  (2 <= List.length (entriesAtLeast t (a :: b :: rest)))%nat <-> t <= snd b.
Proof.
  intros Hsorted.
  apply StronglySorted_inv in Hsorted. destruct Hsorted as [Hsorted Ha].
  apply StronglySorted_inv in Hsorted. destruct Hsorted as [_ Hb].
  apply Forall_inv in Ha. unfold descending in Ha.
  unfold entriesAtLeast. cbn [filter]. split.
  - intros Hlen. destruct (Rle_dec t (snd b)) as [Hle|Hlt]; [exact Hle|exfalso].
    rewrite (proj2 (Rleb_false t (snd b))) in Hlen by lra.
    assert (filter (fun e : string * R => Rleb t (snd e)) rest = []) as Hnone.
    { apply filter_nothing. intros e He. rewrite Forall_forall in Hb.
      specialize (Hb e He). unfold descending in Hb. apply Rleb_false. lra. }
    rewrite Hnone in Hlen. destruct (Rleb t (snd a)); cbn [List.length] in Hlen; lia.
  - intros Hle. rewrite (proj2 (Rleb_true t (snd b))) by exact Hle.
    rewrite (proj2 (Rleb_true t (snd a))) by lra. cbn [List.length]. lia.
Qed.

(** X26.  For a tolerance in [0, 1) and a positive maximum,
    determineDominantArchetypes reports a tie exactly when the confidence
    calculateConfidence computes from the same scores is at most the
    tolerance (numbers read as exact reals). *)
Theorem tie_means_low_confidence :
  forall (scores : ScoreMap) (eps : R) (r : Dominance.t),
    0 <= eps < 1 ->
    determineDominantArchetypes scores eps = Return r ->
    0 < Dominance.maxScore r ->
    (Dominance.hasTie r = true
       <-> Confidence.score (calculateConfidence scores) <= eps).
Proof.
  intros scores eps r Heps Hr Hmax.
  destruct (dominant_entries scores eps r Hr)
    as (Hthr & Hdom & Htie & Hub & [emax [Hin Hemax]] & _ & _).
  assert (0 < Dominance.threshold r) as Hpos by (rewrite Hthr; nra).
  assert (Dominance.hasTie r = true
          <-> (2 <= List.length (entriesAtLeast (Dominance.threshold r) scores))%nat)
    as ->.
  { rewrite Htie, Hdom, length_map, (Permutation_length (sort_perm _ _)).
    rewrite Nat.ltb_lt. lia. }
  rewrite <- (entriesAtLeast_positive _ scores Hpos).
  unfold calculateConfidence.
  set (positive := filter (fun e => Rgtb (snd e) 0) scores).
  pose proof (sort_perm compareScoreDescending positive) as Hperm.
  pose proof (sort_descending positive) as Hsorted.
  unfold entriesAtLeast at 1.
  rewrite <- (filter_length_perm _ _ _ Hperm).
  fold (entriesAtLeast (Dominance.threshold r) (sort compareScoreDescending positive)).
  assert (In emax (sort compareScoreDescending positive)) as Htop.
  { apply sort_In, filter_In. split; [exact Hin|]. apply Rgtb_true. lra. }
  assert (forall e, In e (sort compareScoreDescending positive) ->
                    snd e <= Dominance.maxScore r) as Hle.
  { intros e He. apply sort_In, filter_In in He. apply Hub, He. }
  destruct (sort compareScoreDescending positive) as [|[fp fs] [|[sp ss] rest]].
  - destruct Htop.
  - cbn [Confidence.score]. unfold entriesAtLeast. cbn [filter].
    destruct (Rleb _ _); cbn [List.length]; split; intros H; try lia; lra.
  - cbn [Confidence.score]. rewrite (two_at_least _ _ _ _ Hsorted). cbn [snd].
    assert (fs = Dominance.maxScore r) as ->.
    { apply Rle_antisym; [apply (Hle (fp, fs)); now left|].
      rewrite <- Hemax. destruct Htop as [<-|Htop]; [cbn [snd]; lra|].
      apply StronglySorted_inv in Hsorted. destruct Hsorted as [_ Hfirst].
      rewrite Forall_forall in Hfirst. apply (Hfirst emax Htop). }
    rewrite Hthr. set (m := Dominance.maxScore r) in *. split.
    + intros H. apply (Rmult_le_reg_r m); [exact Hmax|].
      unfold Rdiv. rewrite Rmult_assoc, Rinv_l by lra. lra.
    + intros H. apply (Rmult_le_compat_r m) in H; [|lra].
      unfold Rdiv in H. rewrite Rmult_assoc, Rinv_l in H by lra. lra.
Qed.

Lemma tie_means_low_confidence_witness :
  exists r,
    determineDominantArchetypes [("a", 5); ("b", 5); ("c", 2)] 0.05 = Return r /\
    (Dominance.hasTie r = true
       <-> Confidence.score (calculateConfidence [("a", 5); ("b", 5); ("c", 2)]) <= 0.05).
Proof.
  eexists. split; [exact tie_detection_determinism|].
  apply (tie_means_low_confidence [("a", 5); ("b", 5); ("c", 2)] 0.05).
  - lra.
  - exact tie_detection_determinism.
  - cbn [Dominance.maxScore]. lra.
Defined.
